(** * ClearML [utilities/proxy_object.py]: deferred-value proxies, mapping
    wrappers and type-casting utilities

    A shallow embedding of [clearml/utilities/proxy_object.py] together with
    the properties its specification states about it.

    Conventions of the embedding:
    - a Python [str] is a Rocq [string]; each [ascii] character stands for the
      code point of the same number (U+0000 .. U+00FF);
    - a Python [dict] with string keys is an association list in insertion
      order, [d[k] = v] is [dict_set], [d.get(k, default)] is [dict_get] with
      [default], [d.update(other)] is [dict_update];
    - a Python exception is the [Raise] case of [outcome];
    - objects that are mutated and shared (the mapping wrappers, the deferred
      handles) live in an explicit store and are named by their index in it. *)

From Stdlib Require Import String Ascii List ZArith Lia Bool.
From Stdlib Require Import PrimFloat Uint63 SpecFloat FloatOps.
From stdpp Require Import base list strings.
Import ListNotations.

#[local] Open Scope string_scope.
#[local] Open Scope list_scope.
#[local] Set Warnings "-register-all".

(** ** Python values *)

(** The values the utilities inspect by [isinstance]: the four primitive
    types ([float], [int], [bool], [str]), [None], and the three containers. *)
Inductive PyVal : Type :=
| PyNone
| PyBool (b : bool)
| PyInt (z : Z)
| PyFloat (f : float)
| PyStr (s : string)
| PyList (l : list PyVal)
| PyTuple (l : list PyVal)
| PyDict (d : list (string * PyVal)).

(** Python exceptions, by class, with the message where the code builds one. *)
Inductive PyExc : Type :=
| ValueError (msg : string)
| TypeError
| AttributeError
| OverflowError
| JSONDecodeError
| YAMLError
| UserError (tag : nat).

Inductive outcome (A : Type) : Type :=
| Ok (a : A)
| Raise (e : PyExc).
Arguments Ok {A} a.
Arguments Raise {A} e.

(** [try: body except Exception: handler] *)
Definition try_except {A} (body : outcome A) (handler : outcome A) : outcome A :=
  match body with
  | Ok a => Ok a
  | Raise _ => handler
  end.

Definition bind {A B} (m : outcome A) (k : A -> outcome B) : outcome B :=
  match m with
  | Ok a => k a
  | Raise e => Raise e
  end.

(** ** Dictionaries as insertion-ordered association lists *)

Definition dict (A : Type) : Type := list (string * A).

Fixpoint dict_get {A} (d : dict A) (k : string) : option A :=
  match d with
  | [] => None
  | (k', v) :: rest => if String.eqb k' k then Some v else dict_get rest k
  end.

(** [d[k] = v]: an existing key keeps its position, a new key goes last. *)
Fixpoint dict_set {A} (d : dict A) (k : string) (v : A) : dict A :=
  match d with
  | [] => [(k, v)]
  | (k', v') :: rest =>
      if String.eqb k' k then (k', v) :: rest else (k', v') :: dict_set rest k v
  end.

(** [d.update(other)] *)
Definition dict_update {A} (d other : dict A) : dict A :=
  fold_left (fun acc kv => dict_set acc (fst kv) (snd kv)) other d.

Definition dict_keys {A} (d : dict A) : list string := map fst d.

(** A Python dict never holds a key twice, at any depth. *)
Fixpoint dict_wf (v : PyVal) : Prop :=
  match v with
  | PyDict d =>
      NoDup (d.*1) /\
      (fix all (l : list (string * PyVal)) : Prop :=
         match l with
         | [] => True
         | kv :: rest => dict_wf (snd kv) /\ all rest
         end) d
  | _ => True
  end.

(** Truthiness, [bool(v)]. *)
Definition py_truthy (v : PyVal) : bool :=
  match v with
  | PyNone => false
  | PyBool b => b
  | PyInt z => negb (Z.eqb z 0)
  | PyFloat f => negb (PrimFloat.eqb f 0%float)
  | PyStr s => negb (String.eqb s "")
  | PyList l | PyTuple l => match l with [] => false | _ => true end
  | PyDict d => match d with [] => false | _ => true end
  end.

(** [z == f] for an [int] and a [float]: the comparison is exact. *)
Definition int_eq_float (z : Z) (f : float) : bool :=
  match Prim2SF f with
  | S754_zero _ => Z.eqb z 0
  | S754_finite s m e =>
      let mz := if s then Z.neg m else Z.pos m in
      if Z.leb 0 e then Z.eqb z (mz * 2 ^ e) else Z.eqb (z * 2 ^ (- e)) mz
  | _ => false
  end.

Fixpoint list_eq_with {A} (eq : A -> A -> bool) (l1 l2 : list A) : bool :=
  match l1, l2 with
  | [], [] => true
  | x :: r1, y :: r2 => eq x y && list_eq_with eq r1 r2
  | _, _ => false
  end.

(** Python's [a == b] on these values: numbers compare by value across
    [bool], [int] and [float]; sequences compare element by element and only
    with their own type; mappings compare as finite maps, whatever the order
    of insertion. *)
Fixpoint py_eq (a b : PyVal) {struct a} : bool :=
  match a, b with
  | PyNone, PyNone => true
  | PyBool x, PyBool y => Bool.eqb x y
  | PyBool x, PyInt y => Z.eqb (Z.b2z x) y
  | PyInt x, PyBool y => Z.eqb x (Z.b2z y)
  | PyInt x, PyInt y => Z.eqb x y
  | PyBool x, PyFloat y => int_eq_float (Z.b2z x) y
  | PyInt x, PyFloat y => int_eq_float x y
  | PyFloat x, PyBool y => int_eq_float (Z.b2z y) x
  | PyFloat x, PyInt y => int_eq_float y x
  | PyFloat x, PyFloat y => PrimFloat.eqb x y
  | PyStr x, PyStr y => String.eqb x y
  | PyList x, PyList y => list_eq_with py_eq x y
  | PyTuple x, PyTuple y => list_eq_with py_eq x y
  | PyDict x, PyDict y =>
      Nat.eqb (length x) (length y)
      && forallb
           (fun kv =>
              match dict_get y (fst kv) with
              | Some w => py_eq (snd kv) w
              | None => false
              end)
           x
  | _, _ => false
  end.

(** ** Flattening and un-flattening nested dictionaries *)

Module Flatten.

(** [isinstance(v, (float, int, bool, six.string_types))] *)
Definition is_basic (v : PyVal) : bool :=
  match v with
  | PyFloat _ | PyInt _ | PyBool _ | PyStr _ => true
  | _ => false
  end.

(** [isinstance(v, (list, tuple)) and all([isinstance(i, basic_types) for i in v])] *)
Definition is_basic_seq (v : PyVal) : bool :=
  match v with
  | PyList l | PyTuple l => forallb is_basic l
  | _ => false
  end.

Definition is_dict (v : PyVal) : bool :=
  match v with
  | PyDict _ => true
  | _ => false
  end.

(** [str(k)] for the key of a mapping: the keys of the model are strings,
    and [str] returns a string as it is. *)
Definition str_key (k : string) : string := k.

(** The body of [flatten_dictionary], by recursion on the value; the loop
    [for k, v in a_dict.items()] is the [fold_left] over the items, with
    [flat_dict] as the accumulator.  The mappings of the model have string
    keys only, on which the first statement of the loop, [k = str(k)],
    changes nothing ([str_key]): what is stated of this function is stated
    of mappings whose keys are strings at every depth. *)
Fixpoint flatten_value (a_dict : PyVal) (prefix sep : string) {struct a_dict}
  : dict PyVal :=
  match a_dict with
  | PyDict items =>
      fold_left
        (fun flat_dict kv =>
           let '(k, v) := kv in
           let k := str_key k in
           if is_basic v then dict_set flat_dict (prefix ++ k)%string v
           else if is_basic_seq v then dict_set flat_dict (prefix ++ k)%string v
           else
             match v with
             | PyDict _ =>
                 let nested_flat_dict :=
                   flatten_value v (prefix ++ k ++ sep)%string sep in
                 match nested_flat_dict with
                 | _ :: _ => dict_update flat_dict nested_flat_dict
                 | [] => dict_set flat_dict k (PyDict [])
                 end
             | _ => dict_set flat_dict (prefix ++ k)%string v
             end)
        items []
  | _ => []
  end.

Definition flatten_dictionary (a_dict : dict PyVal) (prefix sep : string)
  : dict PyVal :=
  flatten_value (PyDict a_dict) prefix sep.

(** [flat_dict.get(key, default)] *)
Definition get_default (flat_dict : dict PyVal) (key : string) (default : PyVal)
  : PyVal :=
  match dict_get flat_dict key with
  | Some v => v
  | None => default
  end.

(** The body of [nested_from_flat_dictionary].  The function writes into
    [a_dict] while it walks a shallow copy of it and returns [a_dict]; the
    value it returns is the accumulator of the loop.  A nested mapping is
    updated in place by the recursive call, whose result is that same
    mapping; [... or v] picks [v] when the result is empty.  As in
    [flatten_value], the keys are strings and [k = str(k)] changes nothing
    ([str_key]); for a key that is not a string the code writes under
    [str(k)], beside the key itself, which the model does not show. *)
Fixpoint nested_value (a_dict : PyVal) (flat_dict : dict PyVal)
  (prefix sep : string) {struct a_dict} : PyVal :=
  match a_dict with
  | PyDict org_dict =>
      PyDict
        (fold_left
           (fun a_dict kv =>
              let '(k, v) := kv in
              let k := str_key k in
              if is_basic v then
                dict_set a_dict k (get_default flat_dict (prefix ++ k)%string v)
              else if is_basic_seq v then
                dict_set a_dict k (get_default flat_dict (prefix ++ k)%string v)
              else
                match v with
                | PyDict _ =>
                    let r := nested_value v flat_dict (prefix ++ k ++ sep)%string sep in
                    dict_set a_dict k (if py_truthy r then r else v)
                | _ =>
                    dict_set a_dict k (get_default flat_dict (prefix ++ k)%string v)
                end)
           org_dict org_dict)
  | _ => a_dict
  end.

Definition nested_from_flat_dictionary (a_dict flat_dict : dict PyVal)
  (prefix sep : string) : PyVal :=
  nested_value (PyDict a_dict) flat_dict prefix sep.

(** One round of the loop of [flatten_dictionary]. *)
Definition flatten_step (prefix sep : string) (flat_dict : dict PyVal)
  (kv : string * PyVal) : dict PyVal :=
  let '(k, v) := kv in
  if is_basic v then dict_set flat_dict (prefix ++ k)%string v
  else if is_basic_seq v then dict_set flat_dict (prefix ++ k)%string v
  else
    match v with
    | PyDict _ =>
        let nested_flat_dict :=
          flatten_value v (prefix ++ k ++ sep)%string sep in
        match nested_flat_dict with
        | _ :: _ => dict_update flat_dict nested_flat_dict
        | [] => dict_set flat_dict k (PyDict [])
        end
    | _ => dict_set flat_dict (prefix ++ k)%string v
    end.

(** The keys [flatten_dictionary] writes, one per entry it meets and in the
    order it meets them, each with the value written: [prefix + k] for a value
    that is not a mapping, the bare [k] for an empty mapping, and the entries
    of a non-empty mapping under [prefix + k + sep]. *)
Fixpoint flat_entries (a_dict : PyVal) (prefix sep : string) {struct a_dict}
  : list (string * PyVal) :=
  match a_dict with
  | PyDict items =>
      flat_map
        (fun kv =>
           let '(k, v) := kv in
           match v with
           | PyDict [] => [(k, PyDict [])]
           | PyDict (_ :: _) => flat_entries v (prefix ++ k ++ sep)%string sep
           | _ => [((prefix ++ k)%string, v)]
           end)
        items
  | _ => []
  end.

Definition flat_entry (prefix sep : string) (kv : string * PyVal)
  : list (string * PyVal) :=
  let '(k, v) := kv in
  match v with
  | PyDict [] => [(k, PyDict [])]
  | PyDict (_ :: _) => flat_entries v (prefix ++ k ++ sep)%string sep
  | _ => [((prefix ++ k)%string, v)]
  end.

(** One round of the loop of [nested_from_flat_dictionary]. *)
Definition nested_step (flat_dict : dict PyVal) (prefix sep : string)
  (a_dict : dict PyVal) (kv : string * PyVal) : dict PyVal :=
  let '(k, v) := kv in
  if is_basic v then
    dict_set a_dict k (get_default flat_dict (prefix ++ k)%string v)
  else if is_basic_seq v then
    dict_set a_dict k (get_default flat_dict (prefix ++ k)%string v)
  else
    match v with
    | PyDict _ =>
        let r := nested_value v flat_dict (prefix ++ k ++ sep)%string sep in
        dict_set a_dict k (if py_truthy r then r else v)
    | _ =>
        dict_set a_dict k (get_default flat_dict (prefix ++ k)%string v)
    end.

Definition flat_paths (a_dict : dict PyVal) (prefix sep : string) : list string :=
  (flat_entries (PyDict a_dict) prefix sep).*1.

Fixpoint contains (c : ascii) (s : string) : bool :=
  match s with
  | EmptyString => false
  | String a r => Ascii.eqb a c || contains c r
  end.

(** No key, at any depth, holds the character [c], and no nested mapping is
    empty. *)
Fixpoint separable (c : ascii) (v : PyVal) : Prop :=
  match v with
  | PyDict d =>
      (fix all (l : list (string * PyVal)) : Prop :=
         match l with
         | [] => True
         | kv :: rest =>
             (contains c (fst kv) = false /\ snd kv <> PyDict [] /\
              separable c (snd kv)) /\ all rest
         end) d
  | _ => True
  end.

(** A mapping of depth three with primitive leaves. *)
Definition nested_sample : dict PyVal :=
  [("x", PyInt 5);
   ("a", PyDict [("b", PyDict [("c", PyList [PyInt 1; PyInt 2])]);
                 ("d", PyStr "s")])].

(** A mapping of depth two with primitive leaves in which a key holds the
    separator. *)
Definition colliding_sample : dict PyVal :=
  [("a/b", PyInt 1); ("a", PyDict [("b", PyInt 2)])].

End Flatten.

(** ** Induction over nested values *)

Section PyVal_induction.
Variable P : PyVal -> Prop.
Hypothesis HNone : P PyNone.
Hypothesis HBool : forall b, P (PyBool b).
Hypothesis HInt : forall z, P (PyInt z).
Hypothesis HFloat : forall f, P (PyFloat f).
Hypothesis HStr : forall s, P (PyStr s).
Hypothesis HList : forall l, Forall P l -> P (PyList l).
Hypothesis HTuple : forall l, Forall P l -> P (PyTuple l).
Hypothesis HDict : forall d, Forall (fun kv => P (snd kv)) d -> P (PyDict d).

Fixpoint PyVal_nested_ind (v : PyVal) : P v :=
  match v with
  | PyNone => HNone
  | PyBool b => HBool b
  | PyInt z => HInt z
  | PyFloat f => HFloat f
  | PyStr s => HStr s
  | PyList l =>
      HList l
        ((fix go (l : list PyVal) : Forall P l :=
            match l with
            | [] => @List.Forall_nil _ P
            | x :: r => @List.Forall_cons _ P x r (PyVal_nested_ind x) (go r)
            end) l)
  | PyTuple l =>
      HTuple l
        ((fix go (l : list PyVal) : Forall P l :=
            match l with
            | [] => @List.Forall_nil _ P
            | x :: r => @List.Forall_cons _ P x r (PyVal_nested_ind x) (go r)
            end) l)
  | PyDict d =>
      HDict d
        ((fix go (d : list (string * PyVal)) : Forall (fun kv => P (snd kv)) d :=
            match d with
            | [] => @List.Forall_nil _ (fun kv => P (snd kv))
            | kv :: r =>
                @List.Forall_cons _ (fun kv => P (snd kv)) kv r
                  (PyVal_nested_ind (snd kv)) (go r)
            end) d)
  end.
End PyVal_induction.



(** ** Strings, numbers and their renderings *)

Module PyStr.

#[local] Open Scope Z_scope.

Definition code (c : ascii) : nat := nat_of_ascii c.

(** [c.isspace()] on U+0000 .. U+00FF: the characters [str.strip()] removes. *)
Definition is_space (c : ascii) : bool :=
  let n := code c in
  (Nat.leb 9 n && Nat.leb n 13) || (Nat.leb 28 n && Nat.leb n 32)
  || Nat.eqb n 133 || Nat.eqb n 160.

(** [c.lower()] on U+0000 .. U+00FF. *)
Definition lower_char (c : ascii) : ascii :=
  let n := code c in
  if (Nat.leb 65 n && Nat.leb n 90)
     || (Nat.leb 192 n && Nat.leb n 222 && negb (Nat.eqb n 215))
  then ascii_of_nat (n + 32)%nat
  else c.

Fixpoint lower (s : string) : string :=
  match s with
  | EmptyString => EmptyString
  | String c r => String (lower_char c) (lower r)
  end.

Fixpoint lstrip_with (p : ascii -> bool) (s : string) : string :=
  match s with
  | EmptyString => EmptyString
  | String c r => if p c then lstrip_with p r else s
  end.

Fixpoint rstrip_with (p : ascii -> bool) (s : string) : string :=
  match s with
  | EmptyString => EmptyString
  | String c r =>
      match rstrip_with p r with
      | EmptyString => if p c then EmptyString else String c EmptyString
      | r' => String c r'
      end
  end.

(** [s.strip()] *)
Definition strip (s : string) : string :=
  rstrip_with is_space (lstrip_with is_space s).

Fixpoint mem_char (c : ascii) (chars : string) : bool :=
  match chars with
  | EmptyString => false
  | String d r => Ascii.eqb c d || mem_char c r
  end.

(** [s.lstrip(chars)] and [s.rstrip(chars)] *)
Definition lstrip (s chars : string) : string :=
  lstrip_with (fun c => mem_char c chars) s.
Definition rstrip (s chars : string) : string :=
  rstrip_with (fun c => mem_char c chars) s.

(** [s.split(sep)] for a separator of one character. *)
Fixpoint split (sep : ascii) (s : string) : list string :=
  match s with
  | EmptyString => [EmptyString]
  | String c r =>
      if Ascii.eqb c sep then EmptyString :: split sep r
      else
        match split sep r with
        | p :: ps => String c p :: ps
        | [] => [String c EmptyString]
        end
  end.

(** The double quote character. *)
Definition dquote : ascii := ascii_of_nat 34.

Definition is_digit (c : ascii) : bool :=
  Nat.leb 48 (code c) && Nat.leb (code c) 57.

Definition digit_value (c : ascii) : Z := Z.of_nat (code c) - 48.

Definition digit_char (d : Z) : ascii := ascii_of_nat (Z.to_nat (d + 48)).

Fixpoint digits_of (fuel : nat) (n : Z) (acc : string) : string :=
  match fuel with
  | O => acc
  | S fuel' =>
      let acc' := String (digit_char (n mod 10)) acc in
      if Z.ltb n 10 then acc' else digits_of fuel' (n / 10) acc'
  end.

(** The decimal digits of a natural number. *)
Definition str_of_nonneg (n : Z) : string :=
  digits_of (S (Z.to_nat (Z.log2 n))) n EmptyString.

(** The decimal rendering of an [int]: what [str(z)] and [repr(z)] return
    for [z] of at most 4300 digits.  For a longer [z] the interpreter raises
    [ValueError] (the limit of [int_max_str_digits]), which a rendering that
    is a string cannot show: the properties stated of [str] on every [int]
    are stated below that limit. *)
Definition str_of_int (z : Z) : string :=
  if Z.ltb z 0 then String "-" (str_of_nonneg (- z)) else str_of_nonneg z.

(** A run of decimal digits, with single underscores allowed between
    digits; the value read so far, the number of digits, and the rest. *)
Fixpoint read_digits (s : string) (acc : Z) (count : nat) : Z * nat * string :=
  match s with
  | String c r =>
      if is_digit c then read_digits r (10 * acc + digit_value c) (S count)
      else if Ascii.eqb c "_" then
        match count, r with
        | S _, String d _ => if is_digit d then read_digits r acc count else (acc, count, s)
        | _, _ => (acc, count, s)
        end
      else (acc, count, s)
  | EmptyString => (acc, count, s)
  end.

Definition read_sign (s : string) : bool * string :=
  match s with
  | String "-" r => (true, r)
  | String "+" r => (false, r)
  | _ => (false, s)
  end.

(** The spaces [int] and [float] skip at both ends of a string: [\t],
    [\n], [\v], [\f], [\r] and the space, with U+0085 and U+00A0.  U+001C
    to U+001F, which [str.strip] removes, are refused by both. *)
Definition is_num_space (c : ascii) : bool :=
  let n := code c in
  (Nat.leb 9 n && Nat.leb n 13) || Nat.eqb n 32 || Nat.eqb n 133 || Nat.eqb n 160.

Definition num_strip (s : string) : string :=
  rstrip_with is_num_space (lstrip_with is_num_space s).

(** [sys.get_int_max_str_digits()], as the interpreter starts: the most
    digits [int] reads from a string and [str] writes for an [int]. *)
Definition int_max_str_digits : Z := 4300.

Definition int_limit_error {A} : outcome A :=
  Raise (ValueError "Exceeds the limit (4300 digits) for integer string conversion").

(** [int(s)] for a string, base ten: a run of digits that stops at an
    underscore is refused, then a run of more than 4300 digits, then
    anything left after the digits.  The messages are kept up to the text
    that does not depend on the string. *)
Definition int_of_str (s : string) : outcome PyVal :=
  let invalid := Raise (ValueError "invalid literal for int() with base 10") in
  let '(neg, r) := read_sign (num_strip s) in
  match read_digits r 0 0 with
  | (n, S count, rest) =>
      match rest with
      | String "_" _ => invalid
      | _ =>
          if Z.ltb int_max_str_digits (Z.of_nat (S count)) then int_limit_error
          else
            match rest with
            | EmptyString => Ok (PyInt (if neg then - n else n))
            | _ => invalid
            end
      end
  | _ => invalid
  end.

(** The binary64 value nearest to [(-1)^neg * d * 10^e] (ties to even), by
    one correctly rounded division of integers. *)
Definition float_of_decimal (neg : bool) (d : Z) (e : Z) : float :=
  match d with
  | Zpos _ =>
      let num := d * 10 ^ Z.max e 0 in
      let den := 10 ^ Z.max (- e) 0 in
      match num, den with
      | Zpos pn, Zpos pd =>
          SF2Prim (SFdiv prec emax (S754_finite neg pn 0) (S754_finite false pd 0))
      | _, _ => nan
      end
  | _ => if neg then neg_zero else zero
  end.

(** [float(s)] for a string: a decimal literal with an optional fraction and
    exponent, or one of [inf], [infinity], [nan]. *)
Definition float_of_str (s : string) : outcome PyVal :=
  let bad := Raise (ValueError "could not convert string to float") in
  let '(neg, r) := read_sign (num_strip s) in
  let word := lower r in
  if String.eqb word "inf" || String.eqb word "infinity" then
    Ok (PyFloat (if neg then neg_infinity else infinity))
  else if String.eqb word "nan" then Ok (PyFloat nan)
  else
    let '(ip, ni, r1) := read_digits r 0 0 in
    let '(m, nf, r2) :=
      match r1 with
      | String "." r1' => read_digits r1' ip 0
      | _ => (ip, 0%nat, r1)
      end in
    match (ni + nf)%nat with
    | O => bad
    | S _ =>
        match r2 with
        | EmptyString => Ok (PyFloat (float_of_decimal neg m (- Z.of_nat nf)))
        | String c r3 =>
            if Ascii.eqb c "e" || Ascii.eqb c "E" then
              let '(eneg, r4) := read_sign r3 in
              match read_digits r4 0 0 with
              | (x, S _, EmptyString) =>
                  Ok (PyFloat (float_of_decimal neg m
                                 ((if eneg then - x else x) - Z.of_nat nf)))
              | _ => bad
              end
            else bad
        end
    end.

(** The least [d] with [num / den < 10^d], searched upwards from [d0]. *)
Fixpoint decimal_point (fuel : nat) (num den d : Z) : Z :=
  match fuel with
  | O => d
  | S fuel' =>
      if Z.ltb (num * 10 ^ Z.max (- d) 0) (den * 10 ^ Z.max d 0) then d
      else decimal_point fuel' num den (d + 1)
  end.

(** [num / den] rounded to the nearest integer, ties to even. *)
Definition round_div (num den : Z) : Z :=
  let q := num / den in
  let r := num mod den in
  match Z.compare (2 * r) den with
  | Lt => q
  | Gt => q + 1
  | Eq => if Z.even q then q else q + 1
  end.

(** The shortest run of digits [r], of [n] digits at most 17, such that
    [r * 10^(d - n)] reads back as the float [f = num / den]. *)
Fixpoint shortest_digits (fuel : nat) (f : float) (num den d : Z) (n : Z)
  : Z * Z :=
  match fuel with
  | O => (0, n)
  | S fuel' =>
      let r := round_div (num * 10 ^ Z.max (n - d) 0) (den * 10 ^ Z.max (d - n) 0) in
      if PrimFloat.eqb (float_of_decimal false r (d - n)) f then (r, n)
      else shortest_digits fuel' f num den d (n + 1)
  end.

Fixpoint strip_zeros (fuel : nat) (r n : Z) : Z * Z :=
  match fuel with
  | O => (r, n)
  | S fuel' =>
      if Z.eqb (r mod 10) 0 && Z.ltb 1 n then strip_zeros fuel' (r / 10) (n - 1)
      else (r, n)
  end.

Fixpoint zeros (n : nat) : string :=
  match n with
  | O => EmptyString
  | S n' => String "0" (zeros n')
  end.

Fixpoint take (n : nat) (s : string) : string :=
  match n, s with
  | S n', String c r => String c (take n' r)
  | _, _ => EmptyString
  end.

Fixpoint drop (n : nat) (s : string) : string :=
  match n, s with
  | S n', String c r => drop n' r
  | _, _ => s
  end.

(** [repr(f)] for a positive finite float given by its digits [ds] and the
    position [d] of the decimal point: positional notation when
    [-4 < d <= 16], else the exponent notation. *)
Definition format_float (ds : string) (d : Z) : string :=
  let n := Z.of_nat (String.length ds) in
  if Z.ltb (-4) d && Z.leb d 16 then
    if Z.leb d 0 then ("0." ++ zeros (Z.to_nat (- d)) ++ ds)%string
    else if Z.leb n d then (ds ++ zeros (Z.to_nat (d - n)) ++ ".0")%string
    else (take (Z.to_nat d) ds ++ "." ++ drop (Z.to_nat d) ds)%string
  else
    let x := d - 1 in
    let mant :=
      match ds with
      | String c EmptyString => ds
      | String c r => String c (String "." r)
      | EmptyString => ds
      end in
    let xs := str_of_nonneg (Z.abs x) in
    (mant ++ "e" ++ (if Z.ltb x 0 then "-" else "+")
     ++ (if Z.ltb (Z.abs x) 10 then "0" else "") ++ xs)%string.

(** [repr(f)] (and [str(f)]) for a float: the shortest digits that read back
    as [f]. *)
Definition str_of_float (f : float) : string :=
  match Prim2SF f with
  | S754_nan => "nan"
  | S754_infinity s => if s then "-inf" else "inf"
  | S754_zero s => if s then "-0.0" else "0.0"
  | S754_finite s m e =>
      let num := Zpos m * 2 ^ Z.max e 0 in
      let den := 2 ^ Z.max (- e) 0 in
      let d := decimal_point 700 num den (-330) in
      let '(r, n) := shortest_digits 17 (PrimFloat.abs f) num den d 1 in
      let '(d', r') := if Z.eqb r (10 ^ n) then (d + 1, 10 ^ (n - 1)) else (d, r) in
      let '(r'', _) := strip_zeros 17 r' n in
      ((if s then "-" else "") ++ format_float (str_of_nonneg r'') d')%string
  end.

End PyStr.

(** ** [repr], [str] and the type tag of a value *)

Module Render.
Import PyStr.

Definition hex_digit (n : nat) : ascii :=
  if Nat.ltb n 10 then ascii_of_nat (n + 48) else ascii_of_nat (n + 87).

(** [c.isprintable()] on U+0000 .. U+00FF. *)
Definition is_printable (c : ascii) : bool :=
  let n := code c in
  (Nat.leb 32 n && Nat.leb n 126) || (Nat.leb 161 n && negb (Nat.eqb n 173)).

Fixpoint repr_chars (quote : ascii) (s : string) : string :=
  match s with
  | EmptyString => EmptyString
  | String c r =>
      let rest := repr_chars quote r in
      if Ascii.eqb c quote || Ascii.eqb c "\" then String "\" (String c rest)
      else if Nat.eqb (code c) 10 then String "\" (String "n" rest)
      else if Nat.eqb (code c) 13 then String "\" (String "r" rest)
      else if Nat.eqb (code c) 9 then String "\" (String "t" rest)
      else if is_printable c then String c rest
      else
        String "\" (String "x"
          (String (hex_digit (code c / 16)) (String (hex_digit (code c mod 16)) rest)))
  end.

(** [repr(s)] for a string: single quotes, unless the string has a single
    quote and no double quote. *)
Definition repr_str (s : string) : string :=
  let quote : ascii :=
    if mem_char "'" s && negb (mem_char dquote s) then dquote else "'"%char in
  String quote (repr_chars quote s ++ String quote EmptyString)%string.

Fixpoint join (sep : string) (l : list string) : string :=
  match l with
  | [] => EmptyString
  | [x] => x
  | x :: r => (x ++ sep ++ join sep r)%string
  end.

(** [repr(v)] *)
Fixpoint py_repr (v : PyVal) : string :=
  match v with
  | PyNone => "None"
  | PyBool b => if b then "True" else "False"
  | PyInt z => str_of_int z
  | PyFloat f => str_of_float f
  | PyStr s => repr_str s
  | PyList l => ("[" ++ join ", " (map py_repr l) ++ "]")%string
  | PyTuple l =>
      match l with
      | [x] => ("(" ++ py_repr x ++ ",)")%string
      | _ => ("(" ++ join ", " (map py_repr l) ++ ")")%string
      end
  | PyDict d =>
      ("{" ++ join ", "
                (map (fun kv => (repr_str (fst kv) ++ ": " ++ py_repr (snd kv))%string) d)
       ++ "}")%string
  end.

(** The characters of a string in [json.dumps]: all but the printable
    ASCII characters are escaped. *)
Fixpoint json_chars (s : string) : string :=
  match s with
  | EmptyString => EmptyString
  | String c r =>
      let rest := json_chars r in
      let n := code c in
      if Ascii.eqb c dquote || Ascii.eqb c "\" then String "\" (String c rest)
      else if Nat.eqb n 10 then String "\" (String "n" rest)
      else if Nat.eqb n 13 then String "\" (String "r" rest)
      else if Nat.eqb n 9 then String "\" (String "t" rest)
      else if Nat.eqb n 8 then String "\" (String "b" rest)
      else if Nat.eqb n 12 then String "\" (String "f" rest)
      else if Nat.leb 32 n && Nat.leb n 126 then String c rest
      else
        ("\u00" ++ String (hex_digit (n / 16)) (String (hex_digit (n mod 16)) rest))%string
  end.

(** [json.dumps(v)], with the library's defaults. *)
Fixpoint json_dumps (v : PyVal) : string :=
  match v with
  | PyNone => "null"
  | PyBool b => if b then "true" else "false"
  | PyInt z => str_of_int z
  | PyFloat f =>
      match Prim2SF f with
      | S754_nan => "NaN"
      | S754_infinity s => if s then "-Infinity" else "Infinity"
      | _ => str_of_float f
      end
  | PyStr s => String dquote (json_chars s ++ String dquote EmptyString)%string
  | PyList l | PyTuple l => ("[" ++ join ", " (map json_dumps l) ++ "]")%string
  | PyDict d =>
      ("{" ++ join ", "
                (map (fun kv =>
                        (String dquote (json_chars (fst kv))
                         ++ String dquote ": " ++ json_dumps (snd kv))%string) d)
       ++ "}")%string
  end.

(** [str(v)] *)
Definition py_str (v : PyVal) : string :=
  match v with
  | PyStr s => s
  | _ => py_repr v
  end.

(** [type(v).__name__] *)
Definition type_name (v : PyVal) : string :=
  match v with
  | PyNone => "NoneType"
  | PyBool _ => "bool"
  | PyInt _ => "int"
  | PyFloat _ => "float"
  | PyStr _ => "str"
  | PyList _ => "list"
  | PyTuple _ => "tuple"
  | PyDict _ => "dict"
  end.

(** [type(a) == type(b)] *)
Definition same_type (a b : PyVal) : bool :=
  String.eqb (type_name a) (type_name b).

(** [get_basic_type] *)
Definition get_basic_type (value : PyVal) : string :=
  let bare := type_name value in
  match value with
  | PyList (x :: _ as l) | PyTuple (x :: _ as l) =>
      if forallb (same_type x) l
      then (type_name value ++ "/" ++ type_name x)%string
      else bare
  | PyDict ((_, x) :: _ as d) =>
      if forallb (fun kv => same_type x (snd kv)) d
      then ("dict/" ++ type_name x)%string
      else bare
  | _ => bare
  end.

End Render.

(** ** The structured-data decoders the cast relies on

    [json.loads] and [yaml.load] belong to libraries outside the repository.
    They are modelled here by one recursive-descent reader, over the values
    of [PyVal].

    The JSON dialect is the grammar [json.loads] reads: that of RFC 8259
    with [NaN], [Infinity] and [-Infinity], and with the limit of 4300
    digits on an integer.

    The YAML dialect is what PyYAML's safe loader (version 5.1 and later)
    makes of a document that is one flow collection, which is what
    [cast_basic_type] hands it: flow sequences and flow mappings, where a
    comma may come last and a value may be missing after the colon;
    double-quoted scalars with YAML's escapes and single-quoted scalars;
    plain scalars, which the implicit resolvers of YAML 1.1 tag as
    booleans, floats, integers (binary, octal, decimal, hexadecimal and
    base 60, with underscores), nulls, merge and value keys and
    timestamps, any other being a string; comments; spaces and line breaks
    between tokens; the characters the reader refuses.

    What [PyVal] cannot hold is refused: a key that is not a string (a
    merge key as well), a timestamp, a character above U+00FF.  The rest
    of YAML is not modelled and is refused too: anchors, aliases and tags,
    block styles, document markers, keys after [?], a pair without braces
    inside a sequence, a mapping entry without its colon, a scalar that
    runs over several lines, and the limit of 1024 characters on a key,
    which is not refused.  On a document of these kinds the library's
    answer may differ from the reader's; the properties below that are
    stated for every string depend on the decoders only through
    [try ... except]. *)

Module Decode.
Import PyStr.

#[local] Open Scope Z_scope.

Inductive dialect : Type := JSON | YAML.

(** The exception for a text that is not of the dialect. *)
Definition syntax_error (d : dialect) : PyExc :=
  match d with
  | JSON => JSONDecodeError
  | YAML => YAMLError
  end.

(** What a node of a document gives: a value, or the exception raised when
    the value is built.  PyYAML builds the values once the whole document
    is read, and the items of a collection after every collection beside
    it is created: of all the nodes that raise, the one to raise is the
    nearest to the root, and the first of these in the document.  [depth]
    counts the collections between the node that raises and the node the
    result is about. *)
Inductive built (A : Type) : Type :=
| Built (a : A)
| Fails (depth : nat) (e : PyExc).
Arguments Built {A} a.
Arguments Fails {A} depth e.

Definition of_outcome {A} (r : outcome A) : built A :=
  match r with
  | Ok a => Built a
  | Raise e => Fails 0 e
  end.

(** One more item [b] for the collection [acc]. *)
Definition add_item {A B} (put : B -> A -> B) (acc : built B) (b : built A)
  : built B :=
  match acc, b with
  | Built l, Built v => Built (put l v)
  | Built _, Fails depth e => Fails depth e
  | Fails _ _, Built _ => acc
  | Fails depth _, Fails depth' e' =>
      if Nat.ltb depth' depth then Fails depth' e' else acc
  end.

(** The collection, once it has its items. *)
Definition close {A B} (f : A -> B) (acc : built A) : built B :=
  match acc with
  | Built l => Built (f l)
  | Fails depth e => Fails (S depth) e
  end.

(** JSON: the white space between tokens. *)
Definition is_ws (c : ascii) : bool :=
  let n := code c in
  Nat.eqb n 32 || Nat.eqb n 9 || Nat.eqb n 10 || Nat.eqb n 13.

(** YAML: the line breaks. *)
Definition is_break (c : ascii) : bool :=
  let n := code c in
  Nat.eqb n 10 || Nat.eqb n 13 || Nat.eqb n 133.

Definition is_tab (c : ascii) : bool := Nat.eqb (code c) 9.

(** YAML: what lies between tokens: spaces, line breaks, and comments,
    from a [#] to the end of the line.  A tab is not skipped. *)
Fixpoint yaml_skip (comment : bool) (s : string) : string :=
  match s with
  | EmptyString => s
  | String c r =>
      if comment then yaml_skip (negb (is_break c)) r
      else if Ascii.eqb c " " || is_break c then yaml_skip false r
      else if Ascii.eqb c "#" then yaml_skip true r
      else s
  end.

Definition skip_ws (d : dialect) (s : string) : string :=
  match d with
  | JSON => lstrip_with is_ws s
  | YAML => yaml_skip false s
  end.

(** YAML: the characters the reader accepts, on U+0000 .. U+00FF. *)
Definition is_yaml_printable (c : ascii) : bool :=
  let n := code c in
  Nat.eqb n 9 || Nat.eqb n 10 || Nat.eqb n 13 || (Nat.leb 32 n && Nat.leb n 126)
  || Nat.eqb n 133 || Nat.leb 160 n.

Fixpoint every_char (p : ascii -> bool) (s : string) : bool :=
  match s with
  | EmptyString => true
  | String c r => p c && every_char p r
  end.

Fixpoint starts_with (p s : string) : option string :=
  match p, s with
  | EmptyString, _ => Some s
  | String a p', String b s' => if Ascii.eqb a b then starts_with p' s' else None
  | _, _ => None
  end.

Definition hex_value (c : ascii) : option nat :=
  let n := code c in
  if is_digit c then Some (n - 48)%nat
  else if Nat.leb 97 n && Nat.leb n 102 then Some (n - 87)%nat
  else if Nat.leb 65 n && Nat.leb n 70 then Some (n - 55)%nat
  else None.

(** The character that stands after a backslash for one character: the
    code of that character. *)
Definition escape_replacement (d : dialect) (e : ascii) : option nat :=
  let n := code e in
  match d with
  | JSON =>
      if Nat.eqb n 34 then Some 34%nat
      else if Ascii.eqb e "\" then Some 92%nat
      else if Ascii.eqb e "/" then Some 47%nat
      else if Ascii.eqb e "b" then Some 8%nat
      else if Ascii.eqb e "f" then Some 12%nat
      else if Ascii.eqb e "n" then Some 10%nat
      else if Ascii.eqb e "r" then Some 13%nat
      else if Ascii.eqb e "t" then Some 9%nat
      else None
  | YAML =>
      if Ascii.eqb e "0" then Some 0%nat
      else if Ascii.eqb e "a" then Some 7%nat
      else if Ascii.eqb e "b" then Some 8%nat
      else if Ascii.eqb e "t" || Nat.eqb n 9 then Some 9%nat
      else if Ascii.eqb e "n" then Some 10%nat
      else if Ascii.eqb e "v" then Some 11%nat
      else if Ascii.eqb e "f" then Some 12%nat
      else if Ascii.eqb e "r" then Some 13%nat
      else if Ascii.eqb e "e" then Some 27%nat
      else if Ascii.eqb e " " then Some 32%nat
      else if Nat.eqb n 34 then Some 34%nat
      else if Ascii.eqb e "/" then Some 47%nat
      else if Ascii.eqb e "\" then Some 92%nat
      else if Ascii.eqb e "N" then Some 133%nat
      else if Ascii.eqb e "_" then Some 160%nat
      else None
  end.

(** The character that stands after a backslash for a code in
    hexadecimal: the number of digits of the code. *)
Definition escape_code (d : dialect) (e : ascii) : option nat :=
  match d with
  | JSON => if Ascii.eqb e "u" then Some 4%nat else None
  | YAML =>
      if Ascii.eqb e "x" then Some 2%nat
      else if Ascii.eqb e "u" then Some 4%nat
      else if Ascii.eqb e "U" then Some 8%nat
      else None
  end.

(** Where the reader is inside a double-quoted scalar: at a character,
    after a backslash, or in the digits of a code, [remaining] of them to
    come after the value [acc]. *)
Inductive quoted_state : Type :=
| AtChar
| AfterBackslash
| InCode (remaining : nat) (acc : Z).

(** The characters after the opening double quote, up to the closing one.
    JSON refuses a control character written as it is; in YAML a line
    break would fold the scalar, which the model leaves out. *)
Fixpoint read_dquoted (d : dialect) (st : quoted_state) (s : string)
  : option (string * string) :=
  match s with
  | EmptyString => None
  | String c r =>
      let emit (x : ascii) :=
        match read_dquoted d AtChar r with
        | Some (t, rest) => Some (String x t, rest)
        | None => None
        end in
      match st with
      | AtChar =>
          if Ascii.eqb c dquote then Some (EmptyString, r)
          else if Ascii.eqb c "\" then read_dquoted d AfterBackslash r
          else
            match d with
            | JSON => if Nat.ltb (code c) 32 then None else emit c
            | YAML => if is_break c then None else emit c
            end
      | AfterBackslash =>
          match escape_replacement d c, escape_code d c with
          | Some x, _ => emit (ascii_of_nat x)
          | None, Some n => read_dquoted d (InCode n 0) r
          | None, None => None
          end
      | InCode remaining acc =>
          match hex_value c, remaining with
          | Some x, 1%nat =>
              let n := 16 * acc + Z.of_nat x in
              if Z.leb n 255 then emit (ascii_of_nat (Z.to_nat n)) else None
          | Some x, S remaining' =>
              read_dquoted d (InCode remaining' (16 * acc + Z.of_nat x)) r
          | _, _ => None
          end
      end
  end.

(** YAML: the characters after the opening single quote; two single quotes
    stand for one.  As in [read_dquoted], a line break is left out. *)
Fixpoint read_squoted (s : string) : option (string * string) :=
  match s with
  | EmptyString => None
  | String c r =>
      if Ascii.eqb c "'" then
        match r with
        | String "'" r' =>
            match read_squoted r' with
            | Some (t, rest) => Some (String c t, rest)
            | None => None
            end
        | _ => Some (EmptyString, r)
        end
      else if is_break c then None
      else
        match read_squoted r with
        | Some (t, rest) => Some (String c t, rest)
        | None => None
        end
  end.

(** A run of decimal digits. *)
Fixpoint read_plain_digits (s : string) (acc : Z) (count : nat) : Z * nat * string :=
  match s with
  | String c r =>
      if is_digit c then read_plain_digits r (10 * acc + digit_value c) (S count)
      else (acc, count, s)
  | EmptyString => (acc, count, s)
  end.

(** A JSON number: an optional minus sign, an integer part without leading
    zero, an optional fraction and an optional exponent; an [int] without
    fraction and exponent, of 4300 digits at most, else a [float]. *)
Definition read_number (s : string) : outcome (PyVal * string) :=
  let '(neg, r) := match s with String "-" r => (true, r) | _ => (false, s) end in
  let '(ip, ni, r1) :=
    match r with
    | String "0" r' => (0, 1%nat, r')
    | _ => read_plain_digits r 0 0
    end in
  match ni with
  | O => Raise JSONDecodeError
  | S _ =>
      let '(m, nf, r2, has_frac) :=
        match r1 with
        | String "." r1' =>
            match read_plain_digits r1' ip 0 with
            | (_, O, _) => (ip, 0%nat, r1, false)
            | (m, nf, r2) => (m, nf, r2, true)
            end
        | _ => (ip, 0%nat, r1, false)
        end in
      let exponent :=
        match r2 with
        | String c r3 =>
            if Ascii.eqb c "e" || Ascii.eqb c "E" then
              let '(eneg, r4) :=
                match r3 with
                | String "-" r4 => (true, r4)
                | String "+" r4 => (false, r4)
                | _ => (false, r3)
                end in
              match read_plain_digits r4 0 0 with
              | (_, O, _) => None
              | (x, _, r5) => Some (if eneg then - x else x, r5)
              end
            else None
        | EmptyString => None
        end in
      match exponent with
      | Some (x, r5) => Ok (PyFloat (float_of_decimal neg m (x - Z.of_nat nf)), r5)
      | None =>
          if has_frac then Ok (PyFloat (float_of_decimal neg m (- Z.of_nat nf)), r2)
          else if Z.ltb int_max_str_digits (Z.of_nat ni) then int_limit_error
          else Ok (PyInt (if neg then - ip else ip), r2)
      end
  end.

(** *** The implicit resolvers of YAML 1.1 *)

(** Regular expressions, as far as the resolvers need them, matched
    against a whole string by derivatives. *)
Inductive regex : Type :=
| Nul
| Eps
| Chars (set : string)
| Seq (r1 r2 : regex)
| Alt (r1 r2 : regex)
| Star (r : regex).

Fixpoint nullable (r : regex) : bool :=
  match r with
  | Nul | Chars _ => false
  | Eps | Star _ => true
  | Seq r1 r2 => nullable r1 && nullable r2
  | Alt r1 r2 => nullable r1 || nullable r2
  end.

Definition seq (r1 r2 : regex) : regex :=
  match r1, r2 with
  | Nul, _ | _, Nul => Nul
  | Eps, _ => r2
  | _, Eps => r1
  | _, _ => Seq r1 r2
  end.

Definition alt (r1 r2 : regex) : regex :=
  match r1, r2 with
  | Nul, _ => r2
  | _, Nul => r1
  | _, _ => Alt r1 r2
  end.

(** What [r] has to match after the character [c]. *)
Fixpoint deriv (c : ascii) (r : regex) : regex :=
  match r with
  | Nul | Eps => Nul
  | Chars set => if mem_char c set then Eps else Nul
  | Seq r1 r2 =>
      let d1 := seq (deriv c r1) r2 in
      if nullable r1 then alt d1 (deriv c r2) else d1
  | Alt r1 r2 => alt (deriv c r1) (deriv c r2)
  | Star r1 => seq (deriv c r1) (Star r1)
  end.

(** [re.match] with a pattern between [^] and [$]. *)
Fixpoint matches (r : regex) (s : string) : bool :=
  match s with
  | EmptyString => nullable r
  | String c s' => matches (deriv c r) s'
  end.

Definition opt (r : regex) : regex := Alt Eps r.
Definition plus (r : regex) : regex := Seq r (Star r).
Definition seqs (l : list regex) : regex := fold_right Seq Eps l.
Definition alts (l : list regex) : regex := fold_right Alt Nul l.

Fixpoint lit (s : string) : regex :=
  match s with
  | EmptyString => Eps
  | String c r => Seq (Chars (String c EmptyString)) (lit r)
  end.

Definition digit : regex := Chars "0123456789".
Definition digit_ : regex := Chars "0123456789_".
Definition sign : regex := opt (Chars "-+").
Definition blank : regex := Chars (String " " (String (ascii_of_nat 9) EmptyString)).

(** [(?:[eE][-+][0-9]+)?] *)
Definition exponent : regex := opt (seqs [Chars "eE"; Chars "-+"; plus digit]).

(** [(?::[0-5]?[0-9])+] *)
Definition base60 : regex := plus (seqs [lit ":"; opt (Chars "012345"); digit]).

Definition bool_re : regex :=
  alts (map lit ["yes"; "Yes"; "YES"; "no"; "No"; "NO"; "true"; "True"; "TRUE";
                 "false"; "False"; "FALSE"; "on"; "On"; "ON"; "off"; "Off"; "OFF"]).

Definition float_re : regex :=
  alts [seqs [sign; digit; Star digit_; lit "."; Star digit_; exponent];
        seqs [lit "."; digit; Star digit_; exponent];
        seqs [sign; digit; Star digit_; base60; lit "."; Star digit_];
        seqs [sign; lit "."; alts [lit "inf"; lit "Inf"; lit "INF"]];
        seqs [lit "."; alts [lit "nan"; lit "NaN"; lit "NAN"]]].

Definition int_re : regex :=
  alts [seqs [sign; lit "0b"; plus (Chars "01_")];
        seqs [sign; lit "0"; plus (Chars "01234567_")];
        seqs [sign; alts [lit "0"; seqs [Chars "123456789"; Star digit_]]];
        seqs [sign; lit "0x"; plus (Chars "0123456789abcdefABCDEF_")];
        seqs [sign; Chars "123456789"; Star digit_; base60]].

Definition merge_re : regex := lit "<<".

Definition null_re : regex := alts [lit "~"; lit "null"; lit "Null"; lit "NULL"; Eps].

Definition timestamp_re : regex :=
  alts [seqs [digit; digit; digit; digit; lit "-"; digit; digit; lit "-"; digit; digit];
        seqs [digit; digit; digit; digit; lit "-"; digit; opt digit; lit "-";
              digit; opt digit; alts [Chars "Tt"; plus blank];
              digit; opt digit; lit ":"; digit; digit; lit ":"; digit; digit;
              opt (seqs [lit "."; Star digit]);
              opt (seqs [Star blank;
                         alts [lit "Z";
                               seqs [Chars "-+"; digit; opt digit;
                                     opt (seqs [lit ":"; digit; digit])]]])]].

Definition value_re : regex := lit "=".

Inductive tag : Type :=
| TagBool | TagFloat | TagInt | TagMerge | TagNull | TagTimestamp | TagValue | TagStr.

(** The resolvers, in the order the library tries them.  (The library
    finds them by the first character of the scalar; each pattern starts
    with one of the characters it is filed under.) *)
Definition implicit_resolvers : list (tag * regex) :=
  [(TagBool, bool_re); (TagFloat, float_re); (TagInt, int_re); (TagMerge, merge_re);
   (TagNull, null_re); (TagTimestamp, timestamp_re); (TagValue, value_re)].

(** The tag of a plain scalar. *)
Definition resolve (value : string) : tag :=
  match List.find (fun tr => matches (snd tr) value) implicit_resolvers with
  | Some (t, _) => t
  | None => TagStr
  end.

(** *** The constructors of the safe loader *)

(** [s.replace(c, '')] *)
Fixpoint remove_char (c : ascii) (s : string) : string :=
  match s with
  | EmptyString => EmptyString
  | String a r => if Ascii.eqb a c then remove_char c r else String a (remove_char c r)
  end.

Fixpoint base_digits (base : Z) (s : string) (acc : Z) : option Z :=
  match s with
  | EmptyString => Some acc
  | String c r =>
      match hex_value c with
      | Some x =>
          if Z.ltb (Z.of_nat x) base then base_digits base r (base * acc + Z.of_nat x)
          else None
      | None => None
      end
  end.

(** [int(s, base)] for a base of 2, 8 or 16 and a string of digits, as the
    resolver leaves it: without sign, prefix, space or underscore.  These
    bases have no limit on the digits. *)
Definition int_of_digits (base : Z) (s : string) : outcome Z :=
  match s, base_digits base s 0 with
  | String _ _, Some n => Ok n
  | _, _ =>
      Raise (ValueError ("invalid literal for int() with base " ++ str_of_nonneg base)%string)
  end.

Fixpoint traverse {A B} (f : A -> outcome B) (l : list A) : outcome (list B) :=
  match l with
  | [] => Ok []
  | x :: r => bind (f x) (fun y => bind (traverse f r) (fun ys => Ok (y :: ys)))
  end.

(** [sign*v], for [sign] of [1] or [-1]. *)
Definition times_sign (neg : bool) (v : PyVal) : PyVal :=
  match v with
  | PyInt n => PyInt (if neg then - n else n)
  | PyFloat f => PyFloat (PrimFloat.mul (if neg then PrimFloat.opp one else one) f)
  | _ => v
  end.

(** The loop of the base 60 notation, on the parts in reverse order:
    [value += digit*base; base *= 60]. *)
Definition base60_int (digits : list PyVal) : PyVal :=
  PyInt (fst (fold_left
                (fun '(value, base) digit =>
                   match digit with
                   | PyInt n => (value + n * base, base * 60)
                   | _ => (value, base * 60)
                   end)
                (rev digits) (0, 1))).

(** [float(base)] for an [int]. *)
Definition float_of_int (z : Z) : outcome float :=
  let f := float_of_decimal (Z.ltb z 0) (Z.abs z) 0 in
  match Prim2SF f with
  | S754_infinity _ => Raise OverflowError
  | _ => Ok f
  end.

Definition base60_float (digits : list PyVal) : outcome PyVal :=
  bind
    (fold_left
       (fun acc digit =>
          bind acc (fun '(value, base) =>
            bind (float_of_int base) (fun b =>
              match digit with
              | PyFloat f => Ok (PrimFloat.add value (PrimFloat.mul f b), base * 60)
              | _ => Ok (value, base * 60)
              end)))
       (rev digits) (Ok (zero, 1)))
    (fun '(value, _) => Ok (PyFloat value)).

(** [construct_yaml_int] *)
Definition construct_yaml_int (value : string) : outcome PyVal :=
  let value := remove_char "_" value in
  let '(neg, value) := read_sign value in
  let signed (r : outcome Z) := bind r (fun n => Ok (times_sign neg (PyInt n))) in
  if String.eqb value "0" then Ok (PyInt 0)
  else
    match starts_with "0b" value, starts_with "0x" value, value with
    | Some digits, _, _ => signed (int_of_digits 2 digits)
    | _, Some digits, _ => signed (int_of_digits 16 digits)
    | _, _, String "0" _ => signed (int_of_digits 8 value)
    | _, _, _ =>
        if mem_char ":" value then
          bind (traverse int_of_str (split ":" value))
            (fun digits => Ok (times_sign neg (base60_int digits)))
        else bind (int_of_str value) (fun n => Ok (times_sign neg n))
    end.

(** [construct_yaml_float] *)
Definition construct_yaml_float (value : string) : outcome PyVal :=
  let value := lower (remove_char "_" value) in
  let '(neg, value) := read_sign value in
  if String.eqb value ".inf" then Ok (times_sign neg (PyFloat infinity))
  else if String.eqb value ".nan" then Ok (PyFloat nan)
  else if mem_char ":" value then
    bind (traverse float_of_str (split ":" value))
      (fun digits => bind (base60_float digits) (fun v => Ok (times_sign neg v)))
  else bind (float_of_str value) (fun v => Ok (times_sign neg v)).

(** [construct_yaml_bool]: the table [bool_values] at the scalar in lower
    case. *)
Definition construct_yaml_bool (value : string) : PyVal :=
  PyBool (existsb (String.eqb (lower value)) ["yes"; "true"; "on"]).

(** The value of a plain scalar.  The safe loader has no constructor for
    the tags of [<<] and [=] outside a key, and raises; a timestamp
    becomes a [date] or a [datetime], which [PyVal] does not have. *)
Definition construct_plain (value : string) : built PyVal :=
  match resolve value with
  | TagBool => Built (construct_yaml_bool value)
  | TagFloat => of_outcome (construct_yaml_float value)
  | TagInt => of_outcome (construct_yaml_int value)
  | TagNull => Built PyNone
  | TagStr => Built (PyStr value)
  | TagMerge | TagValue | TagTimestamp => Fails 0 YAMLError
  end.

(** *** The reader *)

(** YAML: a plain scalar inside a flow collection, with the spaces that
    follow it, and what comes next.  It stops at a flow indicator, at a
    colon before a space, a flow indicator or the end, at a [#] after a
    space, at a tab and at a line break. *)
Fixpoint read_plain (after_space : bool) (s : string) : string * string :=
  match s with
  | EmptyString => (EmptyString, s)
  | String c r =>
      let more := let '(t, rest) := read_plain (Ascii.eqb c " ") r in (String c t, rest) in
      if mem_char c ",?[]{}" || is_tab c || is_break c then (EmptyString, s)
      else if Ascii.eqb c "#" && after_space then (EmptyString, s)
      else if Ascii.eqb c ":" then
        match r with
        | EmptyString => (EmptyString, s)
        | String d _ =>
            if Ascii.eqb d " " || is_tab d || is_break d || mem_char d ",[]{}"
            then (EmptyString, s)
            else more
        end
      else more
  end.

(** YAML: the plain scalar at the head of [s], without the spaces after
    it.  No plain scalar starts with an indicator, nor with a [-] before
    a space or the end. *)
Definition read_scalar (s : string) : option (string * string) :=
  match s with
  | EmptyString => None
  | String c r =>
      if mem_char c ",[]{}?:#&*!|>%@`" || is_tab c then None
      else if Ascii.eqb c "-"
              && match r with
                 | EmptyString => true
                 | String d _ => Ascii.eqb d " " || is_tab d || is_break d
                 end
      then None
      else
        let '(t, rest) := read_plain false s in
        Some (rstrip_with (Ascii.eqb " ") t, rest)
  end.

(** The key of a mapping entry, up to and including its colon. *)
Definition read_key (d : dialect) (s : string) : option (string * string) :=
  let colon (kr : option (string * string)) :=
    match kr with
    | Some (k, r) =>
        match skip_ws d r with
        | String ":" r' => Some (k, r')
        | _ => None
        end
    | None => None
    end in
  match s with
  | String c r =>
      if Ascii.eqb c dquote then colon (read_dquoted d AtChar r)
      else
        match d with
        | JSON => None
        | YAML =>
            if Ascii.eqb c "'" then colon (read_squoted r)
            else
              match read_scalar s with
              | Some (k, String ":" r') =>
                  match resolve k with
                  | TagStr => Some (k, r')
                  | _ => None
                  end
              | _ => None
              end
        end
  | EmptyString => None
  end.

(** One value at the head of [s], and what follows it. *)
Fixpoint read_value (d : dialect) (fuel : nat) (s : string) {struct fuel}
  : outcome (built PyVal * string) :=
  let bad := Raise (syntax_error d) in
  match fuel with
  | O => bad
  | S fuel' =>
      let fix elements (n : nat) (s : string) (acc : built (list PyVal)) {struct n}
        : outcome (built PyVal * string) :=
        match n with
        | O => bad
        | S n' =>
            match read_value d fuel' (skip_ws d s) with
            | Ok (b, r) =>
                let acc := add_item (fun l v => l ++ [v]) acc b in
                match skip_ws d r with
                | String "," r' =>
                    match d, skip_ws d r' with
                    | YAML, String "]" r'' => Ok (close PyList acc, r'')
                    | _, _ => elements n' r' acc
                    end
                | String "]" r' => Ok (close PyList acc, r')
                | _ => bad
                end
            | Raise e => Raise e
            end
        end in
      let fix members (n : nat) (s : string) (acc : built (dict PyVal)) {struct n}
        : outcome (built PyVal * string) :=
        match n with
        | O => bad
        | S n' =>
            match read_key d (skip_ws d s) with
            | Some (k, r) =>
                let r0 := skip_ws d r in
                let empty :=
                  match d, r0 with
                  | YAML, String c _ => mem_char c ",}"
                  | _, _ => false
                  end in
                match (if empty then Ok (Built PyNone, r0) else read_value d fuel' r0) with
                | Ok (b, r1) =>
                    let acc := add_item (fun m v => dict_set m k v) acc b in
                    match skip_ws d r1 with
                    | String "," r' =>
                        match d, skip_ws d r' with
                        | YAML, String "}" r'' => Ok (close PyDict acc, r'')
                        | _, _ => members n' r' acc
                        end
                    | String "}" r' => Ok (close PyDict acc, r')
                    | _ => bad
                    end
                | Raise e => Raise e
                end
            | None => bad
            end
        end in
      let quoted (tr : option (string * string)) :=
        match tr with
        | Some (t, rest) => Ok (Built (PyStr t), rest)
        | None => bad
        end in
      match s with
      | String "[" r =>
          match skip_ws d r with
          | String "]" r' => Ok (Built (PyList []), r')
          | _ => elements fuel' r (Built [])
          end
      | String "{" r =>
          match skip_ws d r with
          | String "}" r' => Ok (Built (PyDict []), r')
          | _ => members fuel' r (Built [])
          end
      | String c r =>
          if Ascii.eqb c dquote then quoted (read_dquoted d AtChar r)
          else
            match d with
            | JSON =>
                match starts_with "null" s, starts_with "true" s, starts_with "false" s with
                | Some r', _, _ => Ok (Built PyNone, r')
                | _, Some r', _ => Ok (Built (PyBool true), r')
                | _, _, Some r' => Ok (Built (PyBool false), r')
                | _, _, _ =>
                    match starts_with "NaN" s, starts_with "Infinity" s,
                          starts_with "-Infinity" s with
                    | Some r', _, _ => Ok (Built (PyFloat nan), r')
                    | _, Some r', _ => Ok (Built (PyFloat infinity), r')
                    | _, _, Some r' => Ok (Built (PyFloat neg_infinity), r')
                    | _, _, _ =>
                        match read_number s with
                        | Ok (v, r') => Ok (Built v, r')
                        | Raise e => Raise e
                        end
                    end
                end
            | YAML =>
                if Ascii.eqb c "'" then quoted (read_squoted r)
                else
                  match read_scalar s with
                  | Some (t, rest) => Ok (construct_plain t, rest)
                  | None => bad
                  end
            end
      | EmptyString => bad
      end
  end.

(** A document: one value and nothing after it. *)
Definition read_document (d : dialect) (s : string) : outcome PyVal :=
  match read_value d (S (String.length s)) (skip_ws d s) with
  | Ok (b, r) =>
      match skip_ws d r, b with
      | EmptyString, Built v => Ok v
      | EmptyString, Fails _ e => Raise e
      | _, _ => Raise (syntax_error d)
      end
  | Raise e => Raise e
  end.

(** [json.loads(s)] *)
Definition json_loads (s : string) : outcome PyVal := read_document JSON s.

(** [yaml.load(s, Loader=yaml.SafeLoader)]: the reader refuses a character
    that is not printable before it reads anything, and an empty document
    is [None]. *)
Definition yaml_load (s : string) : outcome PyVal :=
  if negb (every_char is_yaml_printable s) then Raise YAMLError
  else
    match skip_ws YAML s with
    | EmptyString => Ok PyNone
    | _ => read_document YAML s
    end.

End Decode.

(** ** Casting a string to a basic type *)

Module Cast.
Import PyStr Render Decode.

(** [convert_bool] *)
Definition convert_bool (s : string) : outcome PyVal :=
  let s := lower (strip s) in
  if String.eqb s "true" then Ok (PyBool true)
  else if String.eqb s "false" || String.eqb s "" then Ok (PyBool false)
  else Raise (ValueError ("Invalid value (boolean literal expected): " ++ s)%string).

Fixpoint chars (s : string) : list PyVal :=
  match s with
  | EmptyString => []
  | String c r => PyStr (String c EmptyString) :: chars r
  end.

(** The items [iter(v)] yields. *)
Definition py_iter (v : PyVal) : outcome (list PyVal) :=
  match v with
  | PyList l | PyTuple l => Ok l
  | PyStr s => Ok (chars s)
  | PyDict d => Ok (map (fun kv => PyStr (fst kv)) d)
  | _ => Raise TypeError
  end.

(** [list(v)] and [tuple(v)] *)
Definition py_list (v : PyVal) : outcome PyVal :=
  bind (py_iter v) (fun l => Ok (PyList l)).
Definition py_tuple (v : PyVal) : outcome PyVal :=
  bind (py_iter v) (fun l => Ok (PyTuple l)).

(** [dict(v)]: a copy of a mapping, or the mapping built from an iterable of
    key-value pairs, each of them an iterable of two items.  A key that is
    not a string has no counterpart in the model and is refused. *)
Definition py_dict (v : PyVal) : outcome PyVal :=
  match v with
  | PyDict d => Ok (PyDict d)
  | _ =>
      bind (py_iter v) (fun items =>
        bind
          (fold_left
             (fun acc item =>
                bind acc (fun d =>
                  bind (py_iter item) (fun pair =>
                    match pair with
                    | [PyStr k; x] => Ok (dict_set d k x)
                    | [_; _] => Raise TypeError
                    | _ =>
                        Raise (ValueError
                                 "dictionary update sequence element has the wrong length")
                    end)))
             items (Ok []))
          (fun d => Ok (PyDict d)))
  end.

(** [int(v)] *)
Definition py_int (v : PyVal) : outcome PyVal :=
  match v with
  | PyStr s => int_of_str s
  | PyInt z => Ok (PyInt z)
  | PyBool b => Ok (PyInt (Z.b2z b))
  | PyFloat f =>
      match Prim2SF f with
      | S754_zero _ => Ok (PyInt 0)
      | S754_finite s m e =>
          let a := if Z.leb 0 e then (Zpos m * 2 ^ e)%Z else (Zpos m / 2 ^ (- e))%Z in
          Ok (PyInt (if s then (- a)%Z else a))
      | S754_infinity _ => Raise (ValueError "cannot convert float infinity to integer")
      | S754_nan => Raise (ValueError "cannot convert float NaN to integer")
      end
  | _ => Raise TypeError
  end.

(** [float(v)] *)
Definition py_float (v : PyVal) : outcome PyVal :=
  match v with
  | PyStr s => float_of_str s
  | PyFloat f => Ok (PyFloat f)
  | PyInt z => bind (float_of_int z) (fun f => Ok (PyFloat f))
  | PyBool b => Ok (PyFloat (if b then one else zero))
  | _ => Raise TypeError
  end.

(** The table [basic_types] of [cast_basic_type]: the constructors by name,
    with [convert_bool] for ["bool"]. *)
Definition basic_types (name : string) : option (PyVal -> outcome PyVal) :=
  if String.eqb name "float" then Some py_float
  else if String.eqb name "int" then Some py_int
  else if String.eqb name "str" then Some (fun v => Ok (PyStr (py_str v)))
  else if String.eqb name "list" then Some py_list
  else if String.eqb name "tuple" then Some py_tuple
  else if String.eqb name "dict" then Some py_dict
  else if String.eqb name "bool" then
    Some (fun v => match v with
                   | PyStr s => convert_bool s
                   | _ => Raise AttributeError
                   end)
  else None.

(** Calling what [basic_types.get(name)] returns. *)
Definition call_basic_type (name : string) (v : PyVal) : outcome PyVal :=
  match basic_types name with
  | Some t => t v
  | None => Raise TypeError
  end.

(** [cast_basic_type], on a string [value].  The warning the last fallback
    logs is not part of the model. *)
Definition cast_basic_type (value : string) (type_str : string) : outcome PyVal :=
  if String.eqb type_str "" then
    if String.eqb value "" then Ok PyNone else Ok (PyStr value)
  else
    let parts := split "/" type_str in
    let parts0 := hd EmptyString parts in
    if existsb (String.eqb parts0) ["list"; "tuple"; "dict"] then
      try_except
        (bind (json_loads value) (call_basic_type parts0))
        (try_except
           (let v := ("[" ++ rstrip (lstrip value "[(") "])" ++ "]")%string in
            bind (yaml_load v) (call_basic_type parts0))
           (Ok (PyStr value)))
    else
      match basic_types (strip (lower type_str)) with
      | Some t => try_except (t (PyStr value)) (Ok (PyStr value))
      | None => Ok (PyStr value)
      end.

(** The six values of the spec's cast example. *)
Definition cast_samples : list PyVal :=
  [PyBool true; PyInt 42; PyFloat 0x1.91eb851eb851fp+1; PyStr "x";
   PyList [PyInt 1; PyInt 2; PyInt 3];
   PyDict [("a", PyInt 1); ("b", PyInt 2)]].

End Cast.
(** ** Deferred-value handles: [WrapperBase], [LazyEvalWrapper] and the
       typed variant *)

Module Lazy.

(** A producer is a zero-argument callable; it may keep state of its own, so
    it is given by the outcomes of its successive calls: [p n] is what call
    number [n] (from [0]) returns or raises. *)
Definition producer : Type := nat -> outcome PyVal.

(** A declared class: its name, and the attributes [hasattr] finds on it. *)
Record pyclass : Type := {
  class_name : string;
  class_has : string -> bool
}.

(** An instance of [LazyEvalWrapper] ([_base_class_ = None]) or of a class
    made by [lazy_eval_wrapper_spec_class] ([_base_class_ = Some T]).  The
    slots are the ones of the source; [calls] and [seen] are instrumentation:
    the number of times this handle called [_callback], and the objects it
    has picked as the target of a forwarded operation, oldest first. *)
Record handle : Type := {
  _wrapped : PyVal;
  _callback : producer;
  _remote_reference : option nat;
  _base_class_ : option pyclass;
  calls : nat;
  seen : list PyVal
}.

(** The store: the handles by identity, and the class attribute
    [LazyEvalWrapper._remote_reference_calls]. *)
Record world : Type := {
  handles : list handle;
  _remote_reference_calls : list nat
}.

Definition set_handle (self : nat) (h : handle) (w : world) : world :=
  {| handles := <[self := h]> (handles w);
     _remote_reference_calls := _remote_reference_calls w |}.

(** The handle [h] with the targets [s] noted, after one more call of its
    producer, and with [obj] stored. *)
Definition with_seen (h : handle) (s : list PyVal) : handle :=
  {| _wrapped := _wrapped h; _callback := _callback h;
     _remote_reference := _remote_reference h;
     _base_class_ := _base_class_ h; calls := calls h; seen := s |}.

Definition with_call (h : handle) : handle :=
  {| _wrapped := _wrapped h; _callback := _callback h;
     _remote_reference := _remote_reference h;
     _base_class_ := _base_class_ h; calls := S (calls h); seen := seen h |}.

Definition with_wrapped (h : handle) (obj : PyVal) : handle :=
  {| _wrapped := obj; _callback := _callback h;
     _remote_reference := _remote_reference h;
     _base_class_ := _base_class_ h; calls := calls h; seen := seen h |}.

(** Computations on the store that may raise; a raise keeps the store as it
    is at that point. *)
Definition M (A : Type) : Type := world -> world * outcome A.

Definition ret {A} (a : A) : M A := fun w => (w, Ok a).
Definition raise {A} (e : PyExc) : M A := fun w => (w, Raise e).
Definition bindM {A B} (m : M A) (k : A -> M B) : M B :=
  fun w =>
    match m w with
    | (w', Ok a) => k a w'
    | (w', Raise e) => (w', Raise e)
    end.
Definition lift {A} (o : outcome A) : M A := fun w => (w, o).

(** [try: m except: pass] *)
Definition try_pass {A} (m : M A) : M unit :=
  fun w => (fst (m w), Ok tt).

Declare Scope lazy_scope.
Delimit Scope lazy_scope with lazy.
Notation "'let!' x ':=' m 'in' k" := (bindM m (fun x => k))
  (at level 10, x name, m at level 100, k at level 200) : lazy_scope.
Notation "'run!' m 'in' k" := (bindM m (fun _ => k))
  (at level 10, m at level 100, k at level 200) : lazy_scope.
#[local] Open Scope lazy_scope.

Definition get_handle (self : nat) : M handle :=
  fun w =>
    match handles w !! self with
    | Some h => (w, Ok h)
    | None => (w, Raise AttributeError)
    end.

Definition is_None (v : PyVal) : bool :=
  match v with
  | PyNone => true
  | _ => false
  end.

(** [cb()] through the handle, counted. *)
Definition call_callback (self : nat) : M PyVal :=
  fun w =>
    match handles w !! self with
    | Some h =>
        (set_handle self (with_call h) w, _callback h (calls h))
    | None => (w, Raise AttributeError)
    end.

(** [object.__setattr__(self, "_wrapped", obj)] *)
Definition set_wrapped (self : nat) (obj : PyVal) : M unit :=
  fun w =>
    match handles w !! self with
    | Some h =>
        (set_handle self (with_wrapped h obj) w, Ok tt)
    | None => (w, Raise AttributeError)
    end.

(** Instrumentation: the handle has picked [obj] as the object the current
    operation is forwarded to. *)
Definition note_forward (self : nat) (obj : PyVal) : M unit :=
  fun w =>
    match handles w !! self with
    | Some h =>
        (set_handle self (with_seen h (seen h ++ [obj])) w, Ok tt)
    | None => (w, Raise AttributeError)
    end.

(** [LazyEvalWrapper._load_object] *)
Definition _load_object (self : nat) : M PyVal :=
  let! h := get_handle self in
  let obj := _wrapped h in
  if is_None obj then
    let! obj := call_callback self in
    run! set_wrapped self obj in
    ret obj
  else ret obj.

(** [LazyEvalWrapper.__init__] *)
Definition init (callback : producer) (remote_reference : option nat)
  : M nat :=
  fun w =>
    let self := length (handles w) in
    ({| handles :=
          handles w ++
          [{| _wrapped := PyNone; _callback := callback;
              _remote_reference := remote_reference;
              _base_class_ := None; calls := 0; seen := [] |}];
        _remote_reference_calls :=
          match remote_reference with
          | Some f => _remote_reference_calls w ++ [f]
          | None => _remote_reference_calls w
          end |},
     Ok self).

(** [TypedLazyEvalWrapper.__init__] of the class made by
    [lazy_eval_wrapper_spec_class(class_type)] *)
Definition typed_init (class_type : pyclass) (callback : producer) : M nat :=
  fun w =>
    let self := length (handles w) in
    ({| handles :=
          handles w ++
          [{| _wrapped := PyNone; _callback := callback;
              _remote_reference := None;
              _base_class_ := Some class_type; calls := 0; seen := [] |}];
        _remote_reference_calls := _remote_reference_calls w |},
     Ok self).

(** What [__getattribute__] can hand back: a value of the resolved object, or
    one of the wrapper's own attributes. *)
Inductive attribute : Type :=
| AttrValue (v : PyVal)
| AttrRemoteReference (f : option nat)
| AttrRemoterefMethod
| AttrClass (c : pyclass).

(** The arguments of a call of a special method: plain values, or the one
    case [make_method] singles out, a single argument that is a handle. *)
Inductive call_args : Type :=
| Args (vs : list PyVal)
| ArgHandle (a : nat).

(** [WrapperBase._special_names] *)
Definition _special_names : list string :=
  [
    "__abs__"; "__add__"; "__and__"; "__call__"; "__cmp__"; "__coerce__";
    "__contains__"; "__delitem__"; "__delslice__"; "__div__"; "__divmod__";
    "__eq__"; "__float__"; "__floordiv__"; "__ge__"; "__getitem__";
    "__getslice__"; "__gt__"; "__hash__"; "__hex__"; "__iadd__"; "__iand__";
    "__idiv__"; "__idivmod__"; "__ifloordiv__"; "__ilshift__"; "__imod__";
    "__imul__"; "__int__"; "__invert__"; "__ior__"; "__ipow__";
    "__irshift__"; "__isub__"; "__iter__"; "__itruediv__"; "__ixor__";
    "__le__"; "__len__"; "__long__"; "__lshift__"; "__lt__"; "__mod__";
    "__mul__"; "__ne__"; "__neg__"; "__oct__"; "__or__"; "__pos__";
    "__pow__"; "__radd__"; "__rand__"; "__rdiv__"; "__rdivmod__";
    "__reduce__"; "__reduce_ex__"; "__repr__"; "__reversed__";
    "__rfloorfiv__"; "__rlshift__"; "__rmod__"; "__rmul__"; "__ror__";
    "__rpow__"; "__rrshift__"; "__rshift__"; "__rsub__"; "__rtruediv__";
    "__rxor__"; "__setitem__"; "__setslice__"; "__sub__"; "__truediv__";
    "__xor__"; "next"; "__str__"; "__repr__"; "__round__"; "__fspath__";
    "__bytes__"; "__index__"
  ].

Section Operations.

(** The wrapped objects' own behaviour: calling [getattr(obj, name)] on the arguments,
    [getattr(obj, attr)], [setattr(obj, attr, value)] and
    [delattr(obj, attr)]. *)
Variable py_call : PyVal -> string -> list PyVal -> outcome PyVal.
Variable py_getattr : PyVal -> string -> outcome PyVal.
Variable py_setattr : PyVal -> string -> PyVal -> outcome PyVal.
Variable py_delattr : PyVal -> string -> outcome PyVal.

(** Whether the metaclass gave the handle's class the special method
    [name]: for the names of [_special_names],
    [not typed_class or hasattr(typed_class, name)]. *)
Definition injected (h : handle) (name : string) : bool :=
  existsb (String.eqb name) _special_names
  && match _base_class_ h with
     | None => true
     | Some typed_class => class_has typed_class name
     end.

(** The method [make_method(name)] builds, called with no handle among its
    arguments. *)
Definition method_plain (name : string) (self : nat) (args : list PyVal)
  : M PyVal :=
  let! h := get_handle self in
  let obj := _wrapped h in
  let! obj := (if is_None obj then
            let! obj := call_callback self in
            run! set_wrapped self obj in
            ret obj
          else ret obj) in
  run! note_forward self obj in
  lift (py_call obj name args).

(** [int(a)] for a handle [a]: the special method [__int__] of its class,
    whose result has to be an [int]. *)
Definition int_of_handle (a : nat) : M PyVal :=
  let! h := get_handle a in
  if injected h "__int__" then
    let! r := method_plain "__int__" a [] in
    match r with
    | PyInt _ => ret r
    | _ => raise TypeError
    end
  else raise TypeError.

(** The arguments [make_method] passes on: a single argument that is a
    handle is forced by [int(args[0])] inside [try ... except: pass], and
    replaced by what it holds. *)
Definition method_args (args : call_args) : M (list PyVal) :=
  match args with
  | ArgHandle a =>
      run! try_pass (int_of_handle a) in
      let! ha := get_handle a in
      ret [_wrapped ha]
  | Args vs => ret vs
  end.

(** The method [make_method(name)] builds. *)
Definition method (name : string) (self : nat) (args : call_args) : M PyVal :=
  let! h := get_handle self in
  let obj := _wrapped h in
  let! obj := (if is_None obj then
            let! obj := call_callback self in
            run! set_wrapped self obj in
            ret obj
          else ret obj) in
  run! note_forward self obj in
  let! args := method_args args in
  lift (py_call obj name args).

(** Calling a special method on a handle: the interpreter finds it on the
    class when the metaclass put it there. *)
Definition special (name : string) (self : nat) (args : call_args) : M PyVal :=
  let! h := get_handle self in
  if injected h name then method name self args else raise TypeError.

(** [__bool__] (and [__nonzero__]), the same in both classes. *)
Definition __bool__ (self : nat) : M PyVal :=
  let! obj := _load_object self in
  run! note_forward self obj in
  ret (PyBool (py_truthy obj)).

(** [LazyEvalWrapper.__getattribute__] *)
Definition __getattribute__ (self : nat) (attr : string) : M attribute :=
  if String.eqb attr "__isabstractmethod__" then ret (AttrValue PyNone)
  else if String.eqb attr "_remoteref" then ret AttrRemoterefMethod
  else if String.eqb attr "_remote_reference" then
    let! h := get_handle self in ret (AttrRemoteReference (_remote_reference h))
  else
    let! obj := _load_object self in
    run! note_forward self obj in
    let! v := lift (py_getattr obj attr) in
    ret (AttrValue v).

(** [TypedLazyEvalWrapper.__getattribute__], for the declared [class_type] *)
Definition typed__getattribute__ (class_type : pyclass) (self : nat)
  (attr : string) : M attribute :=
  if String.eqb attr "__isabstractmethod__" then ret (AttrValue PyNone)
  else if String.eqb attr "__class__" then ret (AttrClass class_type)
  else
    let! obj := _load_object self in
    run! note_forward self obj in
    let! v := lift (py_getattr obj attr) in
    ret (AttrValue v).

(** [LazyEvalWrapper.__setattr__] *)
Definition __setattr__ (self : nat) (attr : string) (value : PyVal) : M PyVal :=
  let! obj := _load_object self in
  run! note_forward self obj in
  lift (py_setattr obj attr value).

(** [LazyEvalWrapper.__delattr__] *)
Definition __delattr__ (self : nat) (attr : string) : M PyVal :=
  let! obj := _load_object self in
  run! note_forward self obj in
  lift (py_delattr obj attr).

(** The operations calling code performs on a [LazyEvalWrapper] handle. *)
Inductive operation : Type :=
| OpSpecial (name : string) (args : call_args)
| OpBool
| OpGetattr (attr : string)
| OpSetattr (attr : string) (value : PyVal)
| OpDelattr (attr : string).

(** The accessors [__getattribute__] answers on the wrapper itself. *)
Definition wrapper_attribute (attr : string) : bool :=
  String.eqb attr "__isabstractmethod__"
  || String.eqb attr "_remoteref"
  || String.eqb attr "_remote_reference".

(** The operations that are forwarded to the resolved value. *)
Definition forwarded (op : operation) : bool :=
  match op with
  | OpSpecial name _ => existsb (String.eqb name) _special_names
  | OpGetattr attr => negb (wrapper_attribute attr)
  | _ => true
  end.

Definition run_op (self : nat) (op : operation) : M attribute :=
  match op with
  | OpSpecial name args => let! v := special name self args in ret (AttrValue v)
  | OpBool => let! v := __bool__ self in ret (AttrValue v)
  | OpGetattr attr => __getattribute__ self attr
  | OpSetattr attr value => let! v := __setattr__ self attr value in ret (AttrValue v)
  | OpDelattr attr => let! v := __delattr__ self attr in ret (AttrValue v)
  end.

(** A caller performing the operations one after the other, going on after
    an operation that raised; the final store and the outcomes in order. *)
Fixpoint run_ops (self : nat) (ops : list operation) (w : world)
  : world * list (outcome attribute) :=
  match ops with
  | [] => (w, [])
  | op :: rest =>
      let '(w1, r) := run_op self op w in
      let '(w2, rs) := run_ops self rest w1 in
      (w2, r :: rs)
  end.

(** The shape every forwarded operation has: resolve, pick the target,
    and go on with it. *)
Definition canon {A} (a : nat) (rest : PyVal -> M A) : M A :=
  let! obj := _load_object a in
  run! note_forward a obj in
  rest obj.

(** What an operation does once it has its target. *)
Definition rest_of (op : operation) (obj : PyVal) : M attribute :=
  match op with
  | OpSpecial name args =>
      let! args := method_args args in
      let! r := lift (py_call obj name args) in
      ret (AttrValue r)
  | OpBool => ret (AttrValue (PyBool (py_truthy obj)))
  | OpGetattr attr =>
      let! r := lift (py_getattr obj attr) in
      ret (AttrValue r)
  | OpSetattr attr value =>
      let! r := lift (py_setattr obj attr value) in
      ret (AttrValue r)
  | OpDelattr attr =>
      let! r := lift (py_delattr obj attr) in
      ret (AttrValue r)
  end.

End Operations.

(** What any operation, on this or on another handle, may do to the
    handle [self]: count more calls and note more targets; once the
    handle holds a value, it keeps it, calls the producer no more, and
    notes no other target. *)
Definition evolves (h h' : handle) : Prop :=
  _callback h' = _callback h /\
  _remote_reference h' = _remote_reference h /\
  _base_class_ h' = _base_class_ h /\
  calls h <= calls h' /\
  length (seen h) <= length (seen h') /\
  (is_None (_wrapped h) = false ->
   _wrapped h' = _wrapped h /\ calls h' = calls h /\
   (Forall (eq (_wrapped h)) (seen h) -> Forall (eq (_wrapped h)) (seen h'))).

(** The computation [m] changes the handle [self] only in that way. *)
Definition steps (self : nat) {A} (m : M A) : Prop :=
  forall w h, handles w !! self = Some h ->
              exists h', handles (m w).1 !! self = Some h' /\ evolves h h'.


(** An object model for the examples: integers with [+], [==], [<] and
    [int()], and no attributes. *)
Definition int_call (obj : PyVal) (name : string) (args : list PyVal)
  : outcome PyVal :=
  match obj, args with
  | PyInt x, [PyInt y] =>
      if String.eqb name "__add__" then Ok (PyInt (x + y))
      else if String.eqb name "__eq__" then Ok (PyBool (Z.eqb x y))
      else if String.eqb name "__lt__" then Ok (PyBool (Z.ltb x y))
      else Raise AttributeError
  | PyInt x, [] =>
      if String.eqb name "__int__" then Ok (PyInt x) else Raise AttributeError
  | _, _ => Raise AttributeError
  end.

(** A second object model for the examples: lists with [in] and [len()]. *)
Definition list_call (obj : PyVal) (name : string) (args : list PyVal)
  : outcome PyVal :=
  match obj, args with
  | PyList l, [x] =>
      if String.eqb name "__contains__" then Ok (PyBool (existsb (py_eq x) l))
      else Raise AttributeError
  | PyList l, [] =>
      if String.eqb name "__len__" then Ok (PyInt (Z.of_nat (length l)))
      else Raise AttributeError
  | _, _ => Raise AttributeError
  end.

Definition no_getattr (obj : PyVal) (attr : string) : outcome PyVal :=
  Raise AttributeError.

Definition no_setattr (obj : PyVal) (attr : string) (value : PyVal)
  : outcome PyVal :=
  Raise AttributeError.

Definition empty_world : world :=
  {| handles := []; _remote_reference_calls := [] |}.

End Lazy.

(** ** The mapping wrappers: what [ProxyDictPostWrite] and
       [ProxyDictPreWrite] share

    Both classes extend [dict], keep an [_update_obj] and an [_update_func],
    and wrap in their constructor every nested mapping in an instance of
    their own class; they differ in what they hand to the nested instance. *)

Module Wrapper.

(** What a wrapper holds under a key: a plain value, or another wrapper,
    named by its identity in the store. *)
Inductive value : Type :=
| VPlain (v : PyVal)
| VRef (o : nat).

Section Store.
Context {Obj Cb : Type}.

Record node : Type := {
  items : dict value;
  _update_obj : Obj;
  _update_func : Cb
}.

Definition alloc (o : node) (h : list node) : list node := h ++ [o].

Definition set_items (self : nat) (d : dict value) (h : list node)
  : list node :=
  match h !! self with
  | Some o =>
      <[self := {| items := d; _update_obj := _update_obj o;
                   _update_func := _update_func o |}]> h
  | None => h
  end.

Definition set_update_func (self : nat) (update_func : Cb) (h : list node)
  : list node :=
  match h !! self with
  | Some o =>
      <[self := {| items := items o; _update_obj := _update_obj o;
                   _update_func := update_func |}]> h
  | None => h
  end.

Definition items_of (self : nat) (h : list node) : dict value :=
  match h !! self with
  | Some o => items o
  | None => []
  end.

(** [dict.__setitem__(self, key, value)], and [dict.update(self, {key:
    value})] *)
Definition dict_setitem (self : nat) (key : string) (v : value)
  (h : list node) : list node :=
  set_items self (dict_set (items_of self h) key v) h.

(** [m[k1][k2]...]: the nested wrapper a path of keys leads to. *)
Fixpoint descend (h : list node) (self : nat) (path : list string)
  : option nat :=
  match path with
  | [] => Some self
  | k :: rest =>
      match dict_get (items_of self h) k with
      | Some (VRef child) => descend h child rest
      | _ => None
      end
  end.

Section Init.
(** [None]; the [update_obj] a nested wrapper gets, from the one of its
    parent and its key; the [update_func] it gets, from its parent. *)
Variable no_func : Cb.
Variable child_obj : Obj -> string -> Obj.
Variable child_func : nat -> Cb.

(** [__init__(self, update_obj, update_func, arg)], by recursion on the
    mapping [arg]: the items of [arg], [_update_func = None], then
    every item that is a mapping replaced by a wrapper of it, then
    [_update_func = update_func].  The result is the new wrapper.

    [ProxyDictPreWrite] assigns [_update_obj] after the loop and
    [ProxyDictPostWrite] before it; nothing reads it in between. *)
Fixpoint init_value (arg : PyVal) (update_obj : Obj) (update_func : Cb)
  (h : list node) {struct arg} : list node * nat :=
  match arg with
  | PyDict d =>
      let self := length h in
      let h :=
        alloc {| items := map (fun kv => (fst kv, VPlain (snd kv))) d;
                 _update_obj := update_obj;
                 _update_func := no_func |} h in
      let h :=
        fold_left
          (fun h kv =>
             let '(k, i) := kv in
             match i with
             | PyDict _ =>
                 let '(h', child) :=
                   init_value i (child_obj update_obj k) (child_func self) h in
                 dict_setitem self k (VRef child) h'
             | _ => h
             end)
          d h in
      (set_update_func self update_func h, self)
  | _ => (h, length h)
  end.
(** A wrapper of the store is in order below [hi] when each wrapper it
    holds is a younger one below [hi], and carries what the constructor
    hands to a nested wrapper under that key. *)
Definition node_ok (h : list node) (hi n : nat) : Prop :=
  exists o, h !! n = Some o /\
    forall k c, dict_get (items o) k = Some (VRef c) ->
      n < c < hi /\
      exists oc, h !! c = Some oc /\
                 _update_func oc = child_func n /\
                 _update_obj oc = child_obj (_update_obj o) k.

Definition range_ok (h : list node) (lo hi : nat) : Prop :=
  forall n, lo <= n < hi -> node_ok h hi n.

(** The loop of the constructor keeps this. *)
Definition loop_inv (h0 : list node) (update_obj : Obj) (h : list node) : Prop :=
  length h0 < length h /\
  (forall i, i < length h0 -> h !! i = h0 !! i) /\
  (exists o, h !! length h0 = Some o /\ _update_func o = no_func /\
             _update_obj o = update_obj) /\
  range_ok h (length h0) (length h).

Definition init_post (arg : PyVal) (update_obj : Obj) (update_func : Cb)
  (h0 : list node) : Prop :=
  let r := init_value arg update_obj update_func h0 in
  r.2 = length h0 /\
  length h0 < length r.1 /\
  (forall i, i < length h0 -> r.1 !! i = h0 !! i) /\
  (exists o, r.1 !! length h0 = Some o /\ _update_func o = update_func /\
             _update_obj o = update_obj) /\
  range_ok r.1 (length h0) (length r.1).

(** The specification of the constructor, for the items that are
    mappings, and one round of its loop. *)
Definition init_ok (v : PyVal) : Prop :=
  match v with
  | PyDict _ => forall obj cb h0, init_post v obj cb h0
  | _ => True
  end.

Definition init_step (self : nat) (update_obj : Obj) h (kv : string * PyVal)
  : list node :=
  let '(k, i) := kv in
  match i with
  | PyDict _ =>
      let '(h', child) :=
        init_value i
          (child_obj update_obj k) (child_func self) h in
      dict_setitem self k (VRef child) h'
  | _ => h
  end.

End Init.

(** The store [h2] has every wrapper of [h], with the same [_update_obj]
    and [_update_func]. *)
Definition same_callbacks (h h2 : list node) : Prop :=
  forall i o, h !! i = Some o ->
    exists o2, h2 !! i = Some o2 /\
               _update_obj o2 = _update_obj o /\ _update_func o2 = _update_func o.

End Store.

Arguments node : clear implicits.

End Wrapper.

(** ** The notifying mapping: [ProxyDictPostWrite] *)

Module PostWrite.
Export Wrapper.

(** What [_update_func] can be: [None], a function of the caller, or the
    bound method [o._set_callback] of the mapping [o]. *)
Inductive callback : Type :=
| CbNone
| CbUser (f : nat)
| CbSetCallback (o : nat).

(** An instance; [_update_obj] is the owner, named by a number. *)
Abbreviation ProxyDictPostWrite := (node nat callback).

(** One call [f(obj, mapping)] of a caller's function. *)
Record notification : Type := {
  func : nat;
  arg_obj : nat;
  arg_dict : nat
}.

(** The store of mappings by identity, and the calls made so far to the
    callers' functions, oldest first. *)
Record state : Type := {
  heap : list ProxyDictPostWrite;
  log : list notification
}.

(** [ProxyDictPostWrite(update_obj, update_func, arg)]: a nested mapping is
    wrapped as [ProxyDictPostWrite(update_obj, self._set_callback, i)]. *)
Definition __init__ (update_obj : nat) (update_func : callback)
  (arg : dict PyVal) (st : state) : state * nat :=
  let '(h, self) :=
    init_value CbNone (fun obj _ => obj) CbSetCallback
      (PyDict arg) update_obj update_func (heap st) in
  ({| heap := h; log := log st |}, self).

(** [_set_callback]: [fuel] bounds the chain of bound methods followed;
    [None] stands for a chain longer than that. *)
Fixpoint _set_callback (fuel : nat) (self : nat) (st : state) : option state :=
  match fuel with
  | O => None
  | S fuel' =>
      match heap st !! self with
      | None => None
      | Some o =>
          match _update_func o with
          | CbNone => Some st
          | CbUser f =>
              Some {| heap := heap st;
                      log := log st ++ [{| func := f; arg_obj := _update_obj o;
                                           arg_dict := self |}] |}
          | CbSetCallback parent => _set_callback fuel' parent st
          end
      end
  end.


(** [__setitem__] *)
Definition __setitem__ (fuel : nat) (self : nat) (key : string) (v : value)
  (st : state) : option state :=
  _set_callback fuel self
    {| heap := dict_setitem self key v (heap st); log := log st |}.

(** [_do_update], for [E] a plain mapping. *)
Definition _do_update (self : nat) (E : dict PyVal) (st : state) : state :=
  match heap st !! self with
  | Some o =>
      let '(st1, tmp) := __init__ (_update_obj o) (CbSetCallback self) E st in
      {| heap :=
           set_items self
             (dict_update (items_of self (heap st1)) (items_of tmp (heap st1)))
             (heap st1);
         log := log st1 |}
  | None => st
  end.

(** [update] *)
Definition update (fuel : nat) (self : nat) (E : dict PyVal) (st : state)
  : option state :=
  _set_callback fuel self (_do_update self E st).

(** [_to_dict] *)
Fixpoint _to_dict (fuel : nat) (self : nat) (st : state) : option PyVal :=
  match fuel with
  | O => None
  | S fuel' =>
      option_map PyDict
        (fold_right
           (fun kv acc =>
              match acc with
              | None => None
              | Some a_dict =>
                  match snd kv with
                  | VPlain v => Some ((fst kv, v) :: a_dict)
                  | VRef i =>
                      match _to_dict fuel' i st with
                      | Some v => Some ((fst kv, v) :: a_dict)
                      | None => None
                      end
                  end
              end)
           (Some []) (items_of self (heap st)))
  end.

Definition empty_state : state := {| heap := []; log := [] |}.

End PostWrite.

(** ** The filtering mapping: [ProxyDictPreWrite] *)

Module PreWrite.
Export Wrapper.

(** [_update_obj]: the owner, named by a number, for the mapping the caller
    builds; the key it sits under, for a nested mapping. *)
Inductive pyobj : Type :=
| Owner (id : nat)
| Key (k : string).

(** What a callback hands back: [None], another falsy value, a pair
    [(key, value)], or some other truthy value. *)
Inductive result : Type :=
| RNone
| RFalsy
| RPair (k : string) (v : value)
| ROther.

(** What [_update_func] can be: [None], a function of the caller, the bound
    method [o._nested_callback] of the mapping [o], or a value that is not
    callable. *)
Inductive callback : Type :=
| CbNone
| CbUser (f : nat)
| CbNested (o : nat)
| CbValue (r : result).

Abbreviation ProxyDictPreWrite := (node pyobj callback).

(** One call [f(obj, (key, value))] of a caller's function. *)
Record call : Type := {
  func : nat;
  arg_obj : pyobj;
  arg_key : string;
  arg_value : value
}.

(** The store of mappings by identity, and the calls made so far to the
    callers' functions, oldest first. *)
Record state : Type := {
  heap : list ProxyDictPreWrite;
  log : list call
}.

(** [ProxyDictPreWrite(update_obj, update_func, arg)]: a nested mapping is
    wrapped as [ProxyDictPreWrite(k, self._nested_callback, i)]. *)
Definition __init__ (update_obj : pyobj) (update_func : callback)
  (arg : dict PyVal) (st : state) : state * nat :=
  let '(h, self) :=
    init_value CbNone (fun _ k => Key k) CbNested
      (PyDict arg) update_obj update_func (heap st) in
  ({| heap := h; log := log st |}, self).

(** [if not res: return None] / [return res] *)
Definition or_None (res : result) : result :=
  match res with
  | RNone | RFalsy => RNone
  | _ => res
  end.

Section Callbacks.
(** What the callers' functions return; they leave the store alone. *)
Variable call_user : nat -> pyobj -> string * value -> result.

(** [_set_callback(self, key_value)].  A nested mapping holds
    [parent._nested_callback], which calls [parent._set_callback] with the
    key prefixed; [fuel] bounds the chain followed, and [None] stands for
    a chain longer than that. *)
Fixpoint _set_callback (fuel : nat) (self : nat) (key_value : string * value)
  (st : state) : option (state * outcome result) :=
  match fuel with
  | O => None
  | S fuel' =>
      match heap st !! self with
      | None => None
      | Some o =>
          match _update_func o with
          | CbNone => Some (st, Ok (RPair (fst key_value) (snd key_value)))
          | CbUser f =>
              let res := call_user f (_update_obj o) key_value in
              Some ({| heap := heap st;
                       log := log st ++ [{| func := f; arg_obj := _update_obj o;
                                            arg_key := fst key_value;
                                            arg_value := snd key_value |}] |},
                    Ok (or_None res))
          | CbValue r => Some (st, Ok (or_None r))
          | CbNested parent =>
              match _update_obj o with
              | Key prefix =>
                  match _set_callback fuel' parent
                          ((prefix ++ "." ++ fst key_value)%string, snd key_value) st with
                  | Some (st', Ok res) => Some (st', Ok (or_None res))
                  | other => other
                  end
              | Owner _ => Some (st, Raise TypeError)
              end
          end
      end
  end.

(** [_nested_callback(self, prefix, key_value)] *)
Definition _nested_callback (fuel : nat) (self : nat) (prefix : string)
  (key_value : string * value) (st : state) : option (state * outcome result) :=
  _set_callback fuel self ((prefix ++ "." ++ fst key_value)%string, snd key_value) st.

(** [__setitem__] *)
Definition __setitem__ (fuel : nat) (self : nat) (key : string) (v : value)
  (st : state) : option (state * outcome unit) :=
  match _set_callback fuel self (key, v) st with
  | None => None
  | Some (st', Raise e) => Some (st', Raise e)
  | Some (st', Ok key_value) =>
      match key_value with
      | RNone | RFalsy => Some (st', Ok tt)
      | RPair k x =>
          Some ({| heap := dict_setitem self k x (heap st'); log := log st' |}, Ok tt)
      | ROther => Some (st', Raise TypeError)
      end
  end.

(** What [_set_callback] does on the mapping built by the caller, whose
    [_update_func] is the caller's function [f]. *)
Definition owner_answer (f owner : nat) (v : value) (st : state) (key : string)
  : state * outcome result :=
  ({| heap := heap st;
      log := log st ++ [{| func := f; arg_obj := Owner owner;
                           arg_key := key; arg_value := v |}] |},
   Ok (or_None (call_user f (Owner owner) (key, v)))).

End Callbacks.

(** The key a write of [key] reports to the owner from the nested mapping
    at [path]: one dotted segment for each level. *)
Fixpoint dotted (path : list string) (key : string) : string :=
  match path with
  | [] => key
  | p :: rest => (p ++ "." ++ dotted rest key)%string
  end.

Definition empty_state : state := {| heap := []; log := [] |}.

(** The callback of the spec's example: it rejects an integer above 10, and
    accepts any other write as it is. *)
Definition reject_above_10 (f : nat) (obj : pyobj) (key_value : string * value)
  : result :=
  match snd key_value with
  | VPlain (PyInt z) =>
      if Z.ltb 10 z then RNone else RPair (fst key_value) (snd key_value)
  | _ => RPair (fst key_value) (snd key_value)
  end.

End PreWrite.
(** ** Paths into nested dictionaries *)

Module FlattenPaths.
Import Flatten.

(** The keys [nested_from_flat_dictionary] looks up in [flat_dict]:
    [prefix + k] for every entry of the skeleton that is not a mapping,
    at any depth. *)
Fixpoint lookups (a_dict : PyVal) (prefix sep : string) {struct a_dict}
  : list string :=
  match a_dict with
  | PyDict items =>
      flat_map
        (fun kv =>
           let '(k, v) := kv in
           match v with
           | PyDict _ => lookups v (prefix ++ k ++ sep)%string sep
           | _ => [(prefix ++ k)%string]
           end)
        items
  | _ => []
  end.

Definition lookup_entry (prefix sep : string) (kv : string * PyVal)
  : list string :=
  let '(k, v) := kv in
  match v with
  | PyDict _ => lookups v (prefix ++ k ++ sep)%string sep
  | _ => [(prefix ++ k)%string]
  end.

(** [v[k1][k2]...[kn]] *)
Fixpoint at_path (v : PyVal) (path : list string) : option PyVal :=
  match path with
  | [] => Some v
  | k :: rest =>
      match v with
      | PyDict d =>
          match dict_get d k with
          | Some x => at_path x rest
          | None => None
          end
      | _ => None
      end
  end.

(** No value of the mapping is a mapping with entries. *)
Definition is_flat (d : dict PyVal) : Prop :=
  Forall (fun kv : string * PyVal =>
            forall e r, snd kv <> PyDict (e :: r)) d.

End FlattenPaths.

(** ** Type tags and the check for basic types *)

Module BasicTypes.
Import PyStr Render.

(** The classes the utilities name: the four primitive types, the three
    containers, and the type of [None]. *)
Inductive pytype : Type :=
| t_float
| t_int
| t_bool
| t_str
| t_list
| t_tuple
| t_dict
| t_NoneType.

(** [t.__name__] *)
Definition __name__ (t : pytype) : string :=
  match t with
  | t_float => "float"
  | t_int => "int"
  | t_bool => "bool"
  | t_str => "str"
  | t_list => "list"
  | t_tuple => "tuple"
  | t_dict => "dict"
  | t_NoneType => "NoneType"
  end.

(** [type(v)] *)
Definition type_of (v : PyVal) : pytype :=
  match v with
  | PyNone => t_NoneType
  | PyBool _ => t_bool
  | PyInt _ => t_int
  | PyFloat _ => t_float
  | PyStr _ => t_str
  | PyList _ => t_list
  | PyTuple _ => t_tuple
  | PyDict _ => t_dict
  end.

(** [get_type_from_basic_type_str] *)
Definition get_type_from_basic_type_str (type_str : string) : pytype :=
  if String.eqb type_str "" then t_str
  else if String.prefix "list/" type_str then t_list
  else if String.prefix "tuple/" type_str then t_tuple
  else if String.prefix "dict/" type_str then t_dict
  else
    match
      find (fun t => String.eqb (__name__ t) type_str)
        [t_bool; t_int; t_float; t_str; t_list; t_tuple; t_dict]
    with
    | Some t => t
    | None => t_str
    end.

(** [isinstance(v, t)] for one class [t]; [bool] is a subclass of [int]. *)
Definition isinstance1 (v : PyVal) (t : pytype) : bool :=
  match v, t with
  | PyFloat _, t_float => true
  | PyInt _, t_int => true
  | PyBool _, t_bool => true
  | PyBool _, t_int => true
  | PyStr _, t_str => true
  | PyList _, t_list => true
  | PyTuple _, t_tuple => true
  | PyDict _, t_dict => true
  | PyNone, t_NoneType => true
  | _, _ => false
  end.

(** [isinstance(v, types)] for a tuple of classes. *)
Definition isinstance (v : PyVal) (types : list pytype) : bool :=
  existsb (isinstance1 v) types.

Definition is_container_type (t : pytype) : bool :=
  match t with
  | t_list | t_tuple | t_dict => true
  | _ => false
  end.

(** The first statement of [verify_basic_type]: the four primitive types
    when the argument is [None] or empty (both are the empty list here),
    else the argument without the container types. *)
Definition effective_types (basic_types : list pytype) : list pytype :=
  match basic_types with
  | [] => [t_float; t_int; t_bool; t_str]
  | _ => List.filter (fun b => negb (is_container_type b)) basic_types
  end.

(** [verify_basic_type] on a key of a mapping: a string is no list, tuple
    or mapping, so the function returns [True] or falls off its end. *)
Definition verify_key (k : string) (basic_types : list pytype) : PyVal :=
  let basic_types := effective_types basic_types in
  if isinstance (PyStr k) basic_types then PyBool true else PyNone.

(** [verify_basic_type]: [True], [False], or [None] when the function
    falls off its end.  The recursive calls get the types this call
    computed, and compute theirs from them. *)
Fixpoint verify_basic_type (a_dict_list : PyVal) (basic_types : list pytype)
  {struct a_dict_list} : PyVal :=
  let basic_types := effective_types basic_types in
  if isinstance a_dict_list basic_types then PyBool true
  else
    match a_dict_list with
    | PyList l | PyTuple l =>
        PyBool (forallb (fun v => py_truthy (verify_basic_type v basic_types)) l)
    | PyDict d =>
        PyBool
          (forallb (fun kv => py_truthy (verify_key (fst kv) basic_types)) d
           && forallb (fun kv => py_truthy (verify_basic_type (snd kv) basic_types)) d)
    | _ => PyNone
    end.

(** Every leaf of the value, through lists, tuples and the values of
    mappings, is a [float], an [int], a [bool] or a [str]. *)
Fixpoint basic_leaves (v : PyVal) : bool :=
  match v with
  | PyList l | PyTuple l => forallb basic_leaves l
  | PyDict d => forallb (fun kv => basic_leaves (snd kv)) d
  | _ => Flatten.is_basic v
  end.

(** Every character of the string satisfies [p]. *)
Fixpoint all_chars (p : ascii -> bool) (s : string) : bool :=
  match s with
  | EmptyString => true
  | String c r => p c && all_chars p r
  end.

End BasicTypes.

(** ** Walking nested containers *)

Module Walk.

(** [type(v) in (dict, tuple, list)] *)
Definition is_nested (v : PyVal) : bool :=
  match v with
  | PyDict _ | PyTuple _ | PyList _ => true
  | _ => false
  end.

(** [walk_nested_dict_tuple_list].  The loops are [fold_left]s with [ret] as
    the accumulator; an exception of the callback ends the loop.  For a
    tuple the list built by the loop is dropped: [ret] is set to
    [tuple(dict_list_tuple)], the tuple itself. *)
Fixpoint walk_nested_dict_tuple_list (dict_list_tuple : PyVal)
  (callback : PyVal -> outcome PyVal) {struct dict_list_tuple} : outcome PyVal :=
  match dict_list_tuple with
  | PyDict d =>
      bind
        (fold_left
           (fun acc kv =>
              let '(k, v) := kv in
              bind acc (fun ret =>
                bind (if is_nested v then walk_nested_dict_tuple_list v callback
                      else callback v)
                  (fun r => Ok (dict_set ret k r))))
           d (Ok []))
        (fun ret => Ok (PyDict ret))
  | PyList l =>
      bind
        (fold_left
           (fun acc v =>
              bind acc (fun ret =>
                bind (if is_nested v then walk_nested_dict_tuple_list v callback
                      else callback v)
                  (fun r => Ok (ret ++ [r]))))
           l (Ok []))
        (fun ret => Ok (PyList ret))
  | PyTuple l =>
      bind
        (fold_left
           (fun acc v =>
              bind acc (fun ret =>
                bind (if is_nested v then walk_nested_dict_tuple_list v callback
                      else callback v)
                  (fun r => Ok (ret ++ [r]))))
           l (Ok []))
        (fun _ => Ok (PyTuple l))
  | _ => callback dict_list_tuple
  end.

(** The values the callback is called on, in the order of the calls. *)
Fixpoint leaves (v : PyVal) : list PyVal :=
  match v with
  | PyDict d => flat_map (fun kv => leaves (snd kv)) d
  | PyList l | PyTuple l => flat_map leaves l
  | _ => [v]
  end.

(** The value with [f] applied to every leaf that is not inside a tuple. *)
Fixpoint map_leaves (f : PyVal -> PyVal) (v : PyVal) : PyVal :=
  match v with
  | PyDict d => PyDict (map (fun kv => (fst kv, map_leaves f (snd kv))) d)
  | PyList l => PyList (map (map_leaves f) l)
  | PyTuple l => PyTuple l
  | _ => f v
  end.

(** No mapping in the value holds a key twice, through the lists and the
    values of mappings as well. *)
Fixpoint keys_distinct (v : PyVal) : Prop :=
  match v with
  | PyDict d =>
      NoDup (d.*1) /\
      (fix all (l : list (string * PyVal)) : Prop :=
         match l with
         | [] => True
         | kv :: rest => keys_distinct (snd kv) /\ all rest
         end) d
  | PyList l =>
      (fix all (l : list PyVal) : Prop :=
         match l with
         | [] => True
         | x :: rest => keys_distinct x /\ all rest
         end) l
  | _ => True
  end.

(** The outcomes of [F] on the items of a list, in order, up to the first
    that raises. *)
Fixpoint mapM {A B} (F : A -> outcome B) (l : list A) : outcome (list B) :=
  match l with
  | [] => Ok []
  | x :: r => bind (F x) (fun y => bind (mapM F r) (fun ys => Ok (y :: ys)))
  end.

End Walk.

(** ** What a mapping wrapper holds *)

Module Content.
Import Wrapper.

Section Holds.
Context {Obj Cb : Type}.

(** The wrapper [n] of the store [h] stands for the nested mapping [v]:
    it has the keys of [v] in the order of [v], and under each key the
    value of [v] itself, or a younger wrapper that stands for it. *)
Fixpoint holds (h : list (node Obj Cb)) (n : nat) (v : PyVal) {struct v} : Prop :=
  match v with
  | PyDict d =>
      exists o, h !! n = Some o /\
        (fix entries (d : list (string * PyVal)) (its : dict value) {struct d} : Prop :=
           match d, its with
           | [], [] => True
           | ky :: d', kx :: its' =>
               (fst kx = fst ky /\
                (snd kx = VPlain (snd ky) \/
                 exists c, snd kx = VRef c /\ n < c /\ holds h c (snd ky))) /\
               entries d' its'
           | _, _ => False
           end) d (items o)
  | _ => False
  end.

Definition entry_holds (h : list (node Obj Cb)) (n : nat)
  (kx : string * value) (ky : string * PyVal) : Prop :=
  fst kx = fst ky /\
  (snd kx = VPlain (snd ky) \/
   exists c, snd kx = VRef c /\ n < c /\ holds h c (snd ky)).

End Holds.

(** An entry as the constructor first stores it. *)
Definition plain (kv : string * PyVal) : string * value :=
  (fst kv, VPlain (snd kv)).

(** The number of mappings nested in one another. *)
Fixpoint depth (v : PyVal) : nat :=
  match v with
  | PyDict d => S (fold_right (fun kv m => Nat.max (depth (snd kv)) m) 0 d)
  | _ => 0
  end.

End Content.

(** ** Deferred-value handles: remote references and plain operations *)

Module LazyMore.
Import Lazy.

#[local] Open Scope lazy_scope.

(** The operations whose arguments hold no handle. *)
Definition plain_op (op : operation) : bool :=
  match op with
  | OpSpecial _ (ArgHandle _) => false
  | _ => true
  end.

(** [calls.remove(func)]: the first occurrence goes. *)
Fixpoint remove_first (func : nat) (calls : list nat) : list nat :=
  match calls with
  | [] => []
  | g :: rest => if Nat.eqb g func then rest else g :: remove_first func rest
  end.

Section RemoteReferences.

(** What calling a remote reference returns or raises; the callables leave
    the store of handles alone. *)
Variable remote_call : nat -> outcome PyVal.

(** [LazyEvalWrapper._remoteref]: the reference is taken off the pending
    list, once, and called; a handle without one answers [None]. *)
Definition _remoteref (self : nat) : M PyVal :=
  let! h := get_handle self in
  match _remote_reference h with
  | Some func =>
      fun w =>
        ({| handles := handles w;
            _remote_reference_calls :=
              if existsb (Nat.eqb func) (_remote_reference_calls w)
              then remove_first func (_remote_reference_calls w)
              else _remote_reference_calls w |},
         remote_call func)
  | None => ret PyNone
  end.

(** The loop of [trigger_all_remote_references]: the references called, in
    order, up to and with the first that raises. *)
Fixpoint call_all (funcs : list nat) : list nat * outcome unit :=
  match funcs with
  | [] => ([], Ok tt)
  | func :: rest =>
      match remote_call func with
      | Ok _ => let '(called, r) := call_all rest in (func :: called, r)
      | Raise e => ([func], Raise e)
      end
  end.

(** [LazyEvalWrapper.trigger_all_remote_references]: the pending list is
    emptied after the loop, so not when the loop raises.  The second
    component lists the references called. *)
Definition trigger_all_remote_references (w : world)
  : world * list nat * outcome unit :=
  match call_all (_remote_reference_calls w) with
  | (called, Ok _) =>
      ({| handles := handles w; _remote_reference_calls := [] |}, called, Ok tt)
  | (called, Raise e) => (w, called, Raise e)
  end.

End RemoteReferences.

End LazyMore.

(** ** Deferred configuration values: [config/__init__.py] *)

Module Config.
Import Lazy.

Section DeferredConfig.

(** [ConfigSDKWrapper.get] on a list of arguments, as it answers during
    call number [n] of the producer; the configuration object belongs to
    another package. *)
Variable config_get : nat -> list PyVal -> outcome PyVal.

(** [next(..., None)] on the generator over [multi]: each entry [a] is
    looked up with [ConfigSDKWrapper.get] for the test, and once more
    when the test passes. *)
Fixpoint first_truthy (n : nat) (multi : list (list PyVal)) : outcome PyVal :=
  match multi with
  | [] => Ok PyNone
  | a :: rest =>
      bind (config_get n a)
        (fun x => if py_truthy x then config_get n a else first_truthy n rest)
  end.

Definition key_arg (key : option string) : PyVal :=
  match key with
  | Some k => PyStr k
  | None => PyNone
  end.

(** [ConfigSDKWrapper.get(key, default) if not multi else next(...)];
    [multi] is the empty list for [None] too. *)
Definition lookup (key : option string) (default : PyVal)
  (multi : list (list PyVal)) (n : nat) : outcome PyVal :=
  match multi with
  | [] => config_get n [key_arg key; default]
  | _ => first_truthy n multi
  end.

(** The [lambda] that [deferred_config] hands to [LazyEvalWrapper]. *)
Definition deferred_callback (key : option string) (default : PyVal)
  (transform : option (list PyVal -> outcome PyVal))
  (multi : list (list PyVal)) : producer :=
  fun n =>
    match transform with
    | None => lookup key default multi n
    | Some t =>
        match key with
        | None => t []
        | Some _ => bind (lookup key default multi n) (fun x => t [x])
        end
    end.

(** [deferred_config] *)
Definition deferred_config (key : option string) (default : PyVal)
  (transform : option (list PyVal -> outcome PyVal))
  (multi : list (list PyVal)) : M nat :=
  init (deferred_callback key default transform multi) None.

End DeferredConfig.

End Config.

(** ** The naive un-flattening *)

Module Naive.
Import PyStr.

(** [s.startswith(p)] *)
Fixpoint starts (p s : string) : bool :=
  match p, s with
  | EmptyString, _ => true
  | String a p', String b s' => Ascii.eqb a b && starts p' s'
  | _, _ => false
  end.

(** [s.partition(sep)[0]], for a separator that is not empty: what comes
    before the first occurrence of [sep], all of [s] when there is none. *)
Fixpoint before (sep s : string) : string :=
  match s with
  | EmptyString => EmptyString
  | String c r => if starts sep s then EmptyString else String c (before sep r)
  end.

(** [a < b] on strings: by code points, a proper prefix first. *)
Fixpoint str_ltb (a b : string) : bool :=
  match a, b with
  | EmptyString, EmptyString => false
  | EmptyString, String _ _ => true
  | String _ _, EmptyString => false
  | String x a', String y b' =>
      if Nat.ltb (code x) (code y) then true
      else if Nat.ltb (code y) (code x) then false
      else str_ltb a' b'
  end.

(** [sorted(flat_dict.items())]: the items by key; the keys of a mapping
    are pairwise distinct, so the values are never compared. *)
Fixpoint insert_item {A} (kv : string * A) (l : list (string * A))
  : list (string * A) :=
  match l with
  | [] => [kv]
  | x :: r => if str_ltb (fst x) (fst kv) then x :: insert_item kv r else kv :: l
  end.

Definition sorted_items {A} (d : dict A) : list (string * A) :=
  fold_right insert_item [] d.

(** [itertools.groupby(l, key)]: the runs of consecutive items with the same
    key, each with its key. *)
Fixpoint groupby {A} (key : A -> string) (l : list A) : list (string * list A) :=
  match l with
  | [] => []
  | x :: r =>
      match groupby key r with
      | (k, g) :: gs =>
          if String.eqb (key x) k then (k, x :: g) :: gs
          else (key x, [x]) :: (k, g) :: gs
      | [] => [(key x, [x])]
      end
  end.

(** [{k[len(sub_prefix) + 1:]: v for k, v in bucket if len(k) > len(sub_prefix)}] *)
Definition shorten (sub_prefix : string) (bucket : list (string * PyVal))
  : dict PyVal :=
  fold_left
    (fun acc kv =>
       if Nat.ltb (String.length sub_prefix) (String.length (fst kv))
       then dict_set acc (drop (S (String.length sub_prefix)) (fst kv)) (snd kv)
       else acc)
    bucket [].

(** [len(bucket) == 1 and sub_prefix == bucket[0][0]] *)
Definition is_leaf (sub_prefix : string) (bucket : list (string * PyVal)) : bool :=
  match bucket with
  | [(k, _)] => String.eqb sub_prefix k
  | _ => false
  end.

(** The body of [naive_nested_from_flat_dictionary], for a separator that is
    not empty; [fuel] bounds the depth of the recursion, and [None] stands
    for a recursion deeper than that. *)
Fixpoint naive (fuel : nat) (flat_dict : dict PyVal) (sep : string)
  : option PyVal :=
  match fuel with
  | O => None
  | S fuel' =>
      option_map PyDict
        (fold_left
           (fun acc g =>
              match acc with
              | None => None
              | Some d =>
                  let '(sub_prefix, bucket) := g in
                  let value :=
                    if is_leaf sub_prefix bucket
                    then option_map snd (head bucket)
                    else naive fuel' (shorten sub_prefix bucket) sep in
                  match value with
                  | Some v => Some (dict_set d sub_prefix v)
                  | None => None
                  end
              end)
           (groupby (fun kv => before sep (fst kv)) (sorted_items flat_dict))
           (Some []))
  end.

(** One round of the comprehension of [naive]. *)
Definition group_step (fuel : nat) (sep : string) (acc : option (dict PyVal))
  (g : string * list (string * PyVal)) : option (dict PyVal) :=
  match acc with
  | None => None
  | Some d =>
      let '(sub_prefix, bucket) := g in
      let value :=
        if is_leaf sub_prefix bucket
        then option_map snd (head bucket)
        else naive fuel (shorten sub_prefix bucket) sep in
      match value with
      | Some v => Some (dict_set d sub_prefix v)
      | None => None
      end
  end.

(** The length of the longest key, plus one; [0] for the empty mapping. *)
Definition key_measure (flat_dict : dict PyVal) : nat :=
  fold_right (fun kv m => Nat.max (S (String.length (fst kv))) m) 0 flat_dict.

(** [naive_nested_from_flat_dictionary]: [partition] refuses the empty
    separator, on the first key; every level of the recursion takes at
    least one character off every key, so the fuel given is enough. *)
Definition naive_nested_from_flat_dictionary (flat_dict : dict PyVal)
  (sep : string) : option (outcome PyVal) :=
  match flat_dict, sep with
  | _ :: _, EmptyString => Some (Raise (ValueError "empty separator"))
  | _, _ => option_map Ok (naive (S (key_measure flat_dict)) flat_dict sep)
  end.

(** The mapping nested along a path of keys, with [v] at its end. *)
Fixpoint nest (path : list string) (v : PyVal) : PyVal :=
  match path with
  | [] => v
  | k :: rest => PyDict [(k, nest rest v)]
  end.

End Naive.

(** * Properties *)

(** ** Facts about dictionaries *)

Lemma dict_wf_PyDict (d : list (string * PyVal)) :
  dict_wf (PyDict d) <-> NoDup (d.*1) /\ Forall (fun kv => dict_wf (snd kv)) d.
Proof.
  simpl. split; intros [Hnd Hall]; split; trivial.
  - clear Hnd. induction d as [|kv r IH]; constructor; [apply Hall | apply IH, Hall].
  - clear Hnd. induction Hall as [|kv r Hkv Hr IH]; [exact I | now split].
Qed.

Lemma dict_set_fresh {A} (d : dict A) k v :
  k ∉ d.*1 -> dict_set d k v = d ++ [(k, v)].
Proof.
  induction d as [|[k' v'] r IH]; intros Hk; [reflexivity|].
  rewrite fmap_cons, not_elem_of_cons in Hk. destruct Hk as [Hne Hk]. simpl in *.
  destruct (String.eqb_spec k' k) as [->|_]; [congruence|].
  f_equal. now apply IH.
Qed.

Lemma dict_update_fresh {A} (o d : dict A) :
  NoDup ((d ++ o).*1) -> dict_update d o = d ++ o.
Proof.
  unfold dict_update. revert d.
  induction o as [|[k v] r IH]; intros d Hnd; simpl.
  - now rewrite app_nil_r.
  - rewrite dict_set_fresh.
    + rewrite IH; rewrite <- app_assoc; [reflexivity | exact Hnd].
    + rewrite fmap_app, fmap_cons in Hnd. simpl in Hnd.
      apply NoDup_app in Hnd as (_ & Hd & _).
      intros Hin. apply (Hd k Hin). now left.
Qed.

Lemma dict_get_elem_of {A} (d : dict A) k v :
  NoDup (d.*1) -> (k, v) ∈ d -> dict_get d k = Some v.
Proof.
  induction d as [|[k' v'] r IH]; intros Hnd Hin.
  - now apply elem_of_nil in Hin.
  - rewrite fmap_cons in Hnd. apply NoDup_cons in Hnd as [Hk' Hr]. simpl in Hk' |- *.
    apply elem_of_cons in Hin as [Heq|Hin].
    + inversion Heq; subst. now rewrite String.eqb_refl.
    + destruct (String.eqb_spec k' k) as [->|Hne].
      * exfalso. apply Hk'. apply list_elem_of_fmap. now exists (k, v).
      * now apply IH.
Qed.

Lemma dict_set_same {A} (d : dict A) k v :
  NoDup (d.*1) -> (k, v) ∈ d -> dict_set d k v = d.
Proof.
  induction d as [|[k' v'] r IH]; intros Hnd Hin.
  - now apply elem_of_nil in Hin.
  - rewrite fmap_cons in Hnd. apply NoDup_cons in Hnd as [Hk' Hr]. simpl in Hk' |- *.
    apply elem_of_cons in Hin as [Heq|Hin].
    + inversion Heq; subst. now rewrite String.eqb_refl.
    + destruct (String.eqb_spec k' k) as [->|Hne].
      * exfalso. apply Hk'. apply list_elem_of_fmap. now exists (k, v).
      * f_equal. now apply IH.
Qed.

(** ** Flatten and un-flatten: proofs *)

Module FlattenFacts.
Import Flatten.

#[local] Arguments flatten_value : simpl never.
#[local] Arguments flat_entries : simpl never.
#[local] Arguments nested_value : simpl never.

Lemma flatten_value_unfold items prefix sep :
  flatten_value (PyDict items) prefix sep
  = fold_left (flatten_step prefix sep) items [].
Proof. reflexivity. Qed.

Lemma flat_entries_unfold items prefix sep :
  flat_entries (PyDict items) prefix sep
  = flat_map (flat_entry prefix sep) items.
Proof. reflexivity. Qed.

Lemma nested_value_unfold items flat prefix sep :
  nested_value (PyDict items) flat prefix sep
  = PyDict (fold_left (nested_step flat prefix sep) items items).
Proof. reflexivity. Qed.

(** A mapping with an entry writes at least one flat key. *)
Lemma flat_entries_nonempty sep v :
  forall kv r prefix, v = PyDict (kv :: r) -> flat_entries v prefix sep <> [].
Proof.
  induction v using PyVal_nested_ind; intros kv r prefix Hv; try discriminate.
  inversion Hv; subst d. rewrite flat_entries_unfold. simpl.
  inversion H as [|? ? Hkv _]; subst.
  destruct kv as [k x]; simpl in *.
  destruct x as [| | | | | | |[|kv' r']]; simpl; try discriminate.
  intros Happ. apply app_eq_nil in Happ as [Hnil _].
  now apply (Hkv kv' r' _ eq_refl) in Hnil.
Qed.

Lemma flatten_step_entries prefix sep acc k x :
  (forall prefix', NoDup ((flat_entries x prefix' sep).*1) ->
                   flatten_value x prefix' sep = flat_entries x prefix' sep) ->
  NoDup ((acc ++ flat_entry prefix sep (k, x)).*1) ->
  flatten_step prefix sep acc (k, x) = acc ++ flat_entry prefix sep (k, x).
Proof.
  intros IH Hnd.
  assert (Hfresh : forall key val, flat_entry prefix sep (k, x) = [(key, val)] ->
                                   dict_set acc key val = acc ++ [(key, val)]).
  { intros key val Heq. apply dict_set_fresh. rewrite Heq, fmap_app in Hnd.
    apply NoDup_app in Hnd as (_ & Hd & _). intros Hin. apply (Hd key Hin). now left. }
  destruct x as [| | | | |l|l|[|kv' r']]; simpl in *;
    try (destruct (forallb is_basic l)); try (now apply Hfresh).
  rewrite fmap_app in Hnd. pose proof Hnd as Hnd'.
  apply NoDup_app in Hnd' as (_ & _ & Hx).
  rewrite (IH _ Hx).
  destruct (flat_entries (PyDict (kv' :: r')) (prefix ++ k ++ sep) sep) eqn:He.
  - now apply flat_entries_nonempty with (kv := kv') (r := r') in He.
  - apply dict_update_fresh. now rewrite fmap_app.
Qed.

(** When the keys it writes are pairwise distinct, [flatten_dictionary]
    returns exactly the entries it meets, in order. *)
Lemma flatten_value_entries sep v :
  forall prefix, NoDup ((flat_entries v prefix sep).*1) ->
                 flatten_value v prefix sep = flat_entries v prefix sep.
Proof.
  induction v using PyVal_nested_ind; intros prefix Hnd; try reflexivity.
  rewrite flatten_value_unfold, flat_entries_unfold in *.
  change (flat_map (flat_entry prefix sep) d)
    with ([] ++ flat_map (flat_entry prefix sep) d) in *.
  revert Hnd. generalize (@nil (string * PyVal)) as acc.
  induction H as [|[k x] r Hx _ IHr]; intros acc Hnd; cbn [fold_left flat_map] in *.
  - now rewrite app_nil_r.
  - rewrite app_assoc in Hnd.
    rewrite flatten_step_entries.
    + rewrite IHr; [now rewrite <- app_assoc | exact Hnd].
    + exact Hx.
    + rewrite fmap_app in Hnd. now apply NoDup_app in Hnd as (Hnd & _).
Qed.

Lemma nested_step_same flat prefix sep a_dict k x :
  NoDup (a_dict.*1) -> (k, x) ∈ a_dict ->
  (nested_value x flat (prefix ++ k ++ sep) sep = x) ->
  (forall p y, (p, y) ∈ flat_entry prefix sep (k, x) -> is_dict x = false ->
               dict_get flat p = Some y) ->
  nested_step flat prefix sep a_dict (k, x) = a_dict.
Proof.
  intros Hnd Hin Hrec Hget.
  assert (Hleaf : is_dict x = false -> flat_entry prefix sep (k, x) = [((prefix ++ k)%string, x)] ->
                  dict_set a_dict k (get_default flat (prefix ++ k) x) = a_dict).
  { intros Hd He. unfold get_default. rewrite (Hget (prefix ++ k)%string x).
    - now apply dict_set_same.
    - rewrite He. now left.
    - exact Hd. }
  destruct x as [| | | | |l|l|d']; cbn in *;
    try (destruct (forallb is_basic l)); try (now apply Hleaf).
  rewrite Hrec.
  destruct d'; now apply dict_set_same.
Qed.

(** Overlaying onto a skeleton a flat mapping that holds, at every key
    [flatten_dictionary] writes for the skeleton, the skeleton's own value
    gives back the skeleton. *)
Lemma nested_value_same sep flat v :
  forall prefix,
    dict_wf v ->
    (forall p y, (p, y) ∈ flat_entries v prefix sep -> dict_get flat p = Some y) ->
    nested_value v flat prefix sep = v.
Proof.
  induction v using PyVal_nested_ind; intros prefix Hwf Hget; try reflexivity.
  rewrite nested_value_unfold. f_equal.
  apply dict_wf_PyDict in Hwf as [Hnd Hwf].
  rewrite flat_entries_unfold in Hget.
  assert (Hsub : forall kv, kv ∈ d -> kv ∈ d) by auto.
  revert Hsub Hget Hwf H.
  generalize d at 1 3 4 5 6 as items.
  induction items as [|[k x] r IHr]; intros Hsub Hget Hwf HIH; cbn [fold_left flat_map] in *.
  - reflexivity.
  - inversion Hwf as [|? ? Hwx Hwr]; subst.
    inversion HIH as [|? ? Hx Hr]; subst. simpl in Hwx, Hx.
    rewrite nested_step_same.
    + apply IHr; trivial.
      * intros kv Hkv. apply Hsub. now right.
      * intros p y Hin. apply Hget. apply elem_of_app. now right.
    + exact Hnd.
    + apply Hsub. now left.
    + destruct x as [| | | | | | |[|kv' r']]; try reflexivity.
      apply Hx; [exact Hwx|].
      intros p y Hin. apply Hget. apply elem_of_app. left. exact Hin.
    + intros p y Hin _. apply Hget. apply elem_of_app. now left.
Qed.

(** *** When the flat keys are distinct *)

Lemma append_cons (x : ascii) (a b : string) :
  (String x a ++ b = String x (a ++ b))%string.
Proof. reflexivity. Qed.

Lemma append_nil_l (b : string) : (EmptyString ++ b = b)%string.
Proof. reflexivity. Qed.

Lemma append_nil_r (a : string) : (a ++ EmptyString = a)%string.
Proof. induction a as [|x a IH]; [reflexivity | now rewrite append_cons, IH]. Qed.

Lemma append_assoc_s (a b c : string) : ((a ++ b) ++ c = a ++ (b ++ c))%string.
Proof.
  induction a as [|x a IH]; [reflexivity | now rewrite !append_cons, IH].
Qed.

Lemma append_inv_head (a b c : string) : (a ++ b = a ++ c)%string -> b = c.
Proof.
  induction a as [|x a IH]; intros H; [exact H|].
  rewrite !append_cons in H. inversion H; auto.
Qed.

(** Two keys free of [c], each followed by nothing or by [c] and more, are
    equal when the whole strings are. *)
Lemma first_separator c (k k' t t' : string) :
  contains c k = false -> contains c k' = false ->
  (t = EmptyString \/ exists r, t = String c r) ->
  (t' = EmptyString \/ exists r, t' = String c r) ->
  (k ++ t = k' ++ t')%string -> k = k'.
Proof.
  revert k'. induction k as [|a k IH]; intros [|b k'] Hk Hk' Ht Ht' Heq;
    rewrite ?append_cons, ?append_nil_l in Heq; simpl in *.
  - reflexivity.
  - apply orb_false_iff in Hk' as [Hb _]. apply Ascii.eqb_neq in Hb.
    destruct Ht as [->|[r ->]]; [discriminate | inversion Heq; congruence].
  - apply orb_false_iff in Hk as [Ha _]. apply Ascii.eqb_neq in Ha.
    destruct Ht' as [->|[r ->]]; [discriminate | inversion Heq; congruence].
  - apply orb_false_iff in Hk as [_ Hk]. apply orb_false_iff in Hk' as [_ Hk'].
    inversion Heq; subst. f_equal. eauto.
Qed.

Lemma separable_PyDict c (d : list (string * PyVal)) :
  separable c (PyDict d) <->
  Forall (fun kv => contains c (fst kv) = false /\ snd kv <> PyDict [] /\
                    separable c (snd kv)) d.
Proof.
  simpl. split.
  - induction d as [|kv r IH]; intros H; constructor; [apply H | apply IH, H].
  - induction 1 as [|kv r Hkv _ IH]; [exact I | now split].
Qed.

(** Every flat key of a mapping without empty nested mapping starts with
    the prefix. *)
Lemma flat_paths_start c sep v :
  forall prefix p,
    separable c v -> p ∈ (flat_entries v prefix sep).*1 ->
    exists t, p = (prefix ++ t)%string.
Proof.
  induction v using PyVal_nested_ind; intros prefix p Hsep Hin;
    try (now apply elem_of_nil in Hin).
  apply separable_PyDict in Hsep. rewrite flat_entries_unfold in Hin.
  induction H as [|[k x] r Hx _ IHr]; cbn [flat_map] in Hin;
    [now apply elem_of_nil in Hin|].
  inversion Hsep as [|? ? (Hk & Hne & Hsx) Hr]; subst.
  rewrite fmap_app in Hin. apply elem_of_app in Hin as [Hin|Hin]; [|now apply IHr].
  cbn [fst snd] in *.
  destruct x as [| | | | | | |[|kv' r']]; cbn [flat_entry] in Hin;
    try (apply list_elem_of_singleton in Hin; cbn in Hin; subst p; eauto; fail).
  - congruence.
  - destruct (Hx _ _ Hsx Hin) as [t ->]. exists (k ++ sep ++ t)%string.
    now rewrite !append_assoc_s.
Qed.

(** The flat keys one entry writes: the prefix, the key, and then nothing
    or the separator and more. *)
Lemma flat_entry_paths c prefix k x p :
  contains c k = false -> x <> PyDict [] -> separable c x ->
  p ∈ (flat_entry prefix (String c EmptyString) (k, x)).*1 ->
  exists t, p = (prefix ++ k ++ t)%string /\
            (t = EmptyString \/ exists r, t = String c r).
Proof.
  intros Hk Hne Hsx Hin.
  destruct x as [| | | | | | |[|kv' r']]; cbn [flat_entry] in Hin;
    try (apply list_elem_of_singleton in Hin; cbn in Hin; subst p;
         exists EmptyString; split; [now rewrite append_nil_r | now left]; fail).
  destruct (flat_paths_start c _ _ _ _ Hsx Hin) as [t ->].
  exists (String c t). split; [|right; eauto].
  now rewrite !append_assoc_s.
Qed.

(** A flat key that starts with the key [k] is written by no entry under
    another key. *)
Lemma flat_paths_other c prefix k t (r : dict PyVal) :
  contains c k = false ->
  (t = EmptyString \/ exists s, t = String c s) ->
  k ∉ r.*1 ->
  Forall (fun kv : string * PyVal =>
            contains c kv.1 = false /\ kv.2 <> PyDict [] /\ separable c kv.2) r ->
  (prefix ++ k ++ t)%string
    ∉ (flat_map (flat_entry prefix (String c EmptyString)) r).*1.
Proof.
  intros Hk Ht. induction r as [|[k' x'] r IH]; intros Hkr Hsr Hq;
    cbn [flat_map] in Hq; [now apply elem_of_nil in Hq|].
  inversion Hsr as [|? ? (Hk' & Hne' & Hsx') Hsr']; subst. cbn [fst snd] in *.
  rewrite fmap_cons in Hkr. apply not_elem_of_cons in Hkr as [Hkk' Hkr].
  cbn [fst] in Hkk'.
  rewrite fmap_app in Hq. apply elem_of_app in Hq as [Hq|Hq].
  - destruct (flat_entry_paths c prefix k' x' _ Hk' Hne' Hsx' Hq)
      as (t' & Heq & Ht').
    apply append_inv_head in Heq.
    exact (Hkk' (first_separator c k k' t t' Hk Hk' Ht Ht' Heq)).
  - now apply IH.
Qed.

(** In a well-formed mapping whose keys are free of the separator character
    and that holds no empty nested mapping, no two entries flatten to the
    same key. *)
Lemma flat_paths_distinct c v :
  forall prefix,
    dict_wf v -> separable c v ->
    NoDup (flat_entries v prefix (String c EmptyString)).*1.
Proof.
  induction v using PyVal_nested_ind; intros prefix Hwf Hsep; try constructor.
  apply dict_wf_PyDict in Hwf as [Hnd Hwf]. apply separable_PyDict in Hsep.
  rewrite flat_entries_unfold.
  induction H as [|[k x] r Hx _ IHr]; cbn [flat_map]; [constructor|].
  inversion Hsep as [|? ? (Hk & Hne & Hsx) Hsr]; subst.
  inversion Hwf as [|? ? Hwx Hwr]; subst.
  rewrite fmap_cons in Hnd. apply NoDup_cons in Hnd as [Hkr Hndr].
  cbn [fst snd] in *.
  rewrite fmap_app. apply NoDup_app. split; [|split].
  - destruct x as [| | | | | | |[|kv' r']]; cbn [flat_entry];
      try (apply NoDup_singleton). now apply Hx.
  - intros p Hp Hq.
    destruct (flat_entry_paths c prefix k x p Hk Hne Hsx Hp) as (t & -> & Ht).
    exact (flat_paths_other c prefix k t r Hk Ht Hkr Hsr Hq).
  - now apply IHr.
Qed.

(** The same for the flat keys of [flatten_dictionary] under a
    one-character separator: the hypothesis of the round trip below holds
    for every such mapping. *)
Lemma separable_flat_paths c (m : dict PyVal) (prefix : string) :
  dict_wf (PyDict m) -> separable c (PyDict m) ->
  NoDup (flat_paths m prefix (String c EmptyString)).
Proof. intros Hwf Hsep. now apply flat_paths_distinct. Qed.

(** C5 (amended).  For every nested mapping [m] with string keys in which no
    two entries flatten to the same key, un-flattening the flattened mapping
    onto [m] as its own skeleton gives back [m]: [unflatten(m, flatten(m))]
    has the content [m] had before the call, for any prefix and separator.
    This covers the mappings of depth two and more with primitive leaves. *)
Theorem flatten_unflatten_roundtrip (m : dict PyVal) (prefix sep : string) :
  dict_wf (PyDict m) ->
  NoDup (flat_paths m prefix sep) ->
  nested_from_flat_dictionary m (flatten_dictionary m prefix sep) prefix sep
  = PyDict m.
Proof.
  intros Hwf Hnd. unfold nested_from_flat_dictionary, flatten_dictionary.
  rewrite (flatten_value_entries sep (PyDict m) prefix Hnd).
  apply nested_value_same; [exact Hwf|].
  intros p y Hin. now apply dict_get_elem_of.
Qed.

Lemma flatten_unflatten_roundtrip_witness :
  nested_from_flat_dictionary nested_sample
    (flatten_dictionary nested_sample "" "/") "" "/"
  = PyDict nested_sample.
Proof.
  apply (flatten_unflatten_roundtrip nested_sample "" "/").
  - apply dict_wf_PyDict. split.
    + apply (bool_decide_unpack _). vm_compute. exact I.
    + repeat constructor; simpl; try (apply (bool_decide_unpack _); vm_compute; exact I).
  - apply (bool_decide_unpack _). vm_compute. exact I.
Defined.

(** C5, as stated, fails: the flat mapping of [colliding_sample] has the
    single key ["a/b"], and un-flattening it overwrites the entry ["a/b"]
    of the skeleton with [2]. *)
Lemma flatten_unflatten_roundtrip_counterexample :
  flatten_dictionary colliding_sample "" "/" = [("a/b", PyInt 2)] /\
  nested_from_flat_dictionary colliding_sample
    (flatten_dictionary colliding_sample "" "/") "" "/"
  = PyDict [("a/b", PyInt 2); ("a", PyDict [("b", PyInt 2)])] /\
  py_eq
    (nested_from_flat_dictionary colliding_sample
       (flatten_dictionary colliding_sample "" "/") "" "/")
    (PyDict colliding_sample) = false.
Proof. repeat split. Qed.

(** C10.  An empty nested mapping met under a non-empty prefix is stored
    under its bare key: flattening [{"a": {"b": {}}}] gives [{"b": {}}], and
    the key ["a/b"] of the full path is absent. *)
Theorem flatten_empty_mapping_drops_prefix :
  flatten_dictionary [("a", PyDict [("b", PyDict [])])] "" "/"
  = [("b", PyDict [])] /\
  dict_get (flatten_dictionary [("a", PyDict [("b", PyDict [])])] "" "/") "a/b"
  = None.
Proof. split; reflexivity. Qed.

End FlattenFacts.

(** ** Casting: proofs *)

Module CastFacts.
Import PyStr Render Decode Cast.

(** With the tag ["bool"], [cast_basic_type] is [convert_bool] under
    [try ... except Exception: return value]. *)
Lemma cast_bool_unfold (value : string) :
  cast_basic_type value "bool"
  = try_except (convert_bool value) (Ok (PyStr value)).
Proof. reflexivity. Qed.

(** C3 (amended).  With the tag ["bool"], [cast_basic_type] returns [True]
    for a string that is ["true"] once stripped and lower-cased, [False] for
    one that is then ["false"] or empty, and the string itself, unchanged,
    for every other string: the [ValueError] of [convert_bool] is caught. *)
Theorem bool_cast_falls_back (value : string) :
  cast_basic_type value "bool"
  = (let s := lower (strip value) in
     if String.eqb s "true" then Ok (PyBool true)
     else if String.eqb s "false" || String.eqb s "" then Ok (PyBool false)
     else Ok (PyStr value)).
Proof.
  rewrite cast_bool_unfold. unfold convert_bool. cbv zeta.
  destruct (String.eqb (lower (strip value)) "true"); [reflexivity|].
  now destruct (String.eqb (lower (strip value)) "false" || String.eqb (lower (strip value)) "").
Qed.

(** C3, as stated, fails: ["yes"] is no boolean literal, [convert_bool]
    raises on it, and the cast returns the string. *)
Lemma bool_cast_counterexample :
  convert_bool "yes"
  = Raise (ValueError "Invalid value (boolean literal expected): yes") /\
  cast_basic_type "yes" "bool" = Ok (PyStr "yes").
Proof. split; reflexivity. Qed.

(** C4 (amended).  Casting the string rendering of a value with the value's
    own type tag gives the value back for [True], [42], [3.14], ["x"] and
    [[1, 2, 3]]; for the mapping [{"a": 1, "b": 2}] it does so from the JSON
    rendering of the mapping. *)
Theorem cast_idempotence_amended :
  Forall (fun v => cast_basic_type (py_str v) (get_basic_type v) = Ok v)
    [PyBool true; PyInt 42; PyFloat 0x1.91eb851eb851fp+1; PyStr "x";
     PyList [PyInt 1; PyInt 2; PyInt 3]] /\
  (let v := PyDict [("a", PyInt 1); ("b", PyInt 2)] in
   cast_basic_type (json_dumps v) (get_basic_type v) = Ok v).
Proof.
  split.
  - repeat (apply List.Forall_cons; [vm_compute; reflexivity|]). apply List.Forall_nil.
  - vm_compute. reflexivity.
Qed.

(** C4, as stated, fails on the mapping of the list: its [str] rendering
    has single quotes, which JSON refuses; the fallback reads
    [[{'a': 1, 'b': 2}]] as a one-element sequence, and [dict] takes that
    element for a key-value pair, made of its two keys. *)
Lemma cast_idempotence_counterexample :
  let v := PyDict [("a", PyInt 1); ("b", PyInt 2)] in
  nth_error cast_samples 5 = Some v /\
  py_str v = "{'a': 1, 'b': 2}" /\
  get_basic_type v = "dict/int" /\
  json_loads (py_str v) = Raise JSONDecodeError /\
  cast_basic_type (py_str v) (get_basic_type v) = Ok (PyDict [("a", PyStr "b")]) /\
  py_eq (PyDict [("a", PyStr "b")]) v = false.
Proof. vm_compute. repeat split. Qed.

End CastFacts.

(** ** Deferred-value handles: proofs *)

Module LazyFacts.
Import Lazy.
#[local] Open Scope lazy_scope.

Lemma lookup_set_handle_eq w self h h' :
  handles w !! self = Some h -> handles (set_handle self h' w) !! self = Some h'.
Proof.
  intros Hl. simpl. apply list_lookup_insert_eq. now apply lookup_lt_Some in Hl.
Qed.


Lemma set_handle_twice w self h1 h2 :
  set_handle self h2 (set_handle self h1 w) = set_handle self h2 w.
Proof. unfold set_handle. simpl. now rewrite list_insert_insert_eq. Qed.

Lemma get_handle_eq w self h :
  handles w !! self = Some h -> get_handle self w = (w, Ok h).
Proof. intros Hl. unfold get_handle. now rewrite Hl. Qed.

Lemma note_forward_eq w self h obj :
  handles w !! self = Some h ->
  note_forward self obj w = (set_handle self (with_seen h (seen h ++ [obj])) w, Ok tt).
Proof. intros Hl. unfold note_forward. now rewrite Hl. Qed.

(** [_load_object] on a handle that holds a value: the value, and nothing
    else happens. *)
Lemma load_resolved w self h :
  handles w !! self = Some h -> is_None (_wrapped h) = false ->
  _load_object self w = (w, Ok (_wrapped h)).
Proof.
  intros Hl Hv. unfold _load_object, bindM. rewrite (get_handle_eq _ _ _ Hl).
  now rewrite Hv.
Qed.

(** [_load_object] on a handle that holds [None], when the producer returns:
    one call, and the result is stored. *)
Lemma load_unresolved_ok w self h v :
  handles w !! self = Some h -> _wrapped h = PyNone ->
  _callback h (calls h) = Ok v ->
  _load_object self w = (set_handle self (with_wrapped (with_call h) v) w, Ok v).
Proof.
  intros Hl Hn Hcb. unfold _load_object, bindM. rewrite (get_handle_eq _ _ _ Hl).
  rewrite Hn. simpl. unfold call_callback. rewrite Hl, Hcb.
  unfold set_wrapped. rewrite (lookup_set_handle_eq _ _ _ _ Hl).
  now rewrite set_handle_twice.
Qed.

(** [_load_object] on a handle that holds [None], when the producer raises:
    one call, the exception as it is, and nothing is stored. *)
Lemma load_unresolved_raise w self h e :
  handles w !! self = Some h -> _wrapped h = PyNone ->
  _callback h (calls h) = Raise e ->
  _load_object self w = (set_handle self (with_call h) w, Raise e).
Proof.
  intros Hl Hn Hcb. unfold _load_object, bindM. rewrite (get_handle_eq _ _ _ Hl).
  rewrite Hn. simpl. unfold call_callback. now rewrite Hl, Hcb.
Qed.

Section Facts.
Variable py_call : PyVal -> string -> list PyVal -> outcome PyVal.
Variable py_getattr : PyVal -> string -> outcome PyVal.
Variable py_setattr : PyVal -> string -> PyVal -> outcome PyVal.
Variable py_delattr : PyVal -> string -> outcome PyVal.

(** The resolution code [make_method] repeats is [_load_object]. *)
Lemma method_plain_load name self args w :
  method_plain py_call name self args w
  = (let! obj := _load_object self in
     run! note_forward self obj in
     lift (py_call obj name args)) w.
Proof.
  unfold method_plain, _load_object, bindM.
  destruct (get_handle self w) as [w1 [h|e]]; [|reflexivity].
  destruct (is_None (_wrapped h)); [|reflexivity].
  destruct (call_callback self w1) as [w2 [obj|e]]; [|reflexivity].
  destruct (set_wrapped self obj w2) as [w3 [[]|e]]; reflexivity.
Qed.

Lemma method_load name self args w :
  method py_call name self args w
  = (let! obj := _load_object self in
     run! note_forward self obj in
     let! args := method_args py_call args in
     lift (py_call obj name args)) w.
Proof.
  unfold method, _load_object, bindM.
  destruct (get_handle self w) as [w1 [h|e]]; [|reflexivity].
  destruct (is_None (_wrapped h)); [|reflexivity].
  destruct (call_callback self w1) as [w2 [obj|e]]; [|reflexivity].
  destruct (set_wrapped self obj w2) as [w3 [[]|e]]; reflexivity.
Qed.

(** *** How one handle changes while operations run *)

Section OneHandle.
Variable self : nat.

#[local] Abbreviation steps := (Lazy.steps self).
#[local] Abbreviation rest_of := (Lazy.rest_of py_call py_getattr py_setattr py_delattr).

Lemma evolves_refl h : evolves h h.
Proof. unfold evolves. do 5 (split; [auto|]). auto. Qed.

Lemma evolves_trans h1 h2 h3 : evolves h1 h2 -> evolves h2 h3 -> evolves h1 h3.
Proof.
  intros (Hc & Hr & Hb & Hn & Hs & Hv) (Hc' & Hr' & Hb' & Hn' & Hs' & Hv').
  unfold evolves.
  do 5 (split; [congruence || lia|]).
  intros Hw. destruct (Hv Hw) as (Hw2 & Hn2 & HF2).
  pose proof Hw as Hw'. rewrite <- Hw2 in Hw'.
  destruct (Hv' Hw') as (Hw3 & Hn3 & HF3). rewrite Hw2 in HF3.
  split; [congruence|]. split; [congruence|]. auto.
Qed.

Lemma steps_same {A} (m : M A) :
  (forall w, (m w).1 = w) -> steps m.
Proof. intros Hm w h Hl. rewrite Hm. exists h. split; [exact Hl | apply evolves_refl]. Qed.

Lemma steps_ret {A} (a : A) : steps (ret a).
Proof. now apply steps_same. Qed.

Lemma steps_raise {A} e : steps (@raise A e).
Proof. now apply steps_same. Qed.

Lemma steps_lift {A} (o : outcome A) : steps (lift o).
Proof. now apply steps_same. Qed.

Lemma steps_get_handle a : steps (get_handle a).
Proof. apply steps_same. intros w. unfold get_handle. now destruct (handles w !! a). Qed.

Lemma steps_bind {A B} (m : M A) (k : A -> M B) :
  steps m -> (forall a, steps (k a)) -> steps (bindM m k).
Proof.
  intros Hm Hk w h Hl. destruct (Hm w h Hl) as (h1 & Hl1 & He1).
  unfold bindM. destruct (m w) as [w1 [a|e]]; simpl in *.
  - destruct (Hk a w1 h1 Hl1) as (h2 & Hl2 & He2).
    exists h2. split; [exact Hl2 | eapply evolves_trans; eauto].
  - exists h1. auto.
Qed.

Lemma steps_try_pass {A} (m : M A) : steps m -> steps (try_pass m).
Proof. intros Hm w h Hl. exact (Hm w h Hl). Qed.

(** [_load_object] on any handle [a]. *)
Lemma load_spec a w h :
  handles w !! self = Some h ->
  exists h1, handles (_load_object a w).1 !! self = Some h1 /\ evolves h h1 /\
             (a = self -> forall obj, (_load_object a w).2 = Ok obj -> _wrapped h1 = obj).
Proof.
  intros Hl. unfold _load_object, bindM, get_handle.
  destruct (handles w !! a) as [ha|] eqn:Ha; simpl.
  2:{ exists h. split; [exact Hl|]. split; [apply evolves_refl|]. intros _ obj Hobj. discriminate. }
  destruct (is_None (_wrapped ha)) eqn:Hnone; simpl.
  2:{ exists h. split; [exact Hl|]. split; [apply evolves_refl|].
      intros -> obj Hobj. inversion Hobj; subst. congruence. }
  unfold call_callback. rewrite Ha.
  destruct (decide (a = self)) as [->|Hne].
  - assert (ha = h) by congruence. subst ha.
    destruct (_callback h (calls h)) as [obj|e] eqn:Hcb; simpl.
    + unfold set_wrapped. rewrite (lookup_set_handle_eq _ _ _ _ Hl). simpl.
      rewrite list_insert_insert_eq.
      eexists. split; [apply list_lookup_insert_eq; now apply lookup_lt_Some in Hl|].
      split.
      * unfold evolves; simpl. do 5 (split; [auto; lia|]). congruence.
      * intros _ obj' Hobj. now inversion Hobj.
    + eexists. split; [apply list_lookup_insert_eq; now apply lookup_lt_Some in Hl|].
      split; [|discriminate].
      unfold evolves; simpl. do 5 (split; [auto; lia|]). congruence.
  - destruct (_callback ha (calls ha)) as [obj|e] eqn:Hcb; simpl.
    + unfold set_wrapped. rewrite (lookup_set_handle_eq _ _ _ _ Ha). simpl.
      rewrite list_insert_insert_eq, list_lookup_insert_ne by exact Hne.
      exists h. split; [exact Hl|]. split; [apply evolves_refl|]. contradiction.
    + rewrite list_lookup_insert_ne by exact Hne.
      exists h. split; [exact Hl|]. split; [apply evolves_refl|]. contradiction.
Qed.

Lemma steps_load a : steps (_load_object a).
Proof. intros w h Hl. destruct (load_spec a w h Hl) as (h1 & H1 & H2 & _). eauto. Qed.

(** Noting a target on any handle [a]; on [self], the target is the
    object the handle holds. *)
Lemma note_spec a obj w h :
  handles w !! self = Some h ->
  (a = self -> _wrapped h = obj) ->
  exists h1, handles (note_forward a obj w).1 !! self = Some h1 /\ evolves h h1 /\
             (a = self -> length (seen h1) = S (length (seen h))).
Proof.
  intros Hl Hobj. unfold note_forward.
  destruct (handles w !! a) as [ha|] eqn:Ha; simpl.
  2:{ exists h. split; [exact Hl|]. split; [apply evolves_refl|]. intros ->. congruence. }
  destruct (decide (a = self)) as [->|Hne].
  - assert (ha = h) by congruence. subst ha. specialize (Hobj eq_refl).
    eexists. split; [apply list_lookup_insert_eq; now apply lookup_lt_Some in Hl|].
    split.
    + unfold evolves; simpl. rewrite length_app. simpl.
      do 5 (split; [auto; lia|]).
      intros _. do 2 (split; [reflexivity|]).
      intros HF. apply Forall_app. split; [exact HF|].
      constructor; [congruence|constructor].
    + intros _. simpl. rewrite length_app. simpl. lia.
  - rewrite list_lookup_insert_ne by exact Hne.
    exists h. split; [exact Hl|]. split; [apply evolves_refl|]. contradiction.
Qed.

Lemma canon_spec {A} (rest : PyVal -> M A) w h :
  handles w !! self = Some h ->
  (forall obj, steps (rest obj)) ->
  match _load_object self w with
  | (w1, Ok obj) =>
      exists h1 h',
        handles w1 !! self = Some h1 /\ evolves h h1 /\ _wrapped h1 = obj /\
        handles (canon self rest w).1 !! self = Some h' /\ evolves h1 h' /\
        S (length (seen h1)) <= length (seen h')
  | (w1, Raise e) => canon self rest w = (w1, Raise e)
  end.
Proof.
  intros Hl Hrest. destruct (load_spec self w h Hl) as (h1 & Hl1 & He1 & Hw1).
  unfold canon, bindM.
  destruct (_load_object self w) as [w1 [obj|e]]; simpl in *; [|reflexivity].
  specialize (Hw1 eq_refl obj eq_refl).
  destruct (note_spec self obj w1 h1 Hl1 (fun _ => Hw1)) as (h2 & Hl2 & He2 & Hlen).
  specialize (Hlen eq_refl).
  assert (Hok : (note_forward self obj w1).2 = Ok tt).
  { unfold note_forward. now rewrite Hl1. }
  destruct (note_forward self obj w1) as [w2 [[]|e]]; simpl in *; [|discriminate].
  destruct (Hrest obj w2 h2 Hl2) as (h3 & Hl3 & He3).
  exists h1, h3. do 4 (split; [auto|]). split; [eapply evolves_trans; eauto|].
  destruct He3 as (_ & _ & _ & _ & Hs & _). lia.
Qed.

Lemma steps_canon {A} a (rest : PyVal -> M A) :
  (forall obj, steps (rest obj)) -> steps (canon a rest).
Proof.
  intros Hrest w h Hl. destruct (load_spec a w h Hl) as (h1 & Hl1 & He1 & Hw1).
  unfold canon, bindM.
  destruct (_load_object a w) as [w1 [obj|e]]; simpl in *; [|eauto].
  assert (Hobj : a = self -> _wrapped h1 = obj) by (intros Ha; now apply Hw1).
  destruct (note_spec a obj w1 h1 Hl1 Hobj) as (h2 & Hl2 & He2 & _).
  destruct (note_forward a obj w1) as [w2 [[]|e]]; simpl in *.
  - destruct (Hrest obj w2 h2 Hl2) as (h3 & Hl3 & He3).
    exists h3. split; [exact Hl3|]. eauto using evolves_trans.
  - exists h2. eauto using evolves_trans.
Qed.

Lemma steps_ext {A} (m m' : M A) :
  (forall w, m w = m' w) -> steps m' -> steps m.
Proof. intros Heq Hm w h Hl. rewrite Heq. now apply Hm. Qed.

Lemma steps_method_plain name a args : steps (method_plain py_call name a args).
Proof.
  eapply steps_ext; [apply method_plain_load|].
  apply (steps_canon a). intros obj. apply steps_lift.
Qed.

Lemma steps_int_of_handle a : steps (int_of_handle py_call a).
Proof.
  unfold int_of_handle. apply steps_bind; [apply steps_get_handle|].
  intros h. destruct (injected h "__int__"); [|apply steps_raise].
  apply steps_bind; [apply steps_method_plain|].
  intros r. destruct r; auto using steps_ret, steps_raise.
Qed.

Lemma steps_method_args args : steps (method_args py_call args).
Proof.
  destruct args as [vs|a]; simpl; [apply steps_ret|].
  apply steps_bind; [apply steps_try_pass, steps_int_of_handle|].
  intros _. apply steps_bind; [apply steps_get_handle|].
  intros ha. apply steps_ret.
Qed.

Lemma steps_rest_of op obj : steps (rest_of op obj).
Proof.
  destruct op; simpl; auto using steps_ret;
    repeat (apply steps_bind; [auto using steps_lift, steps_method_args|intros ?]);
    auto using steps_ret.
Qed.

(** Every forwarded operation on a [LazyEvalWrapper] has the shape
    [canon]. *)
Lemma run_op_canon op w h :
  handles w !! self = Some h -> _base_class_ h = None ->
  forwarded op = true ->
  run_op py_call py_getattr py_setattr py_delattr self op w
  = canon self (rest_of op) w.
Proof.
  intros Hl Hb Hf.
  destruct op as [name args| |attr|attr value|attr];
    cbn [forwarded] in Hf; cbn [run_op Lazy.rest_of].
  - unfold special, bindM at 1 2. rewrite (get_handle_eq _ _ _ Hl).
    unfold injected. rewrite Hf, Hb. simpl.
    rewrite method_load. unfold canon, bindM, lift, ret.
    destruct (_load_object self w) as [w1 [obj|e]]; [|reflexivity].
    destruct (note_forward self obj w1) as [w2 [[]|e]]; [|reflexivity].
    cbn [Lazy.rest_of]. unfold bindM, lift, ret.
    destruct (method_args py_call args w2) as [w3 [vs|e]]; [|reflexivity].
    now destruct (py_call obj name vs).
  - unfold __bool__, canon, bindM, ret.
    destruct (_load_object self w) as [w1 [obj|e]]; [|reflexivity].
    now destruct (note_forward self obj w1) as [w2 [[]|e]].
  - unfold wrapper_attribute in Hf. apply negb_true_iff in Hf.
    apply orb_false_iff in Hf as [Hf H3]. apply orb_false_iff in Hf as [H1 H2].
    unfold __getattribute__. rewrite H1, H2, H3.
    unfold canon, bindM, ret, lift.
    destruct (_load_object self w) as [w1 [obj|e]]; [|reflexivity].
    destruct (note_forward self obj w1) as [w2 [[]|e]]; [|reflexivity].
    cbn [Lazy.rest_of]. unfold bindM, lift, ret.
    now destruct (py_getattr obj attr).
  - unfold __setattr__, canon, bindM, ret, lift.
    destruct (_load_object self w) as [w1 [obj|e]]; [|reflexivity].
    destruct (note_forward self obj w1) as [w2 [[]|e]]; [|reflexivity].
    cbn [Lazy.rest_of]. unfold bindM, lift, ret.
    now destruct (py_setattr obj attr value).
  - unfold __delattr__, canon, bindM, ret, lift.
    destruct (_load_object self w) as [w1 [obj|e]]; [|reflexivity].
    destruct (note_forward self obj w1) as [w2 [[]|e]]; [|reflexivity].
    cbn [Lazy.rest_of]. unfold bindM, lift, ret.
    now destruct (py_delattr obj attr).
Qed.

(** A forwarded operation on a [LazyEvalWrapper]: when resolution raises,
    the operation raises the same exception from the same store; when it
    gives [obj], the handle holds [obj] and the operation goes on from
    there, noting at least one target. *)
Lemma run_op_forward op w h :
  handles w !! self = Some h -> _base_class_ h = None ->
  forwarded op = true ->
  match _load_object self w with
  | (w1, Ok obj) =>
      exists h1 h',
        handles w1 !! self = Some h1 /\ evolves h h1 /\ _wrapped h1 = obj /\
        handles (run_op py_call py_getattr py_setattr py_delattr self op w).1
          !! self = Some h' /\
        evolves h1 h' /\
        S (length (seen h1)) <= length (seen h')
  | (w1, Raise e) =>
      run_op py_call py_getattr py_setattr py_delattr self op w = (w1, Raise e)
  end.
Proof.
  intros Hl Hb Hf. rewrite (run_op_canon op w h Hl Hb Hf).
  apply canon_spec; [exact Hl|]. intros obj. apply steps_rest_of.
Qed.

Lemma run_ops_cons_fst op ops w :
  (run_ops py_call py_getattr py_setattr py_delattr self (op :: ops) w).1
  = (run_ops py_call py_getattr py_setattr py_delattr self ops
       (run_op py_call py_getattr py_setattr py_delattr self op w).1).1.
Proof.
  simpl.
  destruct (run_op py_call py_getattr py_setattr py_delattr self op w) as [w1 r].
  simpl.
  now destruct (run_ops py_call py_getattr py_setattr py_delattr self ops w1).
Qed.

(** Operations on a handle that holds a value. *)
Lemma run_ops_resolved ops :
  forall w h,
    handles w !! self = Some h -> _base_class_ h = None ->
    is_None (_wrapped h) = false ->
    forallb forwarded ops = true ->
    exists h',
      handles (run_ops py_call py_getattr py_setattr py_delattr self ops w).1
        !! self = Some h' /\
      evolves h h' /\ length (seen h) + length ops <= length (seen h').
Proof.
  induction ops as [|op ops IH]; intros w h Hl Hb Hv Hf.
  - exists h. simpl. split; [exact Hl|]. split; [apply evolves_refl|lia].
  - simpl in Hf. apply andb_true_iff in Hf as [Hop Hops].
    pose proof (run_op_forward op w h Hl Hb Hop) as Hstep.
    rewrite (load_resolved w self h Hl Hv) in Hstep.
    destruct Hstep as (h1 & h' & Hl1 & _ & _ & Hl' & He & Hlen).
    assert (h1 = h) by congruence. subst h1.
    pose proof He as (_ & _ & Hb' & _ & _ & Hres).
    destruct (Hres Hv) as (Hw' & _ & _).
    destruct (IH _ h' Hl') as (h2 & Hl2 & He2 & Hlen2);
      [congruence | congruence | exact Hops |].
    exists h2. rewrite run_ops_cons_fst.
    split; [exact Hl2|]. split; [eapply evolves_trans; eauto|]. simpl. lia.
Qed.

End OneHandle.

(** C1 (amended).  For a [LazyEvalWrapper] handle built on a producer whose
    first call returns a value other than [None], after one or more
    forwarded operations (special methods of [_special_names], truthiness,
    forwarded attribute reads, writes and deletions, in any mix) the
    producer has been called exactly once, the handle holds the value it
    returned, and every operation was forwarded to that value. *)
Theorem resolution_once (callback : producer) (remote_reference : option nat)
  (v : PyVal) (op : operation) (ops : list operation) (w : world) :
  callback 0 = Ok v ->
  is_None v = false ->
  forallb forwarded (op :: ops) = true ->
  exists h,
    handles
      (run_ops py_call py_getattr py_setattr py_delattr
         (length (handles w)) (op :: ops)
         (init callback remote_reference w).1).1
      !! length (handles w) = Some h /\
    calls h = 1 /\
    _wrapped h = v /\
    Forall (eq v) (seen h) /\
    length (op :: ops) <= length (seen h).
Proof.
  intros Hcb Hv Hf. simpl in Hf. apply andb_true_iff in Hf as [Hop Hops].
  set (self := length (handles w)).
  set (h0 := {| _wrapped := PyNone; _callback := callback;
                _remote_reference := remote_reference;
                _base_class_ := None; calls := 0; seen := [] |}).
  set (w0 := (init callback remote_reference w).1).
  assert (Hl0 : handles w0 !! self = Some h0).
  { unfold w0, init, self. simpl. now rewrite lookup_app_r, Nat.sub_diag by lia. }
  pose proof (run_op_forward self op w0 h0 Hl0 eq_refl Hop) as Hstep.
  rewrite (load_unresolved_ok w0 self h0 v Hl0 eq_refl Hcb) in Hstep.
  destruct Hstep as (h1 & h' & Hl1 & _ & _ & Hl' & He & Hlen).
  rewrite (lookup_set_handle_eq _ _ _ _ Hl0) in Hl1. inversion Hl1; subst h1.
  simpl in He, Hlen.
  pose proof He as (_ & _ & Hb' & _ & _ & Hres). simpl in Hb', Hres.
  destruct (Hres Hv) as (Hw' & Hc' & HF').
  assert (Hv' : is_None (_wrapped h') = false) by congruence.
  destruct (run_ops_resolved self ops _ h' Hl' Hb' Hv' Hops)
    as (h2 & Hl2 & He2 & Hlen2).
  exists h2. rewrite run_ops_cons_fst. split; [exact Hl2|].
  destruct He2 as (_ & _ & _ & _ & _ & Hres2).
  destruct (Hres2 Hv') as (Hw2 & Hc2 & HF2).
  split; [congruence|]. split; [congruence|].
  split; [rewrite Hw' in HF2; apply HF2, HF'; constructor|].
  simpl. lia.
Qed.

(** C2 (amended).  On a [LazyEvalWrapper] handle that holds no value and
    whose producer raises [e] at its next call, a forwarded operation of
    which the handle is the receiver raises [e] itself, stores nothing and
    leaves one more call counted; the next forwarded operation on the
    handle calls the producer again, and when that call returns a value
    other than [None] this value is stored by that very call. *)
Theorem producer_failure_not_cached (w : world) (self : nat) (h : handle)
  (e : PyExc) (op op2 : operation) :
  handles w !! self = Some h ->
  _base_class_ h = None ->
  _wrapped h = PyNone ->
  _callback h (calls h) = Raise e ->
  forwarded op = true ->
  forwarded op2 = true ->
  let r1 := run_op py_call py_getattr py_setattr py_delattr self op w in
  let r2 := run_op py_call py_getattr py_setattr py_delattr self op2 r1.1 in
  r1.2 = Raise e /\
  (exists h1, handles r1.1 !! self = Some h1 /\
              _wrapped h1 = PyNone /\ calls h1 = S (calls h) /\
              _callback h1 = _callback h /\ seen h1 = seen h) /\
  (exists h2, handles r2.1 !! self = Some h2 /\
              S (S (calls h)) <= calls h2 /\
              (forall v, _callback h (S (calls h)) = Ok v -> is_None v = false ->
                         _wrapped h2 = v /\ calls h2 = S (S (calls h)))).
Proof.
  intros Hl Hb Hn Hcb Hf Hf2 r1 r2.
  pose proof (run_op_forward self op w h Hl Hb Hf) as Hstep.
  rewrite (load_unresolved_raise w self h e Hl Hn Hcb) in Hstep.
  assert (Hl1 : handles r1.1 !! self = Some (with_call h)).
  { unfold r1. rewrite Hstep. simpl. apply list_lookup_insert_eq.
    now apply lookup_lt_Some in Hl. }
  split; [unfold r1; now rewrite Hstep|].
  split; [exists (with_call h); now repeat split|].
  pose proof (run_op_forward self op2 r1.1 (with_call h) Hl1 Hb Hf2) as Hstep2.
  fold r2 in Hstep2.
  destruct (_callback h (S (calls h))) as [v2|e2] eqn:Hcb2.
  - rewrite (load_unresolved_ok r1.1 self (with_call h) v2 Hl1 Hn Hcb2) in Hstep2.
    destruct Hstep2 as (h1 & h' & Hl1' & _ & _ & Hl' & He & _).
    rewrite (lookup_set_handle_eq _ _ _ _ Hl1) in Hl1'. inversion Hl1'; subst h1.
    exists h'. split; [exact Hl'|].
    destruct He as (_ & _ & _ & Hc & _ & Hres). simpl in Hc, Hres.
    split; [exact Hc|].
    intros v Hv Hnone. inversion Hv; subst v2.
    destruct (Hres Hnone) as (Hw' & Hc' & _). now split.
  - rewrite (load_unresolved_raise r1.1 self (with_call h) e2 Hl1 Hn Hcb2) in Hstep2.
    exists (with_call (with_call h)). rewrite Hstep2. simpl.
    split; [apply list_lookup_insert_eq; now apply lookup_lt_Some in Hl1|].
    split; [lia|]. intros v Hv. discriminate.
Qed.

(** C9.  A handle built by the class [lazy_eval_wrapper_spec_class(T)]
    answers [__class__] with [T], and answering leaves the store as it is:
    the producer is not called and the handle still holds nothing.  Its
    constructor takes the producer alone and leaves
    [LazyEvalWrapper._remote_reference_calls] as it was. *)
Theorem typed_masquerade (T : pyclass) (callback : producer) (w : world) :
  let self := length (handles w) in
  let w0 := (typed_init T callback w).1 in
  (typed_init T callback w).2 = Ok self /\
  _remote_reference_calls w0 = _remote_reference_calls w /\
  typed__getattribute__ py_getattr T self "__class__" w0 = (w0, Ok (AttrClass T)) /\
  handles w0 !! self
  = Some {| _wrapped := PyNone; _callback := callback;
            _remote_reference := None; _base_class_ := Some T;
            calls := 0; seen := [] |}.
Proof.
  intros self w0. repeat split.
  unfold w0, typed_init, self. simpl. now rewrite lookup_app_r, Nat.sub_diag by lia.
Qed.

End Facts.

(** The spec's transparency example: a handle on the integer [5], compared
    with [5], added to [1], tested for truth and compared with itself. *)
Lemma resolution_once_witness :
  exists h,
    handles
      (run_ops int_call no_getattr no_setattr no_getattr 0
         [OpSpecial "__eq__" (Args [PyInt 5]); OpSpecial "__add__" (Args [PyInt 1]);
          OpBool; OpSpecial "__lt__" (ArgHandle 0)]
         (init (fun _ => Ok (PyInt 5)) None empty_world).1).1
      !! 0 = Some h /\
    calls h = 1 /\ _wrapped h = PyInt 5 /\ Forall (eq (PyInt 5)) (seen h) /\
    4 <= length (seen h).
Proof.
  apply (resolution_once int_call no_getattr no_setattr no_getattr
           (fun _ => Ok (PyInt 5)) None (PyInt 5)
           (OpSpecial "__eq__" (Args [PyInt 5]))
           [OpSpecial "__add__" (Args [PyInt 1]); OpBool;
            OpSpecial "__lt__" (ArgHandle 0)]
           empty_world); reflexivity.
Defined.

(** C1, as stated, fails for a producer that succeeds with [None]: the handle
    takes [None] for "not resolved yet", so two truth tests call the producer
    twice. *)
Lemma resolution_once_counterexample :
  exists h,
    handles
      (run_ops int_call no_getattr no_setattr no_getattr 0 [OpBool; OpBool]
         (init (fun _ => Ok PyNone) None empty_world).1).1
      !! 0 = Some h /\
    calls h = 2 /\
    forallb forwarded [OpBool; OpBool] = true.
Proof. eexists. repeat split. Qed.

Lemma producer_failure_not_cached_witness :
  let w := (init (fun n => match n with
                           | 0 => Raise (UserError 7)
                           | _ => Ok (PyInt 5)
                           end) None empty_world).1 in
  let r1 := run_op int_call no_getattr no_setattr no_getattr 0 OpBool w in
  let r2 := run_op int_call no_getattr no_setattr no_getattr 0
              (OpSpecial "__add__" (Args [PyInt 1])) r1.1 in
  r1.2 = Raise (UserError 7) /\
  (exists h1, handles r1.1 !! 0 = Some h1 /\
              _wrapped h1 = PyNone /\ calls h1 = 1 /\
              _callback h1 = (fun n => match n with
                                       | 0 => Raise (UserError 7)
                                       | _ => Ok (PyInt 5)
                                       end) /\ seen h1 = []) /\
  (exists h2, handles r2.1 !! 0 = Some h2 /\
              2 <= calls h2 /\
              (forall v, Ok (PyInt 5) = Ok v -> is_None v = false ->
                         _wrapped h2 = v /\ calls h2 = 2)).
Proof.
  exact (producer_failure_not_cached int_call no_getattr no_setattr no_getattr
           (init (fun n => match n with
                           | 0 => Raise (UserError 7)
                           | _ => Ok (PyInt 5)
                           end) None empty_world).1
           0 _ (UserError 7) OpBool (OpSpecial "__add__" (Args [PyInt 1]))
           eq_refl eq_refl eq_refl eq_refl eq_refl eq_refl).
Defined.

(** C2, as stated, fails when the operation that forces resolution has the
    handle as its argument: in [x.__contains__(y)], with [x] a handle on
    the list [[1, 2]] and [y] a handle whose producer raises, [make_method]
    forces [y] by [int(y)] inside [try ... except: pass]; the producer of
    [y] is called and its exception is dropped, [y] still holds no value,
    and the caller gets what [__contains__] of the list answers for
    [None], which is [False]: no exception reaches it. *)
Lemma producer_failure_not_cached_counterexample :
  let w := (init (fun _ => Raise (UserError 7)) None
              (init (fun _ => Ok (PyList [PyInt 1; PyInt 2])) None empty_world).1).1 in
  let op := OpSpecial "__contains__" (ArgHandle 1) in
  let r := run_op list_call no_getattr no_setattr no_getattr 0 op w in
  forwarded op = true /\
  (exists h1, handles w !! 1 = Some h1 /\ _base_class_ h1 = None /\
              _wrapped h1 = PyNone /\ calls h1 = 0 /\
              _callback h1 (calls h1) = Raise (UserError 7)) /\
  r.2 = Ok (AttrValue (PyBool false)) /\
  (exists h1', handles r.1 !! 1 = Some h1' /\ calls h1' = 1 /\
               _wrapped h1' = PyNone).
Proof.
  cbv zeta. split; [reflexivity|]. split; [eexists; repeat split|].
  split; [reflexivity|]. eexists. repeat split.
Qed.

End LazyFacts.

(** ** The mapping wrappers: proofs *)

Lemma dict_get_dict_set {A} (d : dict A) k v k' :
  dict_get (dict_set d k v) k' = if String.eqb k k' then Some v else dict_get d k'.
Proof.
  induction d as [|[k0 v0] r IH]; simpl.
  - reflexivity.
  - destruct (String.eqb_spec k0 k) as [->|Hne]; simpl.
    + destruct (String.eqb_spec k k'); reflexivity.
    + rewrite IH. destruct (String.eqb_spec k0 k') as [->|Hne'].
      * destruct (String.eqb_spec k k'); congruence.
      * reflexivity.
Qed.

Module WrapperFacts.
Import Wrapper.

Section Store.
Context {Obj Cb : Type}.
Implicit Types (h : list (node Obj Cb)) (o : node Obj Cb).

Lemma dict_get_plain (d : dict PyVal) k x :
  dict_get (map (fun kv => (fst kv, VPlain (snd kv))) d) k = Some x ->
  exists v, x = VPlain v.
Proof.
  induction d as [|[k0 v0] r IH]; simpl; [discriminate|].
  destruct (String.eqb k0 k); [|exact IH].
  intros Heq. inversion Heq. eauto.
Qed.

Lemma length_set_items self d h : length (set_items self d h) = length h.
Proof. unfold set_items. destruct (h !! self); [apply length_insert|reflexivity]. Qed.

Lemma length_set_update_func self f h :
  length (set_update_func self f h) = length h.
Proof.
  unfold set_update_func. destruct (h !! self); [apply length_insert|reflexivity].
Qed.

Lemma lookup_set_items_ne self d h i :
  i <> self -> set_items self d h !! i = h !! i.
Proof.
  intros Hne. unfold set_items. destruct (h !! self); [|reflexivity].
  apply list_lookup_insert_ne. congruence.
Qed.

Lemma lookup_set_items_eq self d h o :
  h !! self = Some o ->
  set_items self d h !! self
  = Some {| items := d; _update_obj := _update_obj o; _update_func := _update_func o |}.
Proof.
  intros Hl. unfold set_items. rewrite Hl.
  apply list_lookup_insert_eq. now apply lookup_lt_Some in Hl.
Qed.

Lemma lookup_set_update_func_ne self f h i :
  i <> self -> set_update_func self f h !! i = h !! i.
Proof.
  intros Hne. unfold set_update_func. destruct (h !! self); [|reflexivity].
  apply list_lookup_insert_ne. congruence.
Qed.

Lemma lookup_set_update_func_eq self f h o :
  h !! self = Some o ->
  set_update_func self f h !! self
  = Some {| items := items o; _update_obj := _update_obj o; _update_func := f |}.
Proof.
  intros Hl. unfold set_update_func. rewrite Hl.
  apply list_lookup_insert_eq. now apply lookup_lt_Some in Hl.
Qed.

Section Init.
Variable no_func : Cb.
Variable child_obj : Obj -> string -> Obj.
Variable child_func : nat -> Cb.

#[local] Abbreviation node_ok := (Wrapper.node_ok child_obj child_func).
#[local] Abbreviation range_ok := (Wrapper.range_ok child_obj child_func).
#[local] Abbreviation loop_inv := (Wrapper.loop_inv no_func child_obj child_func).
#[local] Abbreviation init_post := (Wrapper.init_post no_func child_obj child_func).
#[local] Abbreviation init_ok := (Wrapper.init_ok no_func child_obj child_func).
#[local] Abbreviation init_step := (Wrapper.init_step no_func child_obj child_func).

Lemma node_ok_transfer h1 h2 hi1 hi2 n :
  node_ok h1 hi1 n -> hi1 <= hi2 ->
  (exists o1 o2, h1 !! n = Some o1 /\ h2 !! n = Some o2 /\
                 items o2 = items o1 /\ _update_obj o2 = _update_obj o1) ->
  (forall i, n < i < hi1 -> h2 !! i = h1 !! i) ->
  node_ok h2 hi2 n.
Proof.
  intros (o & Ho & Hkids) Hhi (o1 & o2 & Ho1 & Ho2 & Hit & Hob) Hsame.
  assert (o1 = o) by congruence. subst o1.
  exists o2. split; [exact Ho2|].
  intros k c Hget. rewrite Hit in Hget.
  destruct (Hkids k c Hget) as (Hc & oc & Hoc & Hf & Hobj).
  split; [lia|]. exists oc. rewrite Hsame by lia.
  split; [exact Hoc|]. split; [exact Hf|]. congruence.
Qed.

Lemma node_ok_same h1 h2 hi1 hi2 n :
  node_ok h1 hi1 n -> n < hi1 -> hi1 <= hi2 ->
  (forall i, n <= i < hi1 -> h2 !! i = h1 !! i) ->
  node_ok h2 hi2 n.
Proof.
  intros Hok Hn Hhi Hsame. pose proof Hok as (o & Ho & Hkids).
  eapply node_ok_transfer; eauto.
  - exists o, o. rewrite Hsame by lia. auto.
  - intros i Hi. apply Hsame. lia.
Qed.

Lemma loop_inv_start h0 update_obj (d : dict PyVal) :
  loop_inv h0 update_obj
    (alloc {| items := map (fun kv => (fst kv, VPlain (snd kv))) d;
              _update_obj := update_obj; _update_func := no_func |} h0).
Proof.
  unfold Wrapper.loop_inv, alloc. rewrite length_app. simpl.
  split; [lia|]. split; [intros i Hi; now apply lookup_app_l|].
  split.
  - eexists. split; [apply list_lookup_middle; reflexivity|]. auto.
  - intros n Hn. assert (n = length h0) by lia. subst n.
    eexists. split; [apply list_lookup_middle; reflexivity|].
    simpl. intros k c Hget. apply dict_get_plain in Hget as [v Hv]. discriminate.
Qed.

(** One round of the loop, on an item that is a mapping. *)
Lemma loop_inv_step h0 update_obj h k (d2 : dict PyVal) :
  loop_inv h0 update_obj h ->
  (forall obj' cb' h', init_post (PyDict d2) obj' cb' h') ->
  let r := init_value no_func child_obj child_func (PyDict d2)
             (child_obj update_obj k) (child_func (length h0)) h in
  loop_inv h0 update_obj (dict_setitem (length h0) k (VRef r.2) r.1).
Proof.
  intros (Hlen & Hframe & (o & Ho & Hof & Hoo) & Hrange) IH r.
  destruct (IH (child_obj update_obj k) (child_func (length h0)) h)
    as (Hchild & Hlen' & Hframe' & (oc & Hoc & Hocf & Hoco) & Hrange').
  fold r in Hchild, Hlen', Hframe', Hoc, Hrange'. clearbody r.
  assert (Hself : r.1 !! length h0 = Some o) by (rewrite Hframe' by lia; exact Ho).
  unfold Wrapper.loop_inv, dict_setitem. rewrite length_set_items.
  split; [lia|].
  split; [intros i Hi; rewrite lookup_set_items_ne by lia; rewrite Hframe' by lia; auto|].
  split.
  { rewrite (lookup_set_items_eq _ _ _ _ Hself). eexists. split; [reflexivity|]. auto. }
  intros n Hn.
  destruct (decide (n = length h0)) as [->|Hne].
  - eexists. split; [apply (lookup_set_items_eq _ _ _ _ Hself)|]. simpl.
    unfold items_of. rewrite Hself.
    intros k' c Hget. rewrite dict_get_dict_set in Hget.
    destruct (String.eqb_spec k k') as [->|Hk].
    + inversion Hget; subst c. rewrite Hchild. split; [lia|].
      exists oc. rewrite lookup_set_items_ne by lia. rewrite Hoo. auto.
    + destruct (Hrange (length h0)) as (o1 & Ho1 & Hkids); [lia|].
      assert (o1 = o) by congruence. subst o1.
      destruct (Hkids k' c Hget) as (Hc & oc1 & Hoc1 & Hf1 & Hobj1).
      split; [lia|]. exists oc1.
      rewrite lookup_set_items_ne by lia. rewrite Hframe' by lia. auto.
  - assert (Hcase : n < length h \/ length h <= n) by lia.
    destruct Hcase as [Hlt|Hge].
    + apply (node_ok_same h _ (length h)); [apply Hrange; lia|lia|lia|].
      intros i Hi. rewrite lookup_set_items_ne by lia. apply Hframe'. lia.
    + apply (node_ok_same r.1 _ (length r.1)); [apply Hrange'; lia|lia|lia|].
      intros i Hi. apply lookup_set_items_ne. lia.
Qed.

Lemma init_value_unfold d update_obj update_func h0 :
  init_value no_func child_obj child_func (PyDict d) update_obj update_func h0
  = (set_update_func (length h0) update_func
       (fold_left (init_step (length h0) update_obj) d
          (alloc {| items := map (fun kv => (fst kv, VPlain (snd kv))) d;
                    _update_obj := update_obj; _update_func := no_func |} h0)),
     length h0).
Proof. reflexivity. Qed.

Lemma loop_inv_fold h0 update_obj (d : dict PyVal) :
  Forall (fun kv => init_ok (snd kv)) d ->
  forall h, loop_inv h0 update_obj h ->
            loop_inv h0 update_obj (fold_left (init_step (length h0) update_obj) d h).
Proof.
  induction 1 as [|[k i] r Hi _ IH]; intros h Hinv; cbn [fold_left]; [exact Hinv|].
  apply IH. destruct i as [| | | | | | |d2]; try exact Hinv.
  cbn [Wrapper.init_ok snd] in Hi. unfold Wrapper.init_step.
  pose proof (loop_inv_step h0 update_obj h k d2 Hinv Hi) as Hstep.
  cbv zeta in Hstep.
  destruct (init_value no_func child_obj child_func (PyDict d2)
              (child_obj update_obj k) (child_func (length h0)) h) as [h' child].
  exact Hstep.
Qed.

(** What the constructor builds: a new wrapper at the end of the store,
    with the [update_obj] and [update_func] it was given, every older
    wrapper as it was, and every new one in order. *)
Lemma init_value_spec (arg : PyVal) : init_ok arg.
Proof.
  induction arg using PyVal_nested_ind; simpl; trivial.
  intros obj cb h0. unfold Wrapper.init_post. rewrite init_value_unfold. simpl.
  pose proof (loop_inv_fold h0 obj d H _ (loop_inv_start h0 obj d))
    as (Hlen & Hframe & (o & Ho & Hof & Hoo) & Hrange).
  set (h := fold_left (init_step (length h0) obj) d _) in *.
  rewrite length_set_update_func.
  split; [reflexivity|]. split; [exact Hlen|].
  split; [intros i Hi; rewrite lookup_set_update_func_ne by lia; auto|].
  split.
  { rewrite (lookup_set_update_func_eq _ _ _ _ Ho). eexists. split; [reflexivity|]. auto. }
  intros n Hn.
  destruct (decide (n = length h0)) as [->|Hne].
  - apply (node_ok_transfer h _ (length h)); [apply Hrange; lia|lia| |].
    + exists o. eexists. split; [exact Ho|].
      split; [apply (lookup_set_update_func_eq _ _ _ _ Ho)|]. auto.
    + intros i Hi. apply lookup_set_update_func_ne. lia.
  - apply (node_ok_same h _ (length h)); [apply Hrange; lia|lia|lia|].
    intros i Hi. apply lookup_set_update_func_ne. lia.
Qed.


End Init.

Lemma same_callbacks_refl h : same_callbacks h h.
Proof. intros i o Ho. eauto. Qed.




End Store.

End WrapperFacts.


(** ** What a mapping wrapper stands for *)

Lemma dict_set_middle {A} (l1 l2 : dict A) k x y :
  k ∉ l1.*1 -> dict_set (l1 ++ (k, x) :: l2) k y = l1 ++ (k, y) :: l2.
Proof.
  induction l1 as [|[k' v'] r IH]; intros Hk.
  - cbn [app dict_set]. now rewrite String.eqb_refl.
  - rewrite fmap_cons in Hk. apply not_elem_of_cons in Hk as [Hne Hk]. cbn in Hne.
    cbn [app dict_set]. destruct (String.eqb_spec k' k) as [->|_]; [congruence|].
    cbn [app]. f_equal. now apply IH.
Qed.

Module ContentFacts.
Import Wrapper Content WrapperFacts.

Section Holds.
Context {Obj Cb : Type}.
Implicit Types (h : list (node Obj Cb)) (o : node Obj Cb).

Lemma holds_PyDict h n (d : list (string * PyVal)) :
  holds h n (PyDict d) <->
  exists o, h !! n = Some o /\ Forall2 (entry_holds h n) (items o) d.
Proof.
  cbn [holds]. split; intros (o & Ho & He); exists o; (split; [exact Ho|]).
  - revert He. generalize (items o) as its.
    induction d as [|ky d IH]; intros [|kx its] He; try contradiction; constructor.
    + exact (proj1 He).
    + apply IH. exact (proj2 He).
  - induction He as [|kx ky its d Hk _ IH]; [exact I|]. split; [exact Hk | exact IH].
Qed.

Lemma holds_dict h n v : holds h n v -> exists d, v = PyDict d.
Proof. destruct v; try contradiction. eauto. Qed.

(** What a wrapper stands for depends on the wrappers from it on only. *)
Lemma holds_frame h h' v :
  forall n,
    holds h n v ->
    (forall j, n <= j < length h -> h' !! j = h !! j) ->
    holds h' n v.
Proof.
  induction v using PyVal_nested_ind; intros n Hh Hsame; try contradiction.
  apply holds_PyDict in Hh as (o & Ho & He). apply holds_PyDict.
  pose proof (lookup_lt_Some _ _ _ Ho) as Hn.
  exists o. split; [rewrite Hsame by lia; exact Ho|].
  clear Ho. induction He as [|kx ky its d' [Hk Hv] _ IH]; [constructor|].
  inversion H as [|? ? Hy Hd]; subst. constructor; [|now apply IH].
  split; [exact Hk|]. destruct Hv as [Hv|(c & Hc & Hlt & Hch)]; [now left|].
  right. exists c. split; [exact Hc|]. split; [exact Hlt|].
  apply Hy; [exact Hch|]. intros j Hj. apply Hsame. lia.
Qed.

Lemma entry_holds_frame h h' n kx ky :
  entry_holds h n kx ky ->
  (forall j, n < j < length h -> h' !! j = h !! j) ->
  entry_holds h' n kx ky.
Proof.
  intros [Hk Hv] Hsame. split; [exact Hk|].
  destruct Hv as [Hv|(c & Hc & Hlt & Hch)]; [now left|].
  right. exists c. split; [exact Hc|]. split; [exact Hlt|].
  apply (holds_frame h); [exact Hch|]. intros j Hj. apply Hsame. lia.
Qed.

Lemma Forall2_keys h n (its : dict value) (d : list (string * PyVal)) :
  Forall2 (entry_holds h n) its d -> its.*1 = d.*1.
Proof.
  induction 1 as [|kx ky its d [Hk _] _ IH]; [reflexivity|].
  rewrite !fmap_cons. now rewrite Hk, IH.
Qed.

Section Init.
Variable no_func : Cb.
Variable child_obj : Obj -> string -> Obj.
Variable child_func : nat -> Cb.

#[local] Abbreviation init_value := (Wrapper.init_value no_func child_obj child_func).
#[local] Abbreviation init_step := (Wrapper.init_step no_func child_obj child_func).

(** The loop of the constructor, from the entries [d1] already met to the
    entries [d2] to come. *)
Lemma init_fold_holds (self : nat) update_obj (d2 : list (string * PyVal)) :
  Forall (fun kv => forall d, snd kv = PyDict d -> forall obj cb h0,
            holds (init_value (snd kv) obj cb h0).1 (length h0) (snd kv)) d2 ->
  forall (d1 : list (string * PyVal)) h o its1,
    NoDup (d1 ++ d2).*1 ->
    self < length h ->
    h !! self = Some o ->
    items o = its1 ++ map plain d2 ->
    Forall2 (entry_holds h self) its1 d1 ->
    exists o',
      fold_left (init_step self update_obj) d2 h !! self = Some o' /\
      Forall2 (entry_holds (fold_left (init_step self update_obj) d2 h) self)
        (items o') (d1 ++ d2).
Proof.
  induction 1 as [|[k i] rest Hi _ IH]; intros d1 h o its1 Hnd Hself Ho Hit He;
    cbn [fold_left].
  - exists o. split; [exact Ho|]. rewrite app_nil_r in *. now rewrite Hit.
  - cbn [snd] in Hi. cbn [map] in Hit.
    assert (Hk : k ∉ its1.*1).
    { rewrite (Forall2_keys _ _ _ _ He). rewrite fmap_app, fmap_cons in Hnd.
      apply NoDup_app in Hnd as (_ & Hnd & _). intros Hin. apply (Hnd k Hin). now left. }
    replace (d1 ++ (k, i) :: rest) with ((d1 ++ [(k, i)]) ++ rest) in *
      by now rewrite <- app_assoc.
    assert (Hcase : (exists d', i = PyDict d') \/ ~ (exists d', i = PyDict d')).
    { destruct i; try (right; intros [? ?]; discriminate). left. eauto. }
    destruct Hcase as [[d' ->]|Hnot].
    + pose proof (init_value_spec no_func child_obj child_func (PyDict d')
                    (child_obj update_obj k) (child_func self) h)
        as (Hchild & Hlen & Hframe & _).
      specialize (Hi d' eq_refl (child_obj update_obj k) (child_func self) h).
      unfold Wrapper.init_step.
      destruct (init_value (PyDict d') (child_obj update_obj k) (child_func self) h)
        as [h1 child].
      cbn [fst snd] in *. subst child.
      assert (Ho1 : h1 !! self = Some o) by (rewrite Hframe by lia; exact Ho).
      unfold dict_setitem, items_of. rewrite Ho1, Hit.
      change (plain (k, PyDict d')) with (k, VPlain (PyDict d')).
      rewrite dict_set_middle by exact Hk.
      eapply (IH (d1 ++ [(k, PyDict d')]) _ _ (its1 ++ [(k, VRef (length h))])).
      * exact Hnd.
      * rewrite length_set_items. lia.
      * apply (lookup_set_items_eq _ _ _ _ Ho1).
      * cbn [items]. now rewrite <- app_assoc.
      * apply Forall2_app.
        -- eapply Forall2_impl; [exact He|]. intros kx ky Hxy.
           apply (entry_holds_frame h); [exact Hxy|].
           intros j Hj. rewrite lookup_set_items_ne by lia. apply Hframe. lia.
        -- constructor; [|constructor]. split; [reflexivity|]. right.
           exists (length h). split; [reflexivity|]. split; [exact Hself|].
           apply (holds_frame h1); [exact Hi|].
           intros j Hj. apply lookup_set_items_ne. lia.
    + assert (Hstep : init_step self update_obj h (k, i) = h).
      { destruct i; try reflexivity. exfalso. apply Hnot. eauto. }
      rewrite Hstep.
      apply (IH (d1 ++ [(k, i)]) h o (its1 ++ [plain (k, i)])); trivial.
      * now rewrite <- app_assoc.
      * apply Forall2_app; [exact He|]. constructor; [|constructor].
        split; [reflexivity|]. now left.
Qed.

(** The constructor builds a wrapper that stands for its argument. *)
Lemma init_holds (arg : PyVal) :
  dict_wf arg ->
  forall d, arg = PyDict d -> forall obj cb h0,
    holds (init_value arg obj cb h0).1 (length h0) arg.
Proof.
  induction arg using PyVal_nested_ind; intros Hwf d' Hd obj cb h0; try discriminate.
  clear d' Hd. apply dict_wf_PyDict in Hwf as [Hnd Hwf].
  rewrite (init_value_unfold no_func child_obj child_func). cbn [fst].
  set (node0 := {| items := map (fun kv => (fst kv, VPlain (snd kv))) d;
                   _update_obj := obj; _update_func := no_func |}).
  destruct (init_fold_holds (length h0) obj d) with
    (d1 := @nil (string * PyVal)) (h := alloc node0 h0) (o := node0)
    (its1 := @nil (string * value)) as (o' & Ho' & He).
  - apply Forall_forall. intros kv Hkv d' Hd'.
    apply (proj1 (Forall_forall _ _) H kv Hkv
             (proj1 (Forall_forall _ _) Hwf kv Hkv) d' Hd').
  - exact Hnd.
  - unfold alloc. rewrite length_app. cbn. lia.
  - unfold alloc. now apply list_lookup_middle.
  - reflexivity.
  - constructor.
  - cbn [app] in He. apply holds_PyDict.
    set (h := fold_left _ d _) in *.
    eexists. split; [apply (lookup_set_update_func_eq _ _ _ _ Ho')|]. cbn [items].
    eapply Forall2_impl; [exact He|]. intros kx ky Hxy.
    apply (entry_holds_frame h); [exact Hxy|].
    intros j Hj. apply lookup_set_update_func_ne. lia.
Qed.

End Init.
End Holds.
End ContentFacts.

Module PostWriteFacts.
Import PostWrite Content WrapperFacts ContentFacts.

#[local] Arguments init_value : simpl never.




Lemma postwrite_init_unfold update_obj update_func arg st :
  __init__ update_obj update_func arg st
  = ({| heap := (init_value CbNone (fun obj (_ : string) => obj) CbSetCallback
                   (PyDict arg) update_obj update_func (heap st)).1;
        log := log st |},
     (init_value CbNone (fun obj (_ : string) => obj) CbSetCallback
        (PyDict arg) update_obj update_func (heap st)).2).
Proof.
  unfold __init__.
  now destruct (init_value CbNone (fun obj (_ : string) => obj) CbSetCallback
                  (PyDict arg) update_obj update_func (heap st)).
Qed.



End PostWriteFacts.

Module PreWriteFacts.
Import PreWrite WrapperFacts.

#[local] Arguments init_value : simpl never.

Lemma prewrite_init_unfold update_obj update_func arg st :
  __init__ update_obj update_func arg st
  = ({| heap := (init_value CbNone (fun (_ : pyobj) k => Key k) CbNested
                   (PyDict arg) update_obj update_func (heap st)).1;
        log := log st |},
     (init_value CbNone (fun (_ : pyobj) k => Key k) CbNested
        (PyDict arg) update_obj update_func (heap st)).2).
Proof.
  unfold __init__.
  now destruct (init_value CbNone (fun (_ : pyobj) k => Key k) CbNested
                  (PyDict arg) update_obj update_func (heap st)).
Qed.

Lemma or_None_idem res : or_None (or_None res) = or_None res.
Proof. now destruct res. Qed.

Section Facts.
Variable call_user : nat -> pyobj -> string * value -> result.

#[local] Abbreviation owner_answer := (PreWrite.owner_answer call_user).

(** Through a nested mapping, [_set_callback] does what it does on the
    mapping it was built in, for the key with the dotted path in front. *)
Lemma set_callback_chain st lo hi v path :
  range_ok (fun (_ : pyobj) k => Key k) CbNested (heap st) lo hi ->
  forall m n F (X : string -> state * outcome result),
    lo <= m < hi -> descend (heap st) m path = Some n ->
    (forall key', match X key' with
                  | (_, Ok res) => or_None res = res
                  | _ => True
                  end) ->
    (forall fuel key', F <= fuel ->
                       _set_callback call_user fuel m (key', v) st = Some (X key')) ->
    forall fuel key, F + length path <= fuel ->
                     _set_callback call_user fuel n (key, v) st
                     = Some (X (dotted path key)).
Proof.
  intros Hrange. induction path as [|k rest IH];
    intros m n F X Hm Hd Hclosed Hroot fuel key Hfuel; simpl in Hd, Hfuel.
  - inversion Hd; subst n. apply Hroot. lia.
  - destruct (Hrange m Hm) as (o & Ho & Hkids).
    unfold items_of in Hd. rewrite Ho in Hd.
    destruct (dict_get (items o) k) as [[pv|c]|] eqn:Hget; try discriminate.
    destruct (Hkids k c Hget) as (Hc & oc & Hoc & Hf & Hobj).
    simpl.
    apply (IH c n (S F) (fun key' => X (k ++ "." ++ key')%string));
      [lia | exact Hd | intros key'; apply Hclosed | | lia].
    intros fuel' key' Hfuel'. destruct fuel' as [|fuel']; [lia|].
    simpl. rewrite Hoc, Hf, Hobj.
    rewrite (Hroot fuel' (k ++ "." ++ key')%string) by lia.
    specialize (Hclosed (k ++ "." ++ key')%string).
    destruct (X (k ++ "." ++ key')%string) as [st' [res|e]]; [|reflexivity].
    now rewrite Hclosed.
Qed.

(** In a filtering mapping built from a plain nested mapping, a write of
    [key] into the nested mapping at [path] asks the owner's function
    once, about the key [dotted path key]. *)
Lemma set_callback_built (owner f : nat) (initial : dict PyVal) (st0 : state)
  (path : list string) (n : nat) (key : string) (v : value) (fuel : nat) :
  let st := (__init__ (Owner owner) (CbUser f) initial st0).1 in
  let root := (__init__ (Owner owner) (CbUser f) initial st0).2 in
  descend (heap st) root path = Some n ->
  length path < fuel ->
  _set_callback call_user fuel n (key, v) st
  = Some (owner_answer f owner v st (dotted path key)).
Proof.
  intros st root Hpath Hfuel. subst st root. rewrite prewrite_init_unfold in *.
  cbn [fst snd heap log] in *.
  pose proof (init_value_spec CbNone (fun (_ : pyobj) k => Key k) CbNested
                (PyDict initial) (Owner owner) (CbUser f) (heap st0))
    as (Hroot & Hlen & Hframe & (o & Ho & Hof & Hoo) & Hrange).
  set (r := init_value CbNone (fun (_ : pyobj) k => Key k) CbNested
              (PyDict initial) (Owner owner) (CbUser f) (heap st0)) in *.
  clearbody r. destruct r as [h root]. cbn [fst snd] in *. subst root.
  set (st := {| heap := h; log := log st0 |}).
  apply (set_callback_chain st (length (heap st0)) (length h) v path Hrange
           (length (heap st0)) n 1 (owner_answer f owner v st));
    [lia | exact Hpath | | | lia].
  - intros key'. unfold PreWrite.owner_answer. apply or_None_idem.
  - intros fuel' key' Hfuel'. destruct fuel' as [|fuel']; [lia|].
    simpl. rewrite Ho, Hof, Hoo. reflexivity.
Qed.

(** C7.  In a filtering mapping built from a plain nested mapping, a
    write on the mapping, or on the nested mapping a path of keys leads
    to, asks the owner's function.  When it returns [None] or another
    falsy value, the store of mappings is exactly what it was and nothing
    is raised; when it returns a pair, that pair is what the mapping
    written to stores.  Any [fuel] above the length of the path is
    enough. *)
Theorem filtering_mapping_write (owner f : nat) (initial : dict PyVal)
  (st0 : state) (path : list string) (n : nat) (key : string) (v : value)
  (fuel : nat) :
  let st := (__init__ (Owner owner) (CbUser f) initial st0).1 in
  let root := (__init__ (Owner owner) (CbUser f) initial st0).2 in
  descend (heap st) root path = Some n ->
  length path < fuel ->
  match call_user f (Owner owner) (dotted path key, v) with
  | RNone | RFalsy =>
      exists st',
        __setitem__ call_user fuel n key v st = Some (st', Ok tt) /\
        heap st' = heap st
  | RPair k' v' =>
      exists st',
        __setitem__ call_user fuel n key v st = Some (st', Ok tt) /\
        heap st' = dict_setitem n k' v' (heap st) /\
        (forall o, heap st !! n = Some o ->
                   dict_get (items_of n (heap st')) k' = Some v')
  | ROther => True
  end.
Proof.
  intros st root Hpath Hfuel. unfold __setitem__.
  pose proof (set_callback_built owner f initial st0 path n key v fuel Hpath Hfuel)
    as Hcb.
  cbv zeta in Hcb. fold st in Hcb. rewrite Hcb. unfold PreWrite.owner_answer.
  destruct (call_user f (Owner owner) (dotted path key, v)) as [| |k' v'|];
    cbn [or_None]; trivial.
  - eexists. split; [reflexivity|]. reflexivity.
  - eexists. split; [reflexivity|]. reflexivity.
  - eexists. split; [reflexivity|]. cbn [heap]. split; [reflexivity|].
    intros o Ho. unfold dict_setitem, items_of.
    rewrite (lookup_set_items_eq _ _ _ _ Ho). cbn [items].
    rewrite Ho, dict_get_dict_set. now rewrite String.eqb_refl.
Qed.

(** C8.  In a filtering mapping built from a plain nested mapping, a
    write of [key] into the nested mapping that the keys [p1], ..., [pm]
    lead to calls the owner's function exactly once, with the owner and
    the key [p1.p2. ... .pm.key]: one dotted segment for each level.  Any
    [fuel] above the length of the path is enough. *)
Theorem nested_write_reports_dotted_path (owner f : nat) (initial : dict PyVal)
  (st0 : state) (path : list string) (n : nat) (key : string) (v : value)
  (fuel : nat) :
  let st := (__init__ (Owner owner) (CbUser f) initial st0).1 in
  let root := (__init__ (Owner owner) (CbUser f) initial st0).2 in
  descend (heap st) root path = Some n ->
  length path < fuel ->
  log st = log st0 /\
  exists st' r,
    __setitem__ call_user fuel n key v st = Some (st', r) /\
    log st' = log st0 ++ [{| func := f; arg_obj := Owner owner;
                             arg_key := dotted path key; arg_value := v |}].
Proof.
  intros st root Hpath Hfuel.
  assert (Hlog : log st = log st0).
  { unfold st. now rewrite prewrite_init_unfold. }
  split; [exact Hlog|]. unfold __setitem__.
  pose proof (set_callback_built owner f initial st0 path n key v fuel Hpath Hfuel)
    as Hcb.
  cbv zeta in Hcb. fold st in Hcb. rewrite Hcb. unfold PreWrite.owner_answer. rewrite Hlog.
  destruct (or_None (call_user f (Owner owner) (dotted path key, v)));
    eexists; eexists; (split; [reflexivity|reflexivity]).
Qed.

End Facts.

(** The spec's example: the owner rejects a value above 10; [m["x"] = 20]
    leaves the mapping as it is, [m["x"] = 5] stores [5]. *)
Lemma filtering_mapping_write_witness :
  let st := (__init__ (Owner 100) (CbUser 7) [("x", PyInt 1)] empty_state).1 in
  (exists st',
      __setitem__ reject_above_10 1 0 "x" (VPlain (PyInt 20)) st = Some (st', Ok tt) /\
      heap st' = heap st) /\
  (exists st',
      __setitem__ reject_above_10 1 0 "x" (VPlain (PyInt 5)) st = Some (st', Ok tt) /\
      heap st' = dict_setitem 0 "x" (VPlain (PyInt 5)) (heap st) /\
      (forall o, heap st !! 0 = Some o ->
                 dict_get (items_of 0 (heap st')) "x" = Some (VPlain (PyInt 5)))).
Proof.
  split.
  - apply (filtering_mapping_write reject_above_10 100 7 [("x", PyInt 1)]
             empty_state [] 0 "x" (VPlain (PyInt 20)) 1); [reflexivity | simpl; lia].
  - apply (filtering_mapping_write reject_above_10 100 7 [("x", PyInt 1)]
             empty_state [] 0 "x" (VPlain (PyInt 5)) 1); [reflexivity | simpl; lia].
Defined.

(** A write [m["a"]["b"]["k"] = 5] reaches the owner as ["a.b.k"]. *)
Lemma nested_write_reports_dotted_path_witness :
  let st := (__init__ (Owner 100) (CbUser 7)
               [("a", PyDict [("b", PyDict [("c", PyInt 1)])])] empty_state).1 in
  log st = [] /\
  exists st' r,
    __setitem__ reject_above_10 3 2 "k" (VPlain (PyInt 5)) st = Some (st', r) /\
    log st' = [{| func := 7; arg_obj := Owner 100;
                  arg_key := "a.b.k"; arg_value := VPlain (PyInt 5) |}].
Proof.
  apply (nested_write_reports_dotted_path reject_above_10 100 7
           [("a", PyDict [("b", PyDict [("c", PyInt 1)])])] empty_state
           ["a"; "b"] 2 "k" (VPlain (PyInt 5)) 3); [reflexivity | simpl; lia].
Defined.

End PreWriteFacts.

(** ** Flatten and un-flatten: further properties *)

Lemma dict_set_keys {A} (d : dict A) k v :
  k ∈ d.*1 -> (dict_set d k v).*1 = d.*1.
Proof.
  induction d as [|[k' v'] r IH]; intros Hin.
  - now apply elem_of_nil in Hin.
  - cbn [dict_set]. destruct (String.eqb_spec k' k) as [->|Hne]; [reflexivity|].
    rewrite !fmap_cons. f_equal. apply IH.
    rewrite fmap_cons in Hin. apply elem_of_cons in Hin as [Heq|Hin]; [|exact Hin].
    cbn in Heq. congruence.
Qed.

Lemma dict_set_NoDup {A} (d : dict A) k v :
  NoDup d.*1 -> NoDup (dict_set d k v).*1.
Proof.
  intros Hnd. destruct (decide (k ∈ d.*1)) as [Hin|Hout].
  - now rewrite dict_set_keys.
  - rewrite dict_set_fresh by exact Hout. rewrite fmap_app.
    apply NoDup_app. split; [exact Hnd|]. split; [|apply NoDup_singleton].
    intros x Hx Hx'. apply list_elem_of_singleton in Hx'. cbn in Hx'. now subst.
Qed.

Lemma dict_update_NoDup {A} (o d : dict A) :
  NoDup d.*1 -> NoDup (dict_update d o).*1.
Proof.
  unfold dict_update. revert d. induction o as [|[k v] r IH]; intros d Hnd.
  - exact Hnd.
  - cbn [fold_left fst snd]. apply IH. now apply dict_set_NoDup.
Qed.

Lemma dict_set_Forall {A} (P : string * A -> Prop) (d : dict A) k v :
  Forall P d -> P (k, v) -> Forall P (dict_set d k v).
Proof.
  intros Hd Hkv. induction Hd as [|[k' v'] r Hx Hr IH]; cbn [dict_set].
  - now constructor.
  - destruct (String.eqb_spec k' k) as [->|Hne]; constructor; assumption.
Qed.

Lemma dict_update_Forall {A} (P : string * A -> Prop) (o d : dict A) :
  Forall P d -> Forall P o -> Forall P (dict_update d o).
Proof.
  unfold dict_update. revert d. induction o as [|[k v] r IH]; intros d Hd Ho.
  - exact Hd.
  - inversion Ho; subst. cbn [fold_left fst snd]. apply IH; [|assumption].
    now apply dict_set_Forall.
Qed.

Lemma dict_get_Some_elem_of {A} (d : dict A) k v :
  dict_get d k = Some v -> (k, v) ∈ d.
Proof.
  induction d as [|[k' v'] r IH]; cbn [dict_get]; [discriminate|].
  destruct (String.eqb_spec k' k) as [->|Hne]; intros H.
  - inversion H; subst. now left.
  - right. now apply IH.
Qed.

Lemma elem_of_flat_map_intro {A B} (f : A -> list B) (l : list A) y x :
  y ∈ l -> x ∈ f y -> x ∈ flat_map f l.
Proof.
  induction l as [|a r IH]; intros Hy Hx; [now apply elem_of_nil in Hy|].
  cbn [flat_map]. apply elem_of_app.
  apply elem_of_cons in Hy as [->|Hy]; [now left | right; now apply IH].
Qed.

Module FlattenLaws.
Import Flatten FlattenPaths FlattenFacts.

#[local] Arguments flatten_value : simpl never.
#[local] Arguments flat_entries : simpl never.
#[local] Arguments nested_value : simpl never.
#[local] Arguments lookups : simpl never.

Lemma lookups_unfold items prefix sep :
  lookups (PyDict items) prefix sep = flat_map (lookup_entry prefix sep) items.
Proof. reflexivity. Qed.

Lemma nested_step_set flat prefix sep acc k x :
  exists y, nested_step flat prefix sep acc (k, x) = dict_set acc k y.
Proof.
  unfold nested_step. destruct (is_basic x); [eauto|].
  destruct (is_basic_seq x); [eauto|]. destruct x; eauto.
Qed.

Lemma nested_fold_keys flat prefix sep (items acc : dict PyVal) :
  (forall kv, kv ∈ items -> kv.1 ∈ acc.*1) ->
  (fold_left (nested_step flat prefix sep) items acc).*1 = acc.*1.
Proof.
  revert acc. induction items as [|[k x] r IH]; intros acc Hsub; [reflexivity|].
  cbn [fold_left]. destruct (nested_step_set flat prefix sep acc k x) as [y ->].
  assert (Hk : k ∈ acc.*1) by (apply (Hsub (k, x)); now left).
  rewrite IH.
  - now apply dict_set_keys.
  - intros kv Hkv. rewrite dict_set_keys by exact Hk. apply Hsub. now right.
Qed.

(** One round of the loop reads [flat_dict] only at the keys of
    [lookup_entry]. *)
Lemma nested_step_agree flat flat' prefix sep acc k x :
  nested_value x flat (prefix ++ k ++ sep) sep
  = nested_value x flat' (prefix ++ k ++ sep) sep ->
  (is_dict x = false -> dict_get flat (prefix ++ k) = dict_get flat' (prefix ++ k)) ->
  nested_step flat prefix sep acc (k, x) = nested_step flat' prefix sep acc (k, x).
Proof.
  intros Hrec Hget. unfold nested_step, get_default.
  destruct x; cbn [is_basic is_basic_seq is_dict] in *;
    rewrite ?Hget by reflexivity; try reflexivity.
  now rewrite Hrec.
Qed.

Lemma nested_value_agree sep flat flat' v :
  forall prefix,
    (forall p, p ∈ lookups v prefix sep -> dict_get flat p = dict_get flat' p) ->
    nested_value v flat prefix sep = nested_value v flat' prefix sep.
Proof.
  induction v using PyVal_nested_ind; intros prefix Hget; try reflexivity.
  rewrite !nested_value_unfold. f_equal.
  rewrite lookups_unfold in Hget.
  revert Hget H. generalize d at 4 6 as acc.
  induction d as [|[k x] r IHr]; intros acc Hget HIH; cbn [fold_left flat_map] in *.
  - reflexivity.
  - inversion HIH as [|? ? Hx Hr]; subst. cbn [snd] in Hx.
    rewrite (nested_step_agree flat flat').
    + apply IHr; [|exact Hr].
      intros p Hp. apply Hget. apply elem_of_app. now right.
    + destruct x; try reflexivity. apply Hx.
      intros p Hp. apply Hget. apply elem_of_app. now left.
    + intros Hd. apply Hget. apply elem_of_app. left.
      destruct x; try discriminate; now left.
Qed.

Lemma nested_step_keep prefix sep (a_dict : dict PyVal) k x :
  NoDup (a_dict.*1) -> (k, x) ∈ a_dict ->
  nested_value x [] (prefix ++ k ++ sep) sep = x ->
  nested_step [] prefix sep a_dict (k, x) = a_dict.
Proof.
  intros Hnd Hin Hrec. unfold nested_step, get_default. cbn [dict_get].
  destruct x; cbn [is_basic is_basic_seq is_dict];
    try (destruct (forallb is_basic l)); try (now apply dict_set_same).
  rewrite Hrec. destruct d; now apply dict_set_same.
Qed.

(** Overlaying the empty flat mapping changes nothing. *)
Lemma nested_value_nil sep v :
  forall prefix, dict_wf v -> nested_value v [] prefix sep = v.
Proof.
  induction v using PyVal_nested_ind; intros prefix Hwf; try reflexivity.
  rewrite nested_value_unfold. f_equal.
  apply dict_wf_PyDict in Hwf as [Hnd Hwf].
  assert (Hsub : forall kv, kv ∈ d -> kv ∈ d) by auto.
  revert Hsub Hwf H.
  generalize d at 1 3 4 5 as items.
  induction items as [|[k x] r IHr]; intros Hsub Hwf HIH; cbn [fold_left] in *.
  - reflexivity.
  - inversion Hwf as [|? ? Hwx Hwr]; subst.
    inversion HIH as [|? ? Hx Hr]; subst. cbn [snd] in Hwx, Hx.
    rewrite nested_step_keep.
    + apply IHr; trivial. intros kv Hkv. apply Hsub. now right.
    + exact Hnd.
    + apply Hsub. now left.
    + now apply Hx.
Qed.

(** The accumulator of [flatten_dictionary] has distinct keys and no
    mapping with entries among its values, after every round. *)
Lemma flatten_value_flat sep v :
  forall prefix,
    NoDup (flatten_value v prefix sep).*1 /\ is_flat (flatten_value v prefix sep).
Proof.
  induction v using PyVal_nested_ind; intros prefix;
    try (split; [constructor | constructor]).
  rewrite flatten_value_unfold.
  assert (Hacc : NoDup (@nil (string * PyVal)).*1 /\ is_flat [])
    by (split; constructor).
  revert Hacc. generalize (@nil (string * PyVal)) as acc.
  induction H as [|[k x] r Hx _ IHr]; intros acc [Hnd Hfl]; cbn [fold_left].
  - now split.
  - apply IHr. cbn [snd] in Hx. unfold flatten_step.
    assert (Hleaf : forall key, (forall e t, x <> PyDict (e :: t)) ->
              NoDup (dict_set acc key x).*1 /\ is_flat (dict_set acc key x)).
    { intros key Hne. split; [now apply dict_set_NoDup|].
      apply dict_set_Forall; [exact Hfl | exact Hne]. }
    destruct x as [| | | | |l|l|d']; cbn [is_basic is_basic_seq];
      try (destruct (forallb is_basic l)); try (apply Hleaf; discriminate).
    cbv zeta. destruct (Hx (prefix ++ k ++ sep)%string) as [Hnd' Hfl'].
    destruct (flatten_value (PyDict d') (prefix ++ k ++ sep) sep) as [|e t] eqn:He.
    + split; [now apply dict_set_NoDup|].
      apply dict_set_Forall; [exact Hfl | discriminate].
    + split; [now apply dict_update_NoDup | now apply dict_update_Forall].
Qed.

(** A flat mapping writes its own entries. *)
Lemma flat_entries_flat sep (d : dict PyVal) :
  is_flat d -> flat_entries (PyDict d) EmptyString sep = d.
Proof.
  rewrite flat_entries_unfold.
  induction 1 as [|[k x] r Hx _ IH]; cbn [flat_map]; [reflexivity|].
  rewrite IH. cbn [snd] in Hx. unfold flat_entry.
  destruct x as [| | | | | | |[|e t]]; try reflexivity.
  now destruct (Hx e t).
Qed.

(** A leaf under a path of keys is among the entries written, under the
    keys of its path joined by the separator. *)
Lemma at_path_entry sep path :
  forall v prefix leaf,
    path <> [] -> at_path v path = Some leaf -> is_dict leaf = false ->
    ((prefix ++ Render.join sep path)%string, leaf) ∈ flat_entries v prefix sep.
Proof.
  induction path as [|k rest IH]; intros v prefix leaf Hne Hat Hleaf; [congruence|].
  cbn [at_path] in Hat. destruct v as [| | | | | | |d]; try discriminate.
  destruct (dict_get d k) as [x|] eqn:Hk; [|discriminate].
  apply dict_get_Some_elem_of in Hk. rewrite flat_entries_unfold.
  apply (elem_of_flat_map_intro _ _ (k, x)); [exact Hk|].
  destruct rest as [|k' rest'].
  - cbn [at_path] in Hat. inversion Hat; subst x. cbn [Render.join].
    unfold flat_entry. destruct leaf; try discriminate; now left.
  - assert (Hrest : k' :: rest' <> []) by discriminate.
    assert (Hx : exists e t, x = PyDict (e :: t)).
    { cbn [at_path] in Hat. destruct x as [| | | | | | |[|e t]]; try discriminate; eauto. }
    destruct Hx as (e & t & ->).
    specialize (IH (PyDict (e :: t)) (prefix ++ k ++ sep)%string leaf Hrest Hat Hleaf).
    unfold flat_entry.
    change (Render.join sep (k :: k' :: rest'))
      with (k ++ sep ++ Render.join sep (k' :: rest'))%string.
    now rewrite !append_assoc_s in IH.
Qed.

(** X1.  For a skeleton [a_dict] whose keys are strings (the mappings of
    the model: [k = str(k)] is then the identity),
    [nested_from_flat_dictionary] returns a mapping with the keys of the
    skeleton, in the same order: whatever [flat_dict] holds, no key is
    added, dropped or moved. *)
Theorem unflatten_keeps_keys (a_dict flat_dict : dict PyVal) (prefix sep : string) :
  exists d,
    nested_from_flat_dictionary a_dict flat_dict prefix sep = PyDict d /\
    dict_keys d = dict_keys a_dict.
Proof.
  unfold nested_from_flat_dictionary. rewrite nested_value_unfold.
  eexists. split; [reflexivity|]. unfold dict_keys.
  apply (nested_fold_keys flat_dict prefix sep a_dict a_dict).
  intros kv Hkv. apply list_elem_of_fmap. now exists kv.
Qed.

(** X2.  [nested_from_flat_dictionary] reads [flat_dict] only at the paths
    of the skeleton's leaves: two flat mappings that agree there give the
    same result. *)
Theorem unflatten_reads_leaf_paths_only
  (a_dict flat_dict flat_dict' : dict PyVal) (prefix sep : string) :
  (forall p, p ∈ lookups (PyDict a_dict) prefix sep ->
             dict_get flat_dict p = dict_get flat_dict' p) ->
  nested_from_flat_dictionary a_dict flat_dict prefix sep
  = nested_from_flat_dictionary a_dict flat_dict' prefix sep.
Proof. intros H. now apply nested_value_agree. Qed.

(** X3.  For a skeleton whose keys are strings at every depth (the
    mappings of the model: [k = str(k)] is then the identity), a flat
    mapping that holds none of the skeleton's leaf paths (the empty one,
    for instance) leaves the skeleton as it is. *)
Theorem unflatten_missing_keys_keep_skeleton
  (a_dict flat_dict : dict PyVal) (prefix sep : string) :
  dict_wf (PyDict a_dict) ->
  (forall p, p ∈ lookups (PyDict a_dict) prefix sep -> dict_get flat_dict p = None) ->
  nested_from_flat_dictionary a_dict flat_dict prefix sep = PyDict a_dict.
Proof.
  intros Hwf Hnone. unfold nested_from_flat_dictionary.
  rewrite (nested_value_agree sep flat_dict [] (PyDict a_dict) prefix).
  - now apply nested_value_nil.
  - intros p Hp. now rewrite Hnone.
Qed.

(** X4.  The result of [flatten_dictionary] is flat: its keys are pairwise
    distinct and none of its values is a mapping with entries. *)
Theorem flatten_result_is_flat (a_dict : dict PyVal) (prefix sep : string) :
  NoDup (dict_keys (flatten_dictionary a_dict prefix sep)) /\
  is_flat (flatten_dictionary a_dict prefix sep).
Proof. apply (flatten_value_flat sep (PyDict a_dict) prefix). Qed.

(** X5.  Flattening is idempotent: flattening a flattened mapping again,
    with the default empty prefix and any separator, returns it
    unchanged. *)
Theorem flatten_idempotent (a_dict : dict PyVal) (prefix sep sep' : string) :
  flatten_dictionary (flatten_dictionary a_dict prefix sep) EmptyString sep'
  = flatten_dictionary a_dict prefix sep.
Proof.
  destruct (flatten_value_flat sep (PyDict a_dict) prefix) as [Hnd Hfl].
  unfold flatten_dictionary at 1.
  rewrite flatten_value_entries; rewrite flat_entries_flat; trivial.
Qed.

(** X6.  When the flat keys of a mapping are pairwise distinct, every leaf
    is found in the flattened mapping under the keys of its path joined by
    the separator, after the prefix. *)
Theorem flatten_lookup_by_path (a_dict : dict PyVal) (prefix sep : string)
  (path : list string) (leaf : PyVal) :
  NoDup (flat_paths a_dict prefix sep) ->
  path <> [] ->
  at_path (PyDict a_dict) path = Some leaf ->
  is_dict leaf = false ->
  dict_get (flatten_dictionary a_dict prefix sep)
    (prefix ++ Render.join sep path)%string = Some leaf.
Proof.
  intros Hnd Hne Hat Hleaf. unfold flatten_dictionary.
  rewrite (flatten_value_entries sep (PyDict a_dict) prefix Hnd).
  apply dict_get_elem_of; [exact Hnd|]. now apply at_path_entry.
Qed.

Lemma unflatten_reads_leaf_paths_only_witness :
  nested_from_flat_dictionary nested_sample [("x", PyInt 7); ("y", PyInt 1)] "" "/"
  = nested_from_flat_dictionary nested_sample [("x", PyInt 7)] "" "/".
Proof.
  apply (unflatten_reads_leaf_paths_only nested_sample
           [("x", PyInt 7); ("y", PyInt 1)] [("x", PyInt 7)] "" "/").
  intros p Hp. vm_compute in Hp.
  repeat (apply elem_of_cons in Hp as [->|Hp]; [reflexivity|]).
  now apply elem_of_nil in Hp.
Defined.

Lemma unflatten_missing_keys_keep_skeleton_witness :
  nested_from_flat_dictionary nested_sample [("y", PyInt 1)] "" "/"
  = PyDict nested_sample.
Proof.
  apply (unflatten_missing_keys_keep_skeleton nested_sample [("y", PyInt 1)] "" "/").
  - apply dict_wf_PyDict. split.
    + apply (bool_decide_unpack _). vm_compute. exact I.
    + repeat constructor; simpl; try (apply (bool_decide_unpack _); vm_compute; exact I).
  - intros p Hp. vm_compute in Hp.
    repeat (apply elem_of_cons in Hp as [->|Hp]; [reflexivity|]).
    now apply elem_of_nil in Hp.
Defined.

Lemma flatten_lookup_by_path_witness :
  dict_get (flatten_dictionary nested_sample "" "/") "a/b/c"
  = Some (PyList [PyInt 1; PyInt 2]).
Proof.
  apply (flatten_lookup_by_path nested_sample "" "/" ["a"; "b"; "c"]
           (PyList [PyInt 1; PyInt 2])).
  - apply (bool_decide_unpack _). vm_compute. exact I.
  - discriminate.
  - reflexivity.
  - reflexivity.
Defined.

End FlattenLaws.

(** ** Decimal numerals: [str] and [int] are inverse *)

Module PyStrFacts.
Import PyStr BasicTypes.

#[local] Open Scope Z_scope.

Lemma digit_char_spec d :
  0 <= d < 10 -> is_digit (digit_char d) = true /\ digit_value (digit_char d) = d.
Proof.
  intros Hd.
  assert (H : d = 0 \/ d = 1 \/ d = 2 \/ d = 3 \/ d = 4 \/ d = 5 \/ d = 6 \/
              d = 7 \/ d = 8 \/ d = 9) by lia.
  repeat (destruct H as [->|H]; [split; reflexivity|]). subst. split; reflexivity.
Qed.

Lemma read_digits_digit c r a k :
  is_digit c = true ->
  read_digits (String c r) a k = read_digits r (10 * a + digit_value c) (S k).
Proof. intros H. cbn [read_digits]. now rewrite H. Qed.

(** Reading back the digits [digits_of] writes in front of [acc]: there
    are [len] of them, no more than [n] needs. *)
Lemma read_digits_of fuel :
  forall n acc,
    0 <= n < 2 ^ Z.of_nat (S fuel) ->
    exists len : nat,
      (1 <= len)%nat /\
      10 ^ (Z.of_nat len - 1) <= Z.max 1 n /\
      forall a k,
        read_digits (digits_of (S fuel) n acc) a k
        = read_digits acc (a * 10 ^ Z.of_nat len + n) (k + len)%nat.
Proof.
  induction fuel as [|fuel IH]; intros n acc Hn.
  - exists 1%nat. split; [lia|]. split; [change (10 ^ (Z.of_nat 1 - 1)) with 1; lia|].
    intros a k. cbn [digits_of].
    assert (Hlt : n < 10) by (change (2 ^ Z.of_nat 1) with 2 in Hn; lia).
    apply Z.ltb_lt in Hlt as Hb. rewrite Hb.
    destruct (digit_char_spec (n mod 10)) as [Hd Hv]; [apply Z.mod_pos_bound; lia|].
    rewrite (read_digits_digit _ _ _ _ Hd), Hv, Z.mod_small by lia.
    f_equal; [f_equal; change (10 ^ Z.of_nat 1) with 10; lia | lia].
  - destruct (digit_char_spec (n mod 10)) as [Hd Hv]; [apply Z.mod_pos_bound; lia|].
    change (digits_of (S (S fuel)) n acc)
      with (let acc' := String (digit_char (n mod 10)) acc in
            if n <? 10 then acc' else digits_of (S fuel) (n / 10) acc').
    cbv zeta. destruct (Z.ltb_spec n 10) as [Hlt|Hge].
    + exists 1%nat. split; [lia|]. split; [change (10 ^ (Z.of_nat 1 - 1)) with 1; lia|].
      intros a k.
      rewrite (read_digits_digit _ _ _ _ Hd), Hv, Z.mod_small by lia.
      f_equal; [f_equal; change (10 ^ Z.of_nat 1) with 10; lia | lia].
    + destruct (IH (n / 10) (String (digit_char (n mod 10)) acc))
        as (len & Hlen & Hbound & Hread).
      { split; [apply Z.div_pos; lia|].
        apply Z.div_lt_upper_bound; [lia|].
        rewrite (Nat2Z.inj_succ (S fuel)), Z.pow_succ_r in Hn by lia. lia. }
      pose proof (Z.div_mod n 10 ltac:(lia)) as Hdm.
      pose proof (Z.mod_pos_bound n 10 ltac:(lia)) as Hmod.
      exists (S len). split; [lia|]. split.
      * replace (Z.of_nat (S len) - 1) with (Z.succ (Z.of_nat len - 1)) by lia.
        rewrite Z.pow_succ_r by lia.
        assert (1 <= n / 10) by (apply Z.div_le_lower_bound; lia). lia.
      * intros a k.
        rewrite Hread, (read_digits_digit _ _ _ _ Hd), Hv.
        rewrite (Nat2Z.inj_succ len), Z.pow_succ_r by lia.
        f_equal; [|lia]. set (p := 10 ^ Z.of_nat len). lia.
Qed.

Lemma digits_of_all fuel :
  forall n acc,
    0 <= n -> all_chars is_digit acc = true ->
    all_chars is_digit (digits_of fuel n acc) = true.
Proof.
  induction fuel as [|fuel IH]; intros n acc Hn Hacc; [exact Hacc|].
  cbn [digits_of].
  destruct (digit_char_spec (n mod 10)) as [Hd _]; [apply Z.mod_pos_bound; lia|].
  assert (Hacc' : all_chars is_digit (String (digit_char (n mod 10)) acc) = true)
    by (cbn [all_chars]; now rewrite Hd).
  destruct (n <? 10); [exact Hacc'|].
  apply IH; [apply Z.div_pos; lia | exact Hacc'].
Qed.

Lemma digits_of_nonempty fuel :
  forall n acc, acc <> EmptyString -> digits_of fuel n acc <> EmptyString.
Proof.
  induction fuel as [|fuel IH]; intros n acc Hacc; [exact Hacc|].
  cbn [digits_of]. destruct (n <? 10); [discriminate|]. now apply IH.
Qed.

Lemma log2_fuel n : 0 <= n -> n < 2 ^ Z.of_nat (S (Z.to_nat (Z.log2 n))).
Proof.
  intros Hn. rewrite Nat2Z.inj_succ, Z2Nat.id by apply Z.log2_nonneg.
  destruct (Z.eq_dec n 0) as [->|Hne]; [reflexivity|].
  apply Z.log2_spec. lia.
Qed.

(** [str(n)] for [n >= 0] is a non-empty run of digits that reads back as
    [n]; it has no more digits than [n] needs. *)
Lemma str_of_nonneg_spec n :
  0 <= n ->
  all_chars is_digit (str_of_nonneg n) = true /\
  (exists c r, str_of_nonneg n = String c r) /\
  exists len : nat,
    read_digits (str_of_nonneg n) 0 0 = (n, S len, EmptyString) /\
    10 ^ Z.of_nat len <= Z.max 1 n.
Proof.
  intros Hn. unfold str_of_nonneg. split; [|split].
  - now apply digits_of_all.
  - destruct (digits_of (S (Z.to_nat (Z.log2 n))) n EmptyString) as [|c r] eqn:He;
      [|eauto].
    exfalso. revert He. cbn [digits_of].
    destruct (n <? 10); [discriminate|]. now apply digits_of_nonempty.
  - destruct (read_digits_of (Z.to_nat (Z.log2 n)) n EmptyString)
      as (len & Hlen & Hbound & Hread).
    { split; [exact Hn | now apply log2_fuel]. }
    destruct len as [|len]; [lia|]. exists len. rewrite Hread. cbn [read_digits].
    split; [now rewrite Z.mul_0_l, Z.add_0_l|].
    replace (Z.of_nat (S len) - 1) with (Z.of_nat len) in Hbound by lia. exact Hbound.
Qed.

Lemma digit_not_space c : is_digit c = true -> is_space c = false.
Proof.
  destruct c as [[] [] [] [] [] [] [] []]; intros H; try reflexivity;
    discriminate H.
Qed.

Lemma digit_no_sign c r :
  is_digit c = true -> read_sign (String c r) = (false, String c r).
Proof.
  destruct c as [[] [] [] [] [] [] [] []]; intros H; try reflexivity;
    discriminate H.
Qed.

Lemma all_chars_impl (p q : ascii -> bool) s :
  (forall c, p c = true -> q c = true) ->
  all_chars p s = true -> all_chars q s = true.
Proof.
  intros Hpq. induction s as [|c r IH]; [reflexivity|]. cbn [all_chars].
  intros H. apply andb_true_iff in H as [Hc Hr].
  now rewrite (Hpq c Hc), IH.
Qed.

Lemma rstrip_with_none p s :
  all_chars (fun c => negb (p c)) s = true -> rstrip_with p s = s.
Proof.
  induction s as [|c r IH]; [reflexivity|]. cbn [all_chars rstrip_with].
  intros H. apply andb_true_iff in H as [Hc Hr]. rewrite (IH Hr).
  apply negb_true_iff in Hc. rewrite Hc. now destruct r.
Qed.

(** A string that starts with a character that is no space and has no
    space in it is not changed by [strip], nor by what [int] skips. *)
Lemma strip_none c r :
  is_space c = false -> all_chars (fun c => negb (is_space c)) r = true ->
  strip (String c r) = String c r.
Proof.
  intros Hc Hr. unfold strip. cbn [lstrip_with]. rewrite Hc.
  apply rstrip_with_none. cbn [all_chars]. now rewrite Hc, Hr.
Qed.

Lemma num_strip_none c r :
  is_num_space c = false -> all_chars (fun c => negb (is_num_space c)) r = true ->
  num_strip (String c r) = String c r.
Proof.
  intros Hc Hr. unfold num_strip. cbn [lstrip_with]. rewrite Hc.
  apply rstrip_with_none. cbn [all_chars]. now rewrite Hc, Hr.
Qed.

Lemma digit_not_num_space c : is_digit c = true -> is_num_space c = false.
Proof.
  destruct c as [[] [] [] [] [] [] [] []]; intros H; try reflexivity;
    discriminate H.
Qed.

Lemma digits_no_space s :
  all_chars is_digit s = true -> all_chars (fun c => negb (is_space c)) s = true.
Proof.
  apply all_chars_impl. intros c Hc. now rewrite (digit_not_space c Hc).
Qed.

Lemma digits_no_num_space s :
  all_chars is_digit s = true -> all_chars (fun c => negb (is_num_space c)) s = true.
Proof.
  apply all_chars_impl. intros c Hc. now rewrite (digit_not_num_space c Hc).
Qed.

(** A number below [10 ^ 4300] is written with 4300 digits at most. *)
Lemma within_limit n (len : nat) :
  0 <= n < 10 ^ int_max_str_digits -> 10 ^ Z.of_nat len <= Z.max 1 n ->
  (int_max_str_digits <? Z.of_nat (S len)) = false.
Proof.
  intros Hn Hlen. apply Z.ltb_ge.
  assert (H1 : 1 < 10 ^ int_max_str_digits).
  { apply (Z.lt_le_trans _ (10 ^ 1)); [reflexivity|].
    apply Z.pow_le_mono_r; [lia | discriminate]. }
  assert (Hlt : 10 ^ Z.of_nat len < 10 ^ int_max_str_digits) by lia.
  apply Z.pow_lt_mono_r_iff in Hlt; [lia | lia | discriminate].
Qed.

(** [int(str(z)) == z], for [z] of 4300 digits at most. *)
Lemma int_of_str_of_int z :
  Z.abs z < 10 ^ int_max_str_digits -> int_of_str (str_of_int z) = Ok (PyInt z).
Proof.
  intros Hz. unfold int_of_str, str_of_int. destruct (Z.ltb_spec z 0) as [Hneg|Hpos].
  - destruct (str_of_nonneg_spec (- z)) as (Hall & _ & len & Hread & Hlen); [lia|].
    rewrite num_strip_none; [|reflexivity | now apply digits_no_num_space].
    cbn [read_sign]. rewrite Hread, (within_limit (- z) len) by (try exact Hlen; lia).
    f_equal. f_equal. lia.
  - destruct (str_of_nonneg_spec z Hpos) as (Hall & (c & r & Hs) & len & Hread & Hlen).
    rewrite Hs in *. cbn [all_chars] in Hall.
    apply andb_true_iff in Hall as [Hc Hr].
    rewrite num_strip_none; [|now apply digit_not_num_space | now apply digits_no_num_space].
    rewrite (digit_no_sign c r Hc), Hread, (within_limit z len) by (try exact Hlen; lia).
    reflexivity.
Qed.

End PyStrFacts.

(** ** Casting and type tags: further properties *)

Module CastLaws.
Import PyStr Render Decode Cast BasicTypes PyStrFacts.

Lemma try_except_total {A} (body : outcome A) (handler : outcome A) :
  (exists r, handler = Ok r) -> exists r, try_except body handler = Ok r.
Proof. intros [r ->]. destruct body; cbn; eauto. Qed.

(** With a tag whose first part is [list], [tuple] or [dict], the cast is
    the decoded value handed to the constructor, under the two [try]
    blocks. *)
Lemma cast_container_unfold (value type_str : string) :
  String.eqb type_str "" = false ->
  existsb (String.eqb (hd EmptyString (split "/" type_str))) ["list"; "tuple"; "dict"]
  = true ->
  cast_basic_type value type_str
  = try_except
      (bind (json_loads value)
         (call_basic_type (hd EmptyString (split "/" type_str))))
      (try_except
         (bind (yaml_load ("[" ++ rstrip (lstrip value "[(") "])" ++ "]"))
            (call_basic_type (hd EmptyString (split "/" type_str))))
         (Ok (PyStr value))).
Proof. intros He Hc. unfold cast_basic_type. now rewrite He, Hc. Qed.

Lemma cast_scalar_unfold (value type_str : string) :
  String.eqb type_str "" = false ->
  existsb (String.eqb (hd EmptyString (split "/" type_str))) ["list"; "tuple"; "dict"]
  = false ->
  cast_basic_type value type_str
  = match basic_types (strip (lower type_str)) with
    | Some t => try_except (t (PyStr value)) (Ok (PyStr value))
    | None => Ok (PyStr value)
    end.
Proof. intros He Hc. unfold cast_basic_type. now rewrite He, Hc. Qed.

(** What the constructors of the table return has the type they name. *)
Lemma call_basic_type_type name v r :
  call_basic_type name v = Ok r ->
  existsb (String.eqb name) ["float"; "int"; "str"; "list"; "tuple"; "dict"; "bool"]
  = true /\
  __name__ (type_of r) = name.
Proof.
  unfold call_basic_type, basic_types.
  repeat match goal with
         | |- context [String.eqb name ?s] =>
             destruct (String.eqb_spec name s) as [->|?]
         end; try discriminate; intros H; (split; [reflexivity|]).
  - unfold py_float in H. destruct v; try discriminate; cycle 3.
    + unfold float_of_str in H.
      repeat match type of H with
             | (let '(_, _) := ?x in _) = _ => destruct x
             | (if ?b then _ else _) = _ => destruct b
             | match ?x with _ => _ end = _ => destruct x
             end; try discriminate; now inversion H.
    + now inversion H.
    + destruct (float_of_int z); [|discriminate H]. now inversion H.
    + now inversion H.
  - unfold py_int in H. destruct v; try discriminate.
    + now inversion H.
    + now inversion H.
    + destruct (Prim2SF f); try discriminate; now inversion H.
    + unfold int_of_str, int_limit_error in H.
      repeat match type of H with
             | (let '(_, _) := ?x in _) = _ => destruct x
             | (if ?b then _ else _) = _ => destruct b
             | match ?x with _ => _ end = _ => destruct x
             end; try discriminate; now inversion H.
  - now inversion H.
  - unfold py_list in H. destruct (py_iter v); [|discriminate]. now inversion H.
  - unfold py_tuple in H. destruct (py_iter v); [|discriminate]. now inversion H.
  - unfold py_dict in H. destruct v; try discriminate;
      try (inversion H; reflexivity);
      match type of H with
      | bind ?a _ = _ => destruct a; [|discriminate]
      end; cbn [bind] in H;
      match type of H with
      | bind ?a _ = _ => destruct a; [|discriminate]
      end; now inversion H.
  - destruct v; try discriminate. unfold convert_bool in H.
    repeat match type of H with
           | (if ?b then _ else _) = _ => destruct b
           end; try discriminate; now inversion H.
Qed.

Lemma bind_Ok {A B} (m : outcome A) (k : A -> outcome B) r :
  bind m k = Ok r -> exists a, m = Ok a /\ k a = Ok r.
Proof. destruct m as [a|e]; cbn; [eauto | discriminate]. Qed.

(** Whatever the tag, what the cast returns is the string itself, [None]
    (for the empty string and the empty tag), or a value of the type the
    tag names: by its first part for a container, else by the tag stripped
    and lower-cased. *)
Lemma cast_result value type_str :
  exists r,
    cast_basic_type value type_str = Ok r /\
    (r = PyStr value \/ (r = PyNone /\ type_str = EmptyString) \/
     __name__ (type_of r) = hd EmptyString (split "/" type_str) \/
     __name__ (type_of r) = strip (lower type_str)).
Proof.
  destruct (String.eqb_spec type_str "") as [->|Hne].
  - unfold cast_basic_type. cbn [String.eqb].
    destruct (String.eqb value ""); eauto 6.
  - apply String.eqb_neq in Hne.
    destruct (existsb (String.eqb (hd EmptyString (split "/" type_str)))
                ["list"; "tuple"; "dict"]) eqn:Hc.
    + rewrite (cast_container_unfold _ _ Hne Hc).
      set (name := hd EmptyString (split "/" type_str)).
      destruct (bind (json_loads value) (call_basic_type name)) as [r|e] eqn:E1.
      * apply bind_Ok in E1 as (j & _ & Hr).
        apply call_basic_type_type in Hr as [_ Hr]. cbn [try_except]. eauto 6.
      * cbn [try_except].
        destruct (bind (yaml_load ("[" ++ rstrip (lstrip value "[(") "])" ++ "]"))
                    (call_basic_type name)) as [r|e'] eqn:E2.
        -- apply bind_Ok in E2 as (j & _ & Hr).
           apply call_basic_type_type in Hr as [_ Hr]. cbn [try_except]. eauto 6.
        -- cbn [try_except]. eauto.
    + rewrite (cast_scalar_unfold _ _ Hne Hc).
      pose proof (call_basic_type_type (strip (lower type_str)) (PyStr value)) as Ht.
      unfold call_basic_type in Ht.
      destruct (basic_types (strip (lower type_str))) as [t|]; [|eauto].
      destruct (t (PyStr value)) as [r|e]; cbn [try_except]; [|eauto].
      destruct (Ht r eq_refl) as [_ Hr]. eauto 6.
Qed.

(** The tag of a value: the name of its type, followed for a container by
    a slash and the name of the type of its items, when they have one. *)
Lemma get_basic_type_cases v :
  get_basic_type v = __name__ (type_of v) \/
  (is_container_type (type_of v) = true /\
   exists x, get_basic_type v = (__name__ (type_of v) ++ "/" ++ __name__ (type_of x))%string).
Proof.
  destruct v as [| | | | |[|x l]|[|x l]|[|[k x] d]]; try (left; reflexivity);
    unfold get_basic_type;
    match goal with
    | |- context [if ?b then _ else _] => destruct b
    end; try (left; reflexivity);
    right; (split; [reflexivity|]); exists x; destruct x; reflexivity.
Qed.

(** X7.  [cast_basic_type] never raises: whatever the string and the tag,
    every exception of the decoders and the constructors is caught, and a
    value is returned. *)
Theorem cast_never_raises (value type_str : string) :
  exists r, cast_basic_type value type_str = Ok r.
Proof. destruct (cast_result value type_str) as (r & Hr & _). eauto. Qed.

(** X8.  Casting any string with the tag [get_basic_type] gives for a value
    returns a value of that value's type, or the string unchanged. *)
Theorem cast_with_tag_of_value (v : PyVal) (value : string) :
  exists r,
    cast_basic_type value (get_basic_type v) = Ok r /\
    (type_of r = type_of v \/ r = PyStr value).
Proof.
  destruct (cast_result value (get_basic_type v)) as (r & Hr & Hcases).
  exists r. split; [exact Hr|].
  destruct Hcases as [->|[[-> He]|Hname]]; [now right| |].
  - destruct (get_basic_type_cases v) as [Hg|(_ & x & Hg)]; rewrite Hg in He;
      destruct v; try destruct x; discriminate He.
  - left.
    destruct (get_basic_type_cases v) as [Hg|(Hc & x & Hg)]; rewrite Hg in Hname.
    + destruct v, r; vm_compute in Hname;
        destruct Hname as [Hname|Hname]; try discriminate Hname; reflexivity.
    + destruct v; try discriminate Hc;
        destruct x, r; vm_compute in Hname;
        destruct Hname as [Hname|Hname]; try discriminate Hname; reflexivity.
Qed.

(** X9.  For every [bool], every [int] of 4300 digits at most (the most
    that [str] writes and [int] reads) and every [str], casting the [str]
    rendering of the value with the value's own tag gives the value back. *)
Theorem cast_roundtrip_bool_int_str :
  (forall b, cast_basic_type (py_str (PyBool b)) (get_basic_type (PyBool b))
             = Ok (PyBool b)) /\
  (forall z, (Z.abs z < 10 ^ int_max_str_digits)%Z ->
             cast_basic_type (py_str (PyInt z)) (get_basic_type (PyInt z))
             = Ok (PyInt z)) /\
  (forall s, cast_basic_type (py_str (PyStr s)) (get_basic_type (PyStr s))
             = Ok (PyStr s)).
Proof.
  split; [|split].
  - intros []; reflexivity.
  - intros z Hz.
    change (cast_basic_type (py_str (PyInt z)) (get_basic_type (PyInt z)))
      with (try_except (int_of_str (str_of_int z)) (Ok (PyStr (str_of_int z)))).
    now rewrite int_of_str_of_int.
  - intros s. reflexivity.
Qed.

Lemma cast_roundtrip_bool_int_str_witness :
  cast_basic_type (py_str (PyBool false)) (get_basic_type (PyBool false))
  = Ok (PyBool false) /\
  cast_basic_type (py_str (PyInt (- 1234567890123456789012345)%Z))
    (get_basic_type (PyInt (- 1234567890123456789012345)%Z))
  = Ok (PyInt (- 1234567890123456789012345)%Z) /\
  cast_basic_type (py_str (PyStr " 12 ")) (get_basic_type (PyStr " 12 "))
  = Ok (PyStr " 12 ").
Proof.
  destruct cast_roundtrip_bool_int_str as (Hb & Hz & Hs).
  split; [apply Hb|]. split; [|apply Hs].
  apply Hz. vm_compute. reflexivity.
Defined.

(** X10.  [get_type_from_basic_type_str] undoes [get_basic_type]: from the
    tag of a value it returns the type of the value, and [str] for
    [None], whose type it does not know. *)
Theorem type_of_tag_of_value (v : PyVal) :
  get_type_from_basic_type_str (get_basic_type v)
  = match v with
    | PyNone => t_str
    | _ => type_of v
    end.
Proof.
  destruct (get_basic_type_cases v) as [Hg|(Hc & x & Hg)]; rewrite Hg.
  - destruct v; reflexivity.
  - destruct v; try discriminate Hc; destruct x; reflexivity.
Qed.

Lemma split_hd_prefix sep s :
  exists rest, s = (hd EmptyString (split sep s) ++ rest)%string.
Proof.
  induction s as [|c r [rest IH]]; [now exists EmptyString|].
  cbn [split]. destruct (Ascii.eqb c sep); [now exists (String c r)|].
  destruct (split sep r) as [|p ps]; cbn [hd] in *.
  - now exists r.
  - exists rest. now rewrite IH at 1.
Qed.

Lemma lower_app a b : lower (a ++ b) = (lower a ++ lower b)%string.
Proof.
  induction a as [|c a IH]; [reflexivity|].
  rewrite FlattenFacts.append_cons. cbn [lower].
  now rewrite FlattenFacts.append_cons, IH.
Qed.

Lemma strip_head c r :
  is_space c = false -> exists r', strip (String c r) = String c r'.
Proof.
  intros Hc. unfold strip. cbn [lstrip_with]. rewrite Hc. cbn [rstrip_with].
  destruct (rstrip_with is_space r); rewrite ?Hc; eauto.
Qed.

(** A tag that names a container by its first part does not become the
    name of a primitive type when it is stripped and lower-cased. *)
Lemma container_tag_not_scalar type_str :
  existsb (String.eqb (hd EmptyString (split "/" type_str))) ["list"; "tuple"; "dict"]
  = true ->
  existsb (String.eqb (strip (lower type_str))) ["float"; "int"; "str"; "bool"]
  = false.
Proof.
  intros Hc. destruct (split_hd_prefix "/" type_str) as [rest Hts].
  cbn [existsb] in Hc. rewrite !orb_true_iff in Hc.
  destruct Hc as [Hc|[Hc|[Hc|Hc]]]; try discriminate Hc;
    apply String.eqb_eq in Hc; rewrite Hc in Hts; rewrite Hts, lower_app;
    match type of Hc with
    | _ = ?s => change (lower s) with s
    end;
    rewrite FlattenFacts.append_cons;
    match goal with
    | |- context [strip (String ?c ?r)] =>
        destruct (strip_head c r eq_refl) as [r' Hr']
    end; rewrite Hr'; reflexivity.
Qed.

(** X11.  The tag of a primitive type is matched whatever its case and the
    white space around it: the cast with such a tag is the cast with the
    tag stripped and lower-cased. *)
Theorem cast_scalar_tag_normalised (value type_str : string) :
  existsb (String.eqb (strip (lower type_str))) ["float"; "int"; "str"; "bool"]
  = true ->
  cast_basic_type value type_str
  = cast_basic_type value (strip (lower type_str)).
Proof.
  intros Hs.
  assert (Hne : String.eqb type_str "" = false).
  { destruct (String.eqb_spec type_str "") as [->|]; [discriminate Hs | reflexivity]. }
  assert (Hc : existsb (String.eqb (hd EmptyString (split "/" type_str)))
                 ["list"; "tuple"; "dict"] = false).
  { destruct (existsb _ ["list"; "tuple"; "dict"]) eqn:Hc; [|reflexivity].
    apply container_tag_not_scalar in Hc. congruence. }
  rewrite (cast_scalar_unfold _ _ Hne Hc).
  cbn [existsb] in Hs. rewrite !orb_true_iff in Hs.
  destruct Hs as [Hs|[Hs|[Hs|[Hs|Hs]]]]; try discriminate Hs;
    apply String.eqb_eq in Hs; rewrite Hs; reflexivity.
Qed.

(** X12.  The tag of a container is matched as it is written: with ["list"]
    or ["tuple"] in another case, or with white space around it, the string
    is not decoded; the constructor is called on the string itself and
    returns its characters. *)
Theorem cast_container_tag_exact (value type_str : string) :
  existsb (String.eqb (hd EmptyString (split "/" type_str))) ["list"; "tuple"; "dict"]
  = false ->
  (strip (lower type_str) = "list" ->
   cast_basic_type value type_str = Ok (PyList (chars value))) /\
  (strip (lower type_str) = "tuple" ->
   cast_basic_type value type_str = Ok (PyTuple (chars value))).
Proof.
  intros Hc.
  assert (Hne : strip (lower type_str) <> EmptyString -> String.eqb type_str "" = false).
  { destruct (String.eqb_spec type_str "") as [->|]; [now intros [] | reflexivity]. }
  split; intros Hs; rewrite (cast_scalar_unfold _ _ (Hne ltac:(now rewrite Hs)) Hc), Hs;
    reflexivity.
Qed.

Lemma cast_scalar_tag_normalised_witness :
  cast_basic_type "12" " INT " = cast_basic_type "12" "int".
Proof. apply (cast_scalar_tag_normalised "12" " INT "). reflexivity. Defined.

Lemma cast_container_tag_exact_witness :
  cast_basic_type "[1]" "List" = Ok (PyList [PyStr "["; PyStr "1"; PyStr "]"]) /\
  cast_basic_type "[1]" "list" = Ok (PyList [PyInt 1]).
Proof.
  split; [|reflexivity].
  apply (cast_container_tag_exact "[1]" "List"); reflexivity.
Defined.

End CastLaws.

(** ** The check for basic types *)

Module VerifyLaws.
Import BasicTypes.

Lemma verify_str k basic_types :
  verify_basic_type (PyStr k) basic_types = verify_key k basic_types.
Proof. reflexivity. Qed.

Lemma verify_default v :
  verify_basic_type v [t_float; t_int; t_bool; t_str] = verify_basic_type v [].
Proof. destruct v; reflexivity. Qed.

Lemma forallb_ext_Forall {A} (f g : A -> bool) l :
  Forall (fun x => f x = g x) l -> forallb f l = forallb g l.
Proof. induction 1 as [|x r Hx _ IH]; [reflexivity|]. cbn. now rewrite Hx, IH. Qed.

Lemma forallb_true {A} (l : list A) : forallb (fun _ => true) l = true.
Proof. now induction l. Qed.

Lemma verify_leaves v : py_truthy (verify_basic_type v []) = basic_leaves v.
Proof.
  induction v using PyVal_nested_ind; try reflexivity.
  - cbn. apply forallb_ext_Forall.
    eapply Forall_impl; [exact H|]. intros x Hx. cbn beta in *.
    now rewrite verify_default.
  - cbn. apply forallb_ext_Forall.
    eapply Forall_impl; [exact H|]. intros x Hx. cbn beta in *.
    now rewrite verify_default.
  - cbn. rewrite forallb_true. cbn. apply forallb_ext_Forall.
    eapply Forall_impl; [exact H|]. intros x Hx. cbn beta in *.
    now rewrite verify_default.
Qed.

Lemma filter_idem {A} (p : A -> bool) l :
  List.filter p (List.filter p l) = List.filter p l.
Proof.
  induction l as [|x r IH]; [reflexivity|]. cbn.
  destruct (p x) eqn:Hx; [|exact IH]. cbn. now rewrite Hx, IH.
Qed.

(** X13.  With the default types, [verify_basic_type] returns [True]
    exactly for the values all of whose leaves, through lists, tuples and
    the values of mappings, are of type [float], [int], [bool] or [str]. *)
Theorem verify_default_accepts_basic_leaves (v : PyVal) :
  verify_basic_type v [] = PyBool true <-> basic_leaves v = true.
Proof.
  rewrite <- verify_leaves. split; [now intros ->|].
  destruct v; cbn; try discriminate; try reflexivity; now intros ->.
Qed.

(** X14.  The keys of a mapping are checked against the same types as its
    values: when the types given hold a type that is no container but not
    [str], every mapping with an entry is refused. *)
Theorem verify_refuses_keys_without_str (d : dict PyVal) (basic_types : list pytype) :
  d <> [] ->
  (exists t, t ∈ basic_types /\ is_container_type t = false) ->
  t_str ∉ basic_types ->
  verify_basic_type (PyDict d) basic_types = PyBool false.
Proof.
  intros Hd (t & Ht & Hnc) Hstr. cbn [verify_basic_type].
  set (bt := effective_types basic_types).
  assert (Hbt : bt = List.filter (fun b => negb (is_container_type b)) basic_types).
  { unfold bt, effective_types. destruct basic_types; [now apply elem_of_nil in Ht | reflexivity]. }
  assert (Hin : t ∈ bt).
  { rewrite Hbt. apply list_elem_of_In, filter_In. split; [now apply list_elem_of_In|].
    now rewrite Hnc. }
  assert (Heff : effective_types bt = bt).
  { unfold effective_types. destruct bt as [|b r] eqn:E; [now apply elem_of_nil in Hin|].
    rewrite Hbt. now rewrite filter_idem. }
  assert (Hdict : isinstance (PyDict d) bt = false).
  { unfold isinstance. rewrite Hbt. clear. induction basic_types as [|b r IH]; [reflexivity|].
    cbn. destruct b; cbn; exact IH. }
  assert (Hkey : forall k, isinstance (PyStr k) bt = false).
  { intros k. unfold isinstance. rewrite Hbt. clear -Hstr.
    induction basic_types as [|b r IH]; [reflexivity|].
    apply not_elem_of_cons in Hstr as [Hb Hr]. cbn.
    destruct b; cbn; try (now apply IH). congruence. }
  rewrite Hdict. destruct d as [|[k x] r]; [congruence|].
  cbn [forallb fst]. unfold verify_key. now rewrite Heff, Hkey.
Qed.

(** X15.  When the types given are containers only, they are all dropped:
    a value that is no container is refused with [None], and a container
    is checked against the default types, as if none had been given. *)
Theorem verify_container_types_only (v : PyVal) (basic_types : list pytype) :
  basic_types <> [] ->
  Forall (fun t => is_container_type t = true) basic_types ->
  verify_basic_type v basic_types
  = if is_container_type (type_of v) then verify_basic_type v [] else PyNone.
Proof.
  intros Hne Hall.
  assert (Heff : effective_types basic_types = []).
  { unfold effective_types. destruct basic_types as [|b r]; [congruence|].
    clear Hne. induction Hall as [|x l Hx _ IH]; [reflexivity|]. cbn. now rewrite Hx. }
  assert (Hext : forall l : list PyVal,
             forallb (fun x => py_truthy (verify_basic_type x [])) l
             = forallb (fun x => py_truthy (verify_basic_type x [t_float; t_int; t_bool; t_str])) l).
  { intros l. apply forallb_ext_Forall, Forall_forall. intros x _.
    now rewrite verify_default. }
  destruct v; cbn [verify_basic_type type_of is_container_type]; rewrite Heff;
    try reflexivity; cbn [isinstance existsb effective_types]; f_equal.
  - apply Hext.
  - apply Hext.
  - apply f_equal2; [reflexivity|].
    apply forallb_ext_Forall, Forall_forall. intros x _. cbn beta.
    now rewrite verify_default.
Qed.

Lemma verify_refuses_keys_without_str_witness :
  verify_basic_type (PyDict [("a", PyInt 1)]) [t_int; t_float] = PyBool false.
Proof.
  apply (verify_refuses_keys_without_str [("a", PyInt 1)] [t_int; t_float]).
  - discriminate.
  - exists t_int. split; [now left | reflexivity].
  - intros H. repeat (apply elem_of_cons in H as [H|H]; [discriminate H|]).
    now apply elem_of_nil in H.
Defined.

Lemma verify_container_types_only_witness :
  verify_basic_type (PyInt 1) [t_list] = PyNone /\
  verify_basic_type (PyList [PyInt 1]) [t_list] = verify_basic_type (PyList [PyInt 1]) [].
Proof.
  split.
  - apply (verify_container_types_only (PyInt 1) [t_list]);
      [discriminate | repeat constructor].
  - apply (verify_container_types_only (PyList [PyInt 1]) [t_list]);
      [discriminate | repeat constructor].
Defined.

End VerifyLaws.

(** ** Walking nested containers: properties *)

Module WalkLaws.
Import Walk.

Section Callback.
Variable callback : PyVal -> outcome PyVal.

#[local] Abbreviation walk := (fun v => walk_nested_dict_tuple_list v callback).

(** What the loops call on an item. *)
Lemma walk_item v :
  (if is_nested v then walk_nested_dict_tuple_list v callback else callback v)
  = walk v.
Proof. destruct v; reflexivity. Qed.

Lemma fold_bind_Raise {A B} (step : B -> A -> outcome B) l e :
  fold_left (fun acc x => bind acc (fun b => step b x)) l (Raise e) = Raise e.
Proof. induction l as [|x r IH]; [reflexivity|]. cbn [fold_left bind]. exact IH. Qed.

(** The loop over a list or a tuple: the outcomes on the items, appended
    to [ret]. *)
Lemma list_loop (F : PyVal -> outcome PyVal) l :
  forall ret,
    fold_left (fun acc v => bind acc (fun ret => bind (F v) (fun r => Ok (ret ++ [r]))))
      l (Ok ret)
    = bind (mapM F l) (fun rs => Ok (ret ++ rs)).
Proof.
  induction l as [|x r IH]; intros ret; cbn [fold_left mapM bind].
  - now rewrite app_nil_r.
  - destruct (F x) as [y|e]; cbn [bind].
    + rewrite IH. destruct (mapM F r); cbn [bind]; [|reflexivity].
      now rewrite <- app_assoc.
    + apply fold_bind_Raise.
Qed.

(** The loop over a mapping: the outcomes on the values, stored under
    their keys. *)
Lemma dict_loop (F : PyVal -> outcome PyVal) (d : dict PyVal) :
  forall ret,
    fold_left
      (fun acc (kv : string * PyVal) =>
         let '(k, v) := kv in
         bind acc (fun ret => bind (F v) (fun r => Ok (dict_set ret k r))))
      d (Ok ret)
    = bind (mapM F (map snd d))
        (fun rs => Ok (dict_update ret (combine (map fst d) rs))).
Proof.
  induction d as [|[k x] r IH]; intros ret; cbn [fold_left mapM bind map fst snd].
  - reflexivity.
  - destruct (F x) as [y|e]; cbn [bind].
    + rewrite IH. destruct (mapM F (map snd r)); reflexivity.
    + clear IH. induction r as [|[k' x'] r IH]; [reflexivity|]. exact IH.
Qed.

Lemma walk_list l :
  walk (PyList l) = bind (mapM walk l) (fun rs => Ok (PyList rs)).
Proof.
  cbn [walk_nested_dict_tuple_list].
  rewrite (list_loop
             (fun v => if is_nested v then walk_nested_dict_tuple_list v callback
                       else callback v) l []).
  replace (mapM (fun v => if is_nested v then walk_nested_dict_tuple_list v callback
                          else callback v) l) with (mapM walk l).
  - now destruct (mapM walk l).
  - clear. induction l as [|x r IH]; [reflexivity|]. cbn [mapM].
    now rewrite walk_item, IH.
Qed.

Lemma walk_tuple l :
  walk (PyTuple l) = bind (mapM walk l) (fun _ => Ok (PyTuple l)).
Proof.
  cbn [walk_nested_dict_tuple_list].
  rewrite (list_loop
             (fun v => if is_nested v then walk_nested_dict_tuple_list v callback
                       else callback v) l []).
  replace (mapM (fun v => if is_nested v then walk_nested_dict_tuple_list v callback
                          else callback v) l) with (mapM walk l).
  - now destruct (mapM walk l).
  - clear. induction l as [|x r IH]; [reflexivity|]. cbn [mapM].
    now rewrite walk_item, IH.
Qed.

Lemma walk_dict (d : dict PyVal) :
  walk (PyDict d)
  = bind (mapM walk (map snd d))
      (fun rs => Ok (PyDict (dict_update [] (combine (map fst d) rs)))).
Proof.
  cbn [walk_nested_dict_tuple_list].
  pose proof (dict_loop
                (fun v => if is_nested v then walk_nested_dict_tuple_list v callback
                          else callback v) d []) as Hloop.
  unfold dict in *. rewrite Hloop. clear Hloop.
  replace (mapM (fun v => if is_nested v then walk_nested_dict_tuple_list v callback
                          else callback v) (map snd d)) with (mapM walk (map snd d)).
  - now destruct (mapM walk (map snd d)).
  - clear. induction d as [|x r IH]; [reflexivity|]. cbn [mapM map].
    now rewrite walk_item, IH.
Qed.

Lemma mapM_Ok_iff {A B} (F : A -> outcome B) l :
  (exists rs, mapM F l = Ok rs) <-> Forall (fun x => exists y, F x = Ok y) l.
Proof.
  induction l as [|x r IH]; cbn [mapM].
  - split; [constructor | eauto].
  - split.
    + intros [rs Hrs]. destruct (F x) as [y|e] eqn:Hx; [|discriminate].
      cbn [bind] in Hrs. destruct (mapM F r) as [ys|e] eqn:Hr; [|discriminate].
      constructor; [eauto | apply IH; eauto].
    + intros H. inversion H as [|? ? [y Hy] Hr]; subst.
      apply IH in Hr as [ys Hys]. rewrite Hy, Hys. cbn. eauto.
Qed.

Lemma Forall_flat_map {A B} (P : B -> Prop) (f : A -> list B) l :
  Forall P (flat_map f l) <-> Forall (fun x => Forall P (f x)) l.
Proof.
  induction l as [|x r IH]; cbn [flat_map].
  - split; constructor.
  - rewrite Forall_app, IH. split.
    + intros [Hx Hr]. now constructor.
    + intros H. now inversion H.
Qed.

Lemma bind_total {A B} (m : outcome A) (K : A -> outcome B) :
  (forall a, exists r, K a = Ok r) ->
  (exists r, bind m K = Ok r) <-> (exists a, m = Ok a).
Proof.
  intros HK. destruct m as [a|e]; cbn [bind].
  - split; [eauto | intros _; apply HK].
  - split; intros [? ?]; discriminate.
Qed.

Lemma Forall_iff_in {A} (P Q : A -> Prop) l :
  Forall (fun x => P x <-> Q x) l -> Forall P l <-> Forall Q l.
Proof.
  induction 1 as [|x r Hx _ IH]; [split; constructor|].
  split; intros H; inversion H; subst; constructor; tauto.
Qed.

Lemma flat_map_snd {A B C} (f : B -> list C) (d : list (A * B)) :
  flat_map (fun kv => f (snd kv)) d = flat_map f (map snd d).
Proof. induction d as [|x r IH]; [reflexivity|]. cbn. now rewrite IH. Qed.

Lemma Forall_snd {A B} (P : B -> Prop) (d : list (A * B)) :
  Forall (fun kv => P (snd kv)) d <-> Forall P (map snd d).
Proof.
  induction d as [|x r IH]; cbn [map]; [split; constructor|].
  split; intros H; inversion H; subst; constructor; tauto.
Qed.

Lemma walk_items_Ok_iff (l : list PyVal) :
  Forall (fun v => (exists r, walk v = Ok r) <->
                   Forall (fun x => exists y, callback x = Ok y) (leaves v)) l ->
  (exists rs, mapM walk l = Ok rs) <->
  Forall (fun x => exists y, callback x = Ok y) (flat_map leaves l).
Proof.
  intros H. rewrite mapM_Ok_iff, Forall_flat_map. now apply Forall_iff_in.
Qed.

(** The walk returns a value exactly when the callback does on every
    leaf. *)
Lemma walk_Ok_iff v :
  (exists r, walk v = Ok r) <-> Forall (fun x => exists y, callback x = Ok y) (leaves v).
Proof.
  induction v using PyVal_nested_ind;
    try (cbn; split; [intros Hr; now repeat constructor | intros Hr; now inversion Hr]).
  - rewrite walk_list, bind_total by eauto. now apply walk_items_Ok_iff.
  - rewrite walk_tuple, bind_total by eauto. now apply walk_items_Ok_iff.
  - rewrite walk_dict, bind_total by eauto. cbn [leaves]. rewrite flat_map_snd.
    apply walk_items_Ok_iff. now apply Forall_snd.
Qed.

End Callback.

(** The walk with a callback that never raises, on the items of a list. *)
Lemma mapM_pure {A B} (f : A -> B) (F : A -> outcome B) l :
  Forall (fun x => F x = Ok (f x)) l -> mapM F l = Ok (map f l).
Proof.
  induction 1 as [|x r Hx _ IH]; [reflexivity|]. cbn [mapM map].
  now rewrite Hx, IH.
Qed.

Lemma dict_update_nil_fresh {A} (d : dict A) :
  NoDup d.*1 -> dict_update [] d = d.
Proof. intros Hnd. now apply (dict_update_fresh d []). Qed.

Lemma combine_fst_map {A B C} (g : B -> C) (d : list (A * B)) :
  combine (map fst d) (map g (map snd d)) = map (fun kv => (fst kv, g (snd kv))) d.
Proof. induction d as [|[k x] r IH]; [reflexivity|]. cbn. now rewrite IH. Qed.

Lemma map_keys_same {A B C} (g : B -> C) (d : list (A * B)) :
  (map (fun kv => (fst kv, g (snd kv))) d).*1 = d.*1.
Proof. induction d as [|[k x] r IH]; [reflexivity|]. cbn. now rewrite IH. Qed.

Lemma keys_distinct_PyDict (d : list (string * PyVal)) :
  keys_distinct (PyDict d) <-> NoDup (d.*1) /\ Forall (fun kv => keys_distinct (snd kv)) d.
Proof.
  cbn [keys_distinct]. split; intros [Hnd Hall]; split; trivial.
  - clear Hnd. induction d as [|kv r IH]; constructor; [apply Hall | apply IH, Hall].
  - clear Hnd. induction Hall as [|kv r Hkv Hr IH]; [exact I | now split].
Qed.

Lemma keys_distinct_PyList (l : list PyVal) :
  keys_distinct (PyList l) <-> Forall keys_distinct l.
Proof.
  cbn [keys_distinct]. split.
  - induction l as [|x r IH]; intros H; constructor; [apply H | apply IH, H].
  - induction 1 as [|x r Hx _ IH]; [exact I | now split].
Qed.

(** With a callback that never raises, the walk returns the value with the
    callback applied to the leaves outside tuples. *)
Lemma walk_pure (f : PyVal -> PyVal) v :
  keys_distinct v ->
  walk_nested_dict_tuple_list v (fun x => Ok (f x)) = Ok (map_leaves f v).
Proof.
  induction v using PyVal_nested_ind; intros Hwf; try reflexivity.
  - apply keys_distinct_PyList in Hwf.
    rewrite walk_list, (mapM_pure (map_leaves f)); [reflexivity|].
    apply Forall_forall. intros x Hx.
    apply (proj1 (Forall_forall _ _) H x Hx), (proj1 (Forall_forall _ _) Hwf x Hx).
  - rewrite walk_tuple.
    destruct (proj2 (mapM_Ok_iff (fun v => walk_nested_dict_tuple_list v (fun x => Ok (f x))) l))
      as [rs ->]; [|reflexivity].
    apply Forall_forall. intros x _. apply walk_Ok_iff.
    apply Forall_forall. intros y _. eauto.
  - apply keys_distinct_PyDict in Hwf as [Hnd Hwf].
    rewrite walk_dict, (mapM_pure (map_leaves f)).
    + cbn [bind map_leaves]. rewrite combine_fst_map, dict_update_nil_fresh; [reflexivity|].
      now rewrite map_keys_same.
    + apply Forall_snd. apply Forall_forall. intros kv Hkv.
      apply (proj1 (Forall_forall _ _) H kv Hkv), (proj1 (Forall_forall _ _) Hwf kv Hkv).
Qed.

(** X16.  [walk_nested_dict_tuple_list] returns a value exactly when the
    callback does on every leaf of its argument, the leaves inside tuples
    included; an exception of the callback is not caught. *)
Theorem walk_succeeds_iff_callback_does (v : PyVal) (callback : PyVal -> outcome PyVal) :
  (exists r, walk_nested_dict_tuple_list v callback = Ok r) <->
  Forall (fun x => exists y, callback x = Ok y) (leaves v).
Proof. apply walk_Ok_iff. Qed.

(** X17.  For a tuple the results of the callback are dropped: when the
    callback raises on no leaf, the walk returns the tuple it was given,
    whatever the callback returned. *)
Theorem walk_returns_tuple_unchanged (l : list PyVal) (callback : PyVal -> outcome PyVal) :
  Forall (fun x => exists y, callback x = Ok y) (leaves (PyTuple l)) ->
  walk_nested_dict_tuple_list (PyTuple l) callback = Ok (PyTuple l).
Proof.
  intros Hok. rewrite walk_tuple.
  destruct (proj2 (mapM_Ok_iff (fun v => walk_nested_dict_tuple_list v callback) l))
    as [rs ->]; [|reflexivity].
  cbn [leaves] in Hok. apply Forall_flat_map in Hok.
  eapply Forall_impl; [exact Hok|]. intros x Hx. now apply walk_Ok_iff.
Qed.

(** X18.  With a callback [f] that never raises, on a value whose mappings
    hold no key twice, the walk returns the value with [f] applied to
    every leaf that is not inside a tuple: the keys of the mappings, the
    order and the length of the lists are kept. *)
Theorem walk_applies_callback_to_leaves (f : PyVal -> PyVal) (v : PyVal) :
  keys_distinct v ->
  walk_nested_dict_tuple_list v (fun x => Ok (f x)) = Ok (map_leaves f v).
Proof. apply walk_pure. Qed.

Lemma walk_returns_tuple_unchanged_witness :
  walk_nested_dict_tuple_list (PyTuple [PyInt 1; PyList [PyInt 2]])
    (fun _ => Ok PyNone)
  = Ok (PyTuple [PyInt 1; PyList [PyInt 2]]).
Proof.
  apply (walk_returns_tuple_unchanged [PyInt 1; PyList [PyInt 2]] (fun _ => Ok PyNone)).
  repeat constructor; eauto.
Defined.

Lemma walk_applies_callback_to_leaves_witness :
  walk_nested_dict_tuple_list
    (PyDict [("a", PyList [PyInt 1; PyInt 2]); ("b", PyTuple [PyInt 3])])
    (fun x => Ok (PyStr (Render.py_str x)))
  = Ok (PyDict [("a", PyList [PyStr "1"; PyStr "2"]); ("b", PyTuple [PyInt 3])]).
Proof.
  apply (walk_applies_callback_to_leaves (fun x => PyStr (Render.py_str x))
           (PyDict [("a", PyList [PyInt 1; PyInt 2]); ("b", PyTuple [PyInt 3])])).
  apply keys_distinct_PyDict. split.
  - apply (bool_decide_unpack _). vm_compute. exact I.
  - repeat constructor; cbn; tauto.
Defined.

End WalkLaws.

(** ** The notifying mapping and the plain mapping it stands for: properties *)

Module PostWriteContent.
Import PostWrite Content WrapperFacts ContentFacts.

#[local] Arguments init_value : simpl never.

Lemma depth_entries (d : list (string * PyVal)) fuel :
  depth (PyDict d) <= S fuel -> Forall (fun kv => depth (snd kv) <= fuel) d.
Proof.
  cbn [depth]. intros H. apply le_S_n in H.
  induction d as [|kv r IH]; constructor; cbn [fold_right] in H; [lia|].
  apply IH. lia.
Qed.

(** [_to_dict] on a wrapper that stands for [v] returns [v]; one unit of
    [fuel] for each level of nesting is enough. *)
Lemma holds_to_dict st v :
  forall n fuel,
    holds (heap st) n v -> depth v <= fuel -> _to_dict fuel n st = Some v.
Proof.
  induction v using PyVal_nested_ind; intros n fuel Hh Hfuel; try contradiction.
  apply holds_PyDict in Hh as (o & Ho & He).
  destruct fuel as [|fuel]; [cbn [depth] in Hfuel; lia|].
  apply depth_entries in Hfuel.
  cbn [_to_dict]. unfold items_of. rewrite Ho.
  match goal with
  | |- option_map PyDict ?x = _ => assert (Hfold : x = Some d); [|now rewrite Hfold]
  end.
  clear Ho. induction He as [|[k x] [k' y] its d' [Hk Hv] _ IH]; [reflexivity|].
  inversion H as [|? ? Hy Hd]; subst. inversion Hfuel as [|? ? Hfy Hfd]; subst.
  cbn [fold_right fst snd] in *. rewrite (IH Hd Hfd). subst k'.
  destruct Hv as [->|(c & -> & _ & Hch)]; [reflexivity|].
  now rewrite (Hy c fuel Hch Hfy).
Qed.

Lemma Forall2_dict_set {A B} (R : string * A -> string * B -> Prop)
  (its : dict A) (d : dict B) k x y :
  (forall kx ky, R kx ky -> fst kx = fst ky) ->
  Forall2 R its d -> R (k, x) (k, y) ->
  Forall2 R (dict_set its k x) (dict_set d k y).
Proof.
  intros Hkeys He Hxy.
  induction He as [|[k1 x1] [k2 y1] its d Hh Hrest IH]; cbn [dict_set].
  - constructor; [exact Hxy | constructor].
  - pose proof (Hkeys _ _ Hh) as Hk. cbn in Hk. subst k2.
    destruct (String.eqb_spec k1 k) as [->|Hne]; constructor; trivial.
Qed.

(** X19.  Wrapping a plain nested mapping and reading it back is the
    identity: [_to_dict] on the mapping [ProxyDictPostWrite(update_obj,
    update_func, arg)] returns [arg], nested mappings included.  One unit
    of [fuel] for each level of nesting is enough. *)
Theorem to_dict_of_init (update_obj : nat) (update_func : callback)
  (arg : dict PyVal) (st : state) (fuel : nat) :
  dict_wf (PyDict arg) ->
  depth (PyDict arg) <= fuel ->
  _to_dict fuel (__init__ update_obj update_func arg st).2
    (__init__ update_obj update_func arg st).1
  = Some (PyDict arg).
Proof.
  intros Hwf Hfuel. rewrite PostWriteFacts.postwrite_init_unfold. cbn [fst snd].
  apply holds_to_dict; [|exact Hfuel]. cbn [heap].
  pose proof (init_value_spec CbNone (fun obj (_ : string) => obj) CbSetCallback
                (PyDict arg) update_obj update_func (heap st)) as (Hroot & _).
  rewrite Hroot.
  now apply (init_holds CbNone (fun obj (_ : string) => obj) CbSetCallback
               (PyDict arg) Hwf arg).
Qed.

(** X20.  A write is seen by [_to_dict]: after [m[key] = x] on the mapping
    built from [arg] for an owner's function, [_to_dict] returns [arg] with
    [x] under [key], and the owner's function has been called. *)
Theorem to_dict_after_setitem (owner f : nat) (arg : dict PyVal) (st : state)
  (key : string) (x : PyVal) (fuel : nat) :
  dict_wf (PyDict arg) ->
  depth (PyDict (dict_set arg key x)) <= fuel ->
  let st1 := (__init__ owner (CbUser f) arg st).1 in
  let m := (__init__ owner (CbUser f) arg st).2 in
  exists st2,
    __setitem__ (S fuel) m key (VPlain x) st1 = Some st2 /\
    _to_dict fuel m st2 = Some (PyDict (dict_set arg key x)) /\
    log st2 = log st ++ [{| func := f; arg_obj := owner; arg_dict := m |}].
Proof.
  intros Hwf Hfuel st1 m. subst st1 m.
  rewrite PostWriteFacts.postwrite_init_unfold. cbn [fst snd].
  pose proof (init_value_spec CbNone (fun obj (_ : string) => obj) CbSetCallback
                (PyDict arg) owner (CbUser f) (heap st))
    as (Hroot & Hlen & _ & (o & Ho & Hof & Hoo) & _).
  pose proof (init_holds CbNone (fun obj (_ : string) => obj) CbSetCallback
                (PyDict arg) Hwf arg eq_refl owner (CbUser f) (heap st)) as Hh.
  set (r := init_value CbNone (fun obj (_ : string) => obj) CbSetCallback
              (PyDict arg) owner (CbUser f) (heap st)) in *.
  clearbody r. destruct r as [h m]. cbn [fst snd] in *. subst m.
  set (m := length (heap st)) in *.
  apply holds_PyDict in Hh as (o' & Ho' & He).
  assert (o' = o) by congruence. subst o'.
  unfold __setitem__. cbn [heap log _set_callback].
  unfold dict_setitem, items_of. rewrite Ho.
  rewrite (lookup_set_items_eq _ _ _ _ Ho). cbn [_update_func _update_obj].
  rewrite Hof, Hoo. eexists. split; [reflexivity|]. split; [|reflexivity].
  apply holds_to_dict; [|exact Hfuel]. cbn [heap]. apply holds_PyDict.
  eexists. split; [apply (lookup_set_items_eq _ _ _ _ Ho)|]. cbn [items].
  apply Forall2_dict_set.
  - now intros kx ky [Hk _].
  - eapply Forall2_impl; [exact He|]. intros kx ky Hxy.
    apply (entry_holds_frame h); [exact Hxy|].
    intros j Hj. apply lookup_set_items_ne. lia.
  - split; [reflexivity | now left].
Qed.

Lemma Forall2_dict_update {A B} (R : string * A -> string * B -> Prop)
  (its2 : dict A) (d2 : dict B) :
  (forall kx ky, R kx ky -> fst kx = fst ky) ->
  Forall2 R its2 d2 ->
  forall (its : dict A) (d : dict B),
    Forall2 R its d -> Forall2 R (dict_update its its2) (dict_update d d2).
Proof.
  intros Hkeys H2. unfold dict_update.
  induction H2 as [|[k x] [k' y] its2 d2 Hh _ IH]; intros its d He; [exact He|].
  pose proof (Hkeys _ _ Hh) as Hk. cbn in Hk. subst k'.
  cbn [fold_left fst snd]. apply IH. now apply Forall2_dict_set.
Qed.

(** X30.  A bulk update is seen by [_to_dict]: after [m.update(E)] on the
    mapping built from [arg] for an owner's function, [_to_dict] returns
    [arg] updated with [E], nested mappings of [E] included, and the
    owner's function has been called once. *)
Theorem to_dict_after_update (owner f : nat) (arg E : dict PyVal) (st : state)
  (fuel : nat) :
  dict_wf (PyDict arg) ->
  dict_wf (PyDict E) ->
  depth (PyDict (dict_update arg E)) <= fuel ->
  let st1 := (__init__ owner (CbUser f) arg st).1 in
  let m := (__init__ owner (CbUser f) arg st).2 in
  exists st2,
    update (S fuel) m E st1 = Some st2 /\
    _to_dict fuel m st2 = Some (PyDict (dict_update arg E)) /\
    log st2 = log st ++ [{| func := f; arg_obj := owner; arg_dict := m |}].
Proof.
  intros Hwf HwfE Hfuel st1 m. subst st1 m.
  rewrite PostWriteFacts.postwrite_init_unfold. cbn [fst snd].
  pose proof (init_value_spec CbNone (fun obj (_ : string) => obj) CbSetCallback
                (PyDict arg) owner (CbUser f) (heap st))
    as (Hroot & Hlen & _ & (o & Ho & Hof & Hoo) & _).
  pose proof (init_holds CbNone (fun obj (_ : string) => obj) CbSetCallback
                (PyDict arg) Hwf arg eq_refl owner (CbUser f) (heap st)) as Hh.
  set (r := init_value CbNone (fun obj (_ : string) => obj) CbSetCallback
              (PyDict arg) owner (CbUser f) (heap st)) in *.
  clearbody r. destruct r as [h m]. cbn [fst snd] in *. subst m.
  set (m := length (heap st)) in *.
  pose proof (lookup_lt_Some _ _ _ Ho) as Hm.
  unfold update, _do_update. cbn [heap log]. rewrite Ho.
  rewrite PostWriteFacts.postwrite_init_unfold. cbn [heap log fst snd].
  pose proof (init_value_spec CbNone (fun obj (_ : string) => obj) CbSetCallback
                (PyDict E) (_update_obj o) (CbSetCallback m) h)
    as (Htmp & Hlen' & Hframe' & _).
  pose proof (init_holds CbNone (fun obj (_ : string) => obj) CbSetCallback
                (PyDict E) HwfE E eq_refl (_update_obj o) (CbSetCallback m) h) as HhE.
  set (r := init_value CbNone (fun obj (_ : string) => obj) CbSetCallback
              (PyDict E) (_update_obj o) (CbSetCallback m) h) in *.
  clearbody r. destruct r as [h' tmp]. cbn [fst snd] in *. subst tmp.
  assert (Ho' : h' !! m = Some o) by (rewrite Hframe' by lia; exact Ho).
  apply (holds_frame h h') in Hh; [|intros j Hj; apply Hframe'; lia].
  apply holds_PyDict in Hh as (o1 & Ho1 & He).
  assert (o1 = o) by congruence. subst o1.
  apply holds_PyDict in HhE as (ot & Hot & HeE).
  unfold items_of. rewrite Ho', Hot.
  set (h2 := set_items m (dict_update (items o) (items ot)) h').
  assert (Ho2 : h2 !! m
                = Some {| items := dict_update (items o) (items ot);
                          _update_obj := _update_obj o;
                          _update_func := _update_func o |})
    by apply (lookup_set_items_eq _ _ _ _ Ho').
  cbn [_set_callback heap log]. rewrite Ho2. cbn [_update_func _update_obj].
  rewrite Hof, Hoo. eexists. split; [reflexivity|]. split; [|reflexivity].
  apply holds_to_dict; [|exact Hfuel]. cbn [heap]. apply holds_PyDict.
  eexists. split; [exact Ho2|]. cbn [items].
  eapply Forall2_impl.
  - apply (Forall2_dict_update (entry_holds h' m)); [now intros kx ky [Hk _] | | exact He].
    eapply Forall2_impl; [exact HeE|]. intros kx ky [Hk Hv]. split; [exact Hk|].
    destruct Hv as [Hv|(c & Hc & Hlt & Hch)]; [now left|].
    right. exists c. split; [exact Hc|]. split; [lia | exact Hch].
  - intros kx ky Hxy. apply (entry_holds_frame h'); [exact Hxy|].
    intros j Hj. apply lookup_set_items_ne. lia.
Qed.

Lemma to_dict_of_init_witness :
  _to_dict 3 (__init__ 7 (CbUser 0) Flatten.nested_sample empty_state).2
    (__init__ 7 (CbUser 0) Flatten.nested_sample empty_state).1
  = Some (PyDict Flatten.nested_sample).
Proof.
  apply (to_dict_of_init 7 (CbUser 0) Flatten.nested_sample empty_state 3).
  - apply dict_wf_PyDict. split.
    + apply (bool_decide_unpack _). vm_compute. exact I.
    + repeat constructor; simpl; try (apply (bool_decide_unpack _); vm_compute; exact I).
  - vm_compute. lia.
Defined.

Lemma to_dict_after_setitem_witness :
  exists st2,
    __setitem__ 4 0 "x" (VPlain (PyInt 6))
      (__init__ 7 (CbUser 0) Flatten.nested_sample empty_state).1 = Some st2 /\
    _to_dict 3 0 st2 = Some (PyDict (dict_set Flatten.nested_sample "x" (PyInt 6))) /\
    log st2 = [{| func := 0; arg_obj := 7; arg_dict := 0 |}].
Proof.
  apply (to_dict_after_setitem 7 0 Flatten.nested_sample empty_state "x" (PyInt 6) 3).
  - apply dict_wf_PyDict. split.
    + apply (bool_decide_unpack _). vm_compute. exact I.
    + repeat constructor; simpl; try (apply (bool_decide_unpack _); vm_compute; exact I).
  - vm_compute. lia.
Defined.

Lemma to_dict_after_update_witness :
  exists st2,
    update 4 0 [("a", PyDict [("z", PyInt 1)]); ("y", PyInt 2)]
      (__init__ 7 (CbUser 0) Flatten.nested_sample empty_state).1 = Some st2 /\
    _to_dict 3 0 st2
    = Some (PyDict (dict_update Flatten.nested_sample
                      [("a", PyDict [("z", PyInt 1)]); ("y", PyInt 2)])) /\
    log st2 = [{| func := 0; arg_obj := 7; arg_dict := 0 |}].
Proof.
  apply (to_dict_after_update 7 0 Flatten.nested_sample
           [("a", PyDict [("z", PyInt 1)]); ("y", PyInt 2)] empty_state 3).
  - apply dict_wf_PyDict. split.
    + apply (bool_decide_unpack _). vm_compute. exact I.
    + repeat constructor; simpl; try (apply (bool_decide_unpack _); vm_compute; exact I).
  - apply dict_wf_PyDict. split.
    + apply (bool_decide_unpack _). vm_compute. exact I.
    + repeat constructor; simpl; try (apply (bool_decide_unpack _); vm_compute; exact I).
  - vm_compute. lia.
Defined.

End PostWriteContent.

(** ** Deferred-value handles: further properties *)

Module LazyLaws.
Import Lazy LazyMore LazyFacts.
#[local] Open Scope lazy_scope.

Section Facts.
Variable py_call : PyVal -> string -> list PyVal -> outcome PyVal.
Variable py_getattr : PyVal -> string -> outcome PyVal.
Variable py_setattr : PyVal -> string -> PyVal -> outcome PyVal.
Variable py_delattr : PyVal -> string -> outcome PyVal.

#[local] Abbreviation run_op := (Lazy.run_op py_call py_getattr py_setattr py_delattr).
#[local] Abbreviation run_ops := (Lazy.run_ops py_call py_getattr py_setattr py_delattr).
#[local] Abbreviation rest_of := (Lazy.rest_of py_call py_getattr py_setattr py_delattr).

(** An operation without a handle among its arguments leaves the store
    alone once it has its target. *)
Lemma rest_of_plain op obj w : plain_op op = true -> (rest_of op obj w).1 = w.
Proof.
  destruct op as [name [vs|a]| |attr|attr value|attr]; cbn [plain_op]; intros Hp;
    try discriminate; cbn [Lazy.rest_of]; cbv [bindM lift ret method_args];
    try reflexivity.
  - now destruct (py_call obj name vs).
  - now destruct (py_getattr obj attr).
  - now destruct (py_setattr obj attr value).
  - now destruct (py_delattr obj attr).
Qed.

(** One forwarded operation on a handle that holds [None] and whose
    producer returns [None]. *)
Lemma run_op_None self op w h :
  handles w !! self = Some h -> _base_class_ h = None ->
  _wrapped h = PyNone -> _callback h (calls h) = Ok PyNone ->
  forwarded op = true -> plain_op op = true ->
  exists h',
    handles (run_op self op w).1 !! self = Some h' /\
    calls h' = S (calls h) /\ _wrapped h' = PyNone /\
    _callback h' = _callback h /\ _base_class_ h' = None.
Proof.
  intros Hl Hb Hn Hcb Hf Hp.
  rewrite (run_op_canon py_call py_getattr py_setattr py_delattr self op w h Hl Hb Hf).
  unfold canon, bindM.
  rewrite (load_unresolved_ok w self h PyNone Hl Hn Hcb).
  set (h1 := with_wrapped (with_call h) PyNone).
  assert (Hl1 : handles (set_handle self h1 w) !! self = Some h1)
    by now apply (lookup_set_handle_eq _ _ h).
  rewrite (note_forward_eq _ _ _ _ Hl1). rewrite set_handle_twice.
  set (h2 := with_seen h1 (seen h1 ++ [PyNone])).
  pose proof (rest_of_plain op PyNone (set_handle self h2 w) Hp) as Hrest.
  destruct (rest_of op PyNone (set_handle self h2 w)) as [w3 r]. cbn [fst] in *.
  subst w3. exists h2. split; [now apply (lookup_set_handle_eq _ _ h)|].
  cbn. auto.
Qed.

(** Forwarded operations on a handle that holds [None] and whose producer
    returns [None] at every call. *)
Lemma run_ops_None self ops :
  forall w h,
    handles w !! self = Some h -> _base_class_ h = None ->
    _wrapped h = PyNone -> (forall n, _callback h n = Ok PyNone) ->
    forallb forwarded ops = true -> forallb plain_op ops = true ->
    exists h',
      handles (run_ops self ops w).1 !! self = Some h' /\
      calls h' = calls h + length ops /\
      _wrapped h' = PyNone.
Proof.
  induction ops as [|op ops IH]; intros w h Hl Hb Hn Hcb Hf Hp.
  - exists h. cbn. split; [exact Hl|]. split; [lia | exact Hn].
  - cbn [forallb] in Hf, Hp.
    apply andb_true_iff in Hf as [Hf Hfs]. apply andb_true_iff in Hp as [Hp Hps].
    destruct (run_op_None self op w h Hl Hb Hn (Hcb _) Hf Hp)
      as (h1 & Hl1 & Hc1 & Hn1 & Hcb1 & Hb1).
    destruct (IH _ h1 Hl1 Hb1 Hn1) as (h' & Hl' & Hc' & Hn'); trivial.
    { intros n. rewrite Hcb1. apply Hcb. }
    exists h'. rewrite (run_ops_cons_fst py_call py_getattr py_setattr py_delattr).
    split; [exact Hl'|]. split; [cbn [length]; lia | exact Hn'].
Qed.

(** X21.  A producer that returns [None] is never cached: on a
    [LazyEvalWrapper] handle whose producer returns [None] at every call,
    each forwarded operation (without a handle among its arguments) calls
    the producer again, and the handle still holds nothing. *)
Theorem none_result_is_never_cached (self : nat) (ops : list operation)
  (w : world) (h : handle) :
  handles w !! self = Some h ->
  _base_class_ h = None ->
  _wrapped h = PyNone ->
  (forall n, _callback h n = Ok PyNone) ->
  forallb forwarded ops = true ->
  forallb plain_op ops = true ->
  exists h',
    handles (run_ops self ops w).1 !! self = Some h' /\
    calls h' = calls h + length ops /\
    _wrapped h' = PyNone.
Proof. apply run_ops_None. Qed.



End Facts.

(** *** Remote references *)

Section Remote.
Variable remote_call : nat -> outcome PyVal.

#[local] Abbreviation call_all := (LazyMore.call_all remote_call).

Lemma call_all_ok funcs :
  Forall (fun f => exists v, remote_call f = Ok v) funcs ->
  call_all funcs = (funcs, Ok tt).
Proof.
  induction 1 as [|f r [v Hv] _ IH]; [reflexivity|].
  cbn [LazyMore.call_all]. now rewrite Hv, IH.
Qed.

Lemma call_all_raise l1 f l2 e :
  Forall (fun f => exists v, remote_call f = Ok v) l1 ->
  remote_call f = Raise e ->
  call_all (l1 ++ f :: l2) = (l1 ++ [f], Raise e).
Proof.
  intros Hl1 Hf. induction Hl1 as [|g r [v Hv] _ IH].
  - cbn [app LazyMore.call_all]. now rewrite Hf.
  - cbn [app LazyMore.call_all]. now rewrite Hv, IH.
Qed.

Lemma remove_first_last f (l : list nat) :
  f ∉ l -> remove_first f (l ++ [f]) = l.
Proof.
  induction l as [|g r IH]; intros Hf; cbn [app remove_first].
  - now rewrite Nat.eqb_refl.
  - apply not_elem_of_cons in Hf as [Hne Hf].
    destruct (Nat.eqb_spec g f) as [->|_]; [congruence|]. now rewrite IH.
Qed.

(** X23.  [trigger_all_remote_references] calls the pending references
    once each, in the order they were registered, and leaves none pending
    -- when none of them raises.  When one raises, the exception goes to
    the caller and the pending list stays as it was, with the references
    already called still in it. *)
Theorem trigger_all_calls_each_pending_reference (w : world) :
  (Forall (fun f => exists v, remote_call f = Ok v) (_remote_reference_calls w) ->
   trigger_all_remote_references remote_call w
   = ({| handles := handles w; _remote_reference_calls := [] |},
      _remote_reference_calls w, Ok tt)) /\
  (forall l1 f l2 e,
     _remote_reference_calls w = l1 ++ f :: l2 ->
     Forall (fun f => exists v, remote_call f = Ok v) l1 ->
     remote_call f = Raise e ->
     trigger_all_remote_references remote_call w = (w, l1 ++ [f], Raise e)).
Proof.
  split.
  - intros Hok. unfold trigger_all_remote_references. now rewrite call_all_ok.
  - intros l1 f l2 e Hl Hl1 Hf. unfold trigger_all_remote_references.
    now rewrite Hl, (call_all_raise l1 f l2 e Hl1 Hf).
Qed.

(** X24.  Fetching the remote reference of a handle takes it off the
    pending list and does not resolve the handle: after
    [LazyEvalWrapper(callback, remote_reference=f)] and one [_remoteref()],
    [f] has been called, the pending list is what it was before the
    handle was built, and the producer has not been called. *)
Theorem remoteref_unregisters (callback : producer) (f : nat) (w : world) :
  f ∉ _remote_reference_calls w ->
  let self := length (handles w) in
  let w1 := (init callback (Some f) w).1 in
  let r := _remoteref remote_call self w1 in
  r.2 = remote_call f /\
  _remote_reference_calls r.1 = _remote_reference_calls w /\
  handles r.1 !! self
  = Some {| _wrapped := PyNone; _callback := callback;
            _remote_reference := Some f; _base_class_ := None;
            calls := 0; seen := [] |}.
Proof.
  intros Hf self w1 r.
  assert (Hl : handles w1 !! self
               = Some {| _wrapped := PyNone; _callback := callback;
                         _remote_reference := Some f; _base_class_ := None;
                         calls := 0; seen := [] |}).
  { unfold w1, init, self. cbn. now rewrite lookup_app_r, Nat.sub_diag by lia. }
  subst r. unfold _remoteref, bindM. rewrite (get_handle_eq _ _ _ Hl).
  cbn [_remote_reference fst snd handles _remote_reference_calls].
  split; [reflexivity|]. split; [|exact Hl].
  unfold w1, init. cbn [fst _remote_reference_calls].
  rewrite existsb_app. cbn [existsb]. rewrite Nat.eqb_refl, orb_true_r. cbn [orb].
  now apply remove_first_last.
Qed.

End Remote.

(** A handle on a producer that returns [None], tested twice for truth:
    two calls. *)
Lemma none_result_is_never_cached_witness :
  exists h',
    handles
      (run_ops int_call no_getattr no_setattr no_getattr 0 [OpBool; OpBool]
         (init (fun _ => Ok PyNone) None empty_world).1).1 !! 0 = Some h' /\
    calls h' = 0 + 2 /\
    _wrapped h' = PyNone.
Proof.
  apply (none_result_is_never_cached int_call no_getattr no_setattr no_getattr
           0 [OpBool; OpBool] (init (fun _ => Ok PyNone) None empty_world).1
           {| _wrapped := PyNone; _callback := fun _ => Ok PyNone;
              _remote_reference := None; _base_class_ := None;
              calls := 0; seen := [] |}); reflexivity.
Defined.


Lemma remoteref_unregisters_witness :
  let r := _remoteref (fun _ => Ok (PyInt 1)) 0
             (init (fun _ => Ok (PyInt 5)) (Some 3) empty_world).1 in
  r.2 = Ok (PyInt 1) /\
  _remote_reference_calls r.1 = [] /\
  handles r.1 !! 0
  = Some {| _wrapped := PyNone; _callback := fun _ => Ok (PyInt 5);
            _remote_reference := Some 3; _base_class_ := None;
            calls := 0; seen := [] |}.
Proof.
  apply (remoteref_unregisters (fun _ => Ok (PyInt 1)) (fun _ => Ok (PyInt 5)) 3
           empty_world).
  apply not_elem_of_nil.
Defined.

End LazyLaws.

(** ** Deferred configuration values: properties *)

Module ConfigLaws.
Import Lazy LazyMore LazyFacts LazyLaws Config.

Section Facts.
Variable py_call : PyVal -> string -> list PyVal -> outcome PyVal.
Variable py_getattr : PyVal -> string -> outcome PyVal.
Variable py_setattr : PyVal -> string -> PyVal -> outcome PyVal.
Variable py_delattr : PyVal -> string -> outcome PyVal.
Variable config_get : nat -> list PyVal -> outcome PyVal.

(** When no entry of [multi] has a truthy value, the search ends on its
    default, [None]. *)
Lemma first_truthy_none n multi :
  Forall (fun a => exists x, config_get n a = Ok x /\ py_truthy x = false) multi ->
  first_truthy config_get n multi = Ok PyNone.
Proof.
  induction 1 as [|a rest (x & Hx & Hf) _ IH]; [reflexivity|].
  cbn [first_truthy]. rewrite Hx. cbn [bind]. now rewrite Hf.
Qed.

(** The first entry of [multi] with a truthy value is the one returned. *)
Lemma first_truthy_first n l1 a l2 v :
  Forall (fun a => exists x, config_get n a = Ok x /\ py_truthy x = false) l1 ->
  config_get n a = Ok v -> py_truthy v = true ->
  first_truthy config_get n (l1 ++ a :: l2) = Ok v.
Proof.
  intros Hl1 Ha Hv. induction Hl1 as [|b rest (x & Hx & Hf) _ IH].
  - cbn [app first_truthy]. rewrite Ha. cbn [bind]. now rewrite Hv.
  - cbn [app first_truthy]. rewrite Hx. cbn [bind]. now rewrite Hf.
Qed.

(** X28.  A deferred configuration value built without a [transform]
    over several entries, none of which is set to a truthy value, never
    settles under forwarded operations that have no handle among their
    arguments: its producer returns [None], which the handle does not
    keep, so that each of these operations looks the configuration up
    again, once.  Building the handle looks nothing up. *)
Theorem deferred_multi_unset_never_settles (key : option string) (default : PyVal)
  (multi : list (list PyVal)) (ops : list operation) (w : world) :
  multi <> [] ->
  (forall n, Forall (fun a => exists x, config_get n a = Ok x /\ py_truthy x = false)
               multi) ->
  forallb forwarded ops = true ->
  forallb plain_op ops = true ->
  let self := length (handles w) in
  let w0 := (deferred_config config_get key default None multi w).1 in
  (exists h0, handles w0 !! self = Some h0 /\ calls h0 = 0) /\
  exists h',
    handles (run_ops py_call py_getattr py_setattr py_delattr self ops w0).1
      !! self = Some h' /\
    calls h' = length ops /\
    _wrapped h' = PyNone.
Proof.
  intros Hne Hunset Hf Hp self w0.
  set (h0 := {| _wrapped := PyNone;
                _callback := deferred_callback config_get key default None multi;
                _remote_reference := None; _base_class_ := None;
                calls := 0; seen := [] |}).
  assert (Hl0 : handles w0 !! self = Some h0).
  { unfold w0, deferred_config, init, self. cbn.
    now rewrite lookup_app_r, Nat.sub_diag by lia. }
  split; [now exists h0|].
  apply (run_ops_None py_call py_getattr py_setattr py_delattr self ops w0 h0);
    trivial.
  intros n. cbn [h0 _callback]. unfold deferred_callback, lookup.
  destruct multi as [|a rest]; [congruence|]. now apply first_truthy_none.
Qed.

(** X29.  The producer of a deferred configuration value over several
    entries returns the value of the first entry that is set to a truthy
    value, transformed when a [transform] and a [key] are given. *)
Theorem deferred_multi_first_set_wins (key : string) (default : PyVal)
  (transform : list PyVal -> outcome PyVal)
  (l1 l2 : list (list PyVal)) (a : list PyVal) (v : PyVal) (n : nat) :
  Forall (fun a => exists x, config_get n a = Ok x /\ py_truthy x = false) l1 ->
  config_get n a = Ok v ->
  py_truthy v = true ->
  deferred_callback config_get (Some key) default None (l1 ++ a :: l2) n = Ok v /\
  deferred_callback config_get (Some key) default (Some transform) (l1 ++ a :: l2) n
  = transform [v].
Proof.
  intros Hl1 Ha Hv. unfold deferred_callback, lookup.
  assert (Hm : exists b r, l1 ++ a :: l2 = b :: r) by (destruct l1; eauto).
  destruct Hm as (b & r & Hm).
  pose proof (first_truthy_first n l1 a l2 v Hl1 Ha Hv) as Hft.
  rewrite Hm in *. now rewrite Hft.
Qed.

End Facts.

Lemma deferred_multi_unset_never_settles_witness :
  let w0 := (deferred_config (fun _ _ => Ok (PyStr "")) None PyNone None
               [[PyStr "a"]; [PyStr "b"]] empty_world).1 in
  (exists h0, handles w0 !! 0 = Some h0 /\ calls h0 = 0) /\
  exists h',
    handles (run_ops int_call no_getattr no_setattr no_getattr 0 [OpBool; OpBool] w0).1
      !! 0 = Some h' /\
    calls h' = 2 /\
    _wrapped h' = PyNone.
Proof.
  apply (deferred_multi_unset_never_settles int_call no_getattr no_setattr no_getattr
           (fun _ _ => Ok (PyStr "")) None PyNone [[PyStr "a"]; [PyStr "b"]]
           [OpBool; OpBool] empty_world).
  - discriminate.
  - intros n. repeat constructor; exists (PyStr ""); split; reflexivity.
  - reflexivity.
  - reflexivity.
Defined.

Lemma deferred_multi_first_set_wins_witness :
  let get := fun (_ : nat) (a : list PyVal) =>
               match a with
               | [PyStr "b"] => Ok (PyInt 3)
               | _ => Ok (PyInt 0)
               end in
  deferred_callback get (Some "k") PyNone None [[PyStr "a"]; [PyStr "b"]; [PyStr "c"]] 0
  = Ok (PyInt 3) /\
  deferred_callback get (Some "k") PyNone (Some (fun _ => Ok PyNone))
    [[PyStr "a"]; [PyStr "b"]; [PyStr "c"]] 0
  = Ok PyNone.
Proof.
  intros get.
  apply (deferred_multi_first_set_wins get "k" PyNone (fun _ => Ok PyNone)
           [[PyStr "a"]] [[PyStr "c"]] [PyStr "b"] (PyInt 3) 0).
  - repeat constructor. exists (PyInt 0). split; reflexivity.
  - reflexivity.
  - reflexivity.
Defined.

End ConfigLaws.

(** ** The naive un-flattening: properties *)

Module NaiveLaws.
Import PyStr Naive FlattenFacts.

Lemma str_length_app (a b : string) :
  String.length (a ++ b) = String.length a + String.length b.
Proof.
  induction a as [|c a IH]; [reflexivity|].
  rewrite append_cons. cbn [String.length]. now rewrite IH.
Qed.

Lemma length_drop n : forall s, String.length (drop n s) = String.length s - n.
Proof.
  induction n as [|n IH]; intros [|c r]; cbn [drop String.length]; try lia.
  apply IH.
Qed.

Lemma drop_app_length (a b : string) : drop (String.length a) (a ++ b) = b.
Proof.
  induction a as [|c a IH]; [now destruct b|].
  rewrite append_cons. cbn [String.length drop]. exact IH.
Qed.

(** A key free of the separator character has nothing before it but
    itself. *)
Lemma before_free c k :
  Flatten.contains c k = false -> before (String c EmptyString) k = k.
Proof.
  induction k as [|a k IH]; [reflexivity|]. cbn [Flatten.contains before starts].
  intros H. apply orb_false_iff in H as [Ha Hk].
  rewrite Ascii.eqb_sym, Ha. cbn [andb]. now rewrite IH.
Qed.

Lemma before_sep c k t :
  Flatten.contains c k = false ->
  before (String c EmptyString) (k ++ String c t) = k.
Proof.
  induction k as [|a k IH]; intros H.
  - rewrite append_nil_l. cbn [before starts]. now rewrite Ascii.eqb_refl.
  - cbn [Flatten.contains] in H. apply orb_false_iff in H as [Ha Hk].
    rewrite append_cons. cbn [before starts].
    rewrite Ascii.eqb_sym, Ha. cbn [andb]. now rewrite IH.
Qed.

Lemma elem_of_dict_set {A} (d : dict A) k v x :
  x ∈ dict_set d k v -> x ∈ d \/ x = (k, v).
Proof.
  induction d as [|[k' v'] r IH]; cbn [dict_set]; intros H.
  - apply list_elem_of_singleton in H. now right.
  - destruct (String.eqb_spec k' k) as [->|Hne].
    + apply elem_of_cons in H as [->|H]; [now right | left; now right].
    + apply elem_of_cons in H as [->|H]; [left; now left|].
      destruct (IH H) as [Hin|Heq]; [left; now right | now right].
Qed.

Lemma elem_of_insert_item {A} (kv : string * A) l x :
  x ∈ insert_item kv l <-> x = kv \/ x ∈ l.
Proof.
  induction l as [|y r IH]; cbn [insert_item].
  - rewrite list_elem_of_singleton. split; [auto|]. intros [H|H]; [exact H|].
    now apply elem_of_nil in H.
  - destruct (str_ltb (fst y) (fst kv)).
    + rewrite !elem_of_cons, IH. tauto.
    + rewrite !elem_of_cons. tauto.
Qed.

Lemma elem_of_sorted_items {A} (d : dict A) x : x ∈ sorted_items d <-> x ∈ d.
Proof.
  induction d as [|kv r IH]; [reflexivity|].
  change (sorted_items (kv :: r)) with (insert_item kv (sorted_items r)).
  rewrite elem_of_insert_item, elem_of_cons, IH. tauto.
Qed.

(** Every group is a run of items of the list, and has one at least. *)
Lemma elem_of_groupby {A} (key : A -> string) l p b :
  (p, b) ∈ groupby key l -> b <> [] /\ forall x, x ∈ b -> x ∈ l.
Proof.
  revert p b. induction l as [|x r IH]; intros p b H; cbn [groupby] in H.
  - now apply elem_of_nil in H.
  - destruct (groupby key r) as [|[k g] gs] eqn:Hg.
    + apply list_elem_of_singleton in H. inversion H; subst.
      split; [discriminate|]. intros y Hy. apply list_elem_of_singleton in Hy. subst. now left.
    + assert (Hrest : forall p b, (p, b) ∈ (k, g) :: gs ->
                        b <> [] /\ forall x, x ∈ b -> x ∈ r) by exact IH.
      destruct (String.eqb (key x) k).
      * apply elem_of_cons in H as [H|H].
        -- inversion H; subst. split; [discriminate|].
           intros y Hy. apply elem_of_cons in Hy as [->|Hy]; [now left|].
           right. apply (Hrest k g); [now left | exact Hy].
        -- destruct (Hrest p b) as [Hne Hin]; [now right|].
           split; [exact Hne|]. intros y Hy. right. now apply Hin.
      * apply elem_of_cons in H as [H|H].
        -- inversion H; subst. split; [discriminate|].
           intros y Hy. apply list_elem_of_singleton in Hy. subst. now left.
        -- destruct (Hrest p b H) as [Hne Hin].
           split; [exact Hne|]. intros y Hy. right. now apply Hin.
Qed.

Lemma key_measure_elem_of (d : dict PyVal) kv :
  kv ∈ d -> S (String.length (fst kv)) <= key_measure d.
Proof.
  induction d as [|x r IH]; intros H; [now apply elem_of_nil in H|].
  cbn [key_measure fold_right]. apply elem_of_cons in H as [->|H]; [lia|].
  specialize (IH H). unfold key_measure in IH. lia.
Qed.

Lemma key_measure_bound (d : dict PyVal) m :
  (forall kv, kv ∈ d -> S (String.length (fst kv)) <= m) -> key_measure d <= m.
Proof.
  induction d as [|x r IH]; intros H; cbn [key_measure fold_right]; [lia|].
  assert (Hx := H x ltac:(now left)).
  assert (Hr : key_measure r <= m) by (apply IH; intros kv Hkv; apply H; now right).
  unfold key_measure in Hr. lia.
Qed.

(** The keys of the mapping handed to the recursive call are the keys of
    the bucket, each at least one character shorter. *)
Lemma shorten_keys sub_prefix bucket kv' :
  kv' ∈ shorten sub_prefix bucket ->
  exists kv, kv ∈ bucket /\ String.length (fst kv') < String.length (fst kv).
Proof.
  unfold shorten.
  assert (Hgen : forall acc,
             kv' ∈ fold_left
                     (fun acc kv =>
                        if Nat.ltb (String.length sub_prefix) (String.length (fst kv))
                        then dict_set acc (drop (S (String.length sub_prefix)) (fst kv)) (snd kv)
                        else acc) bucket acc ->
             kv' ∈ acc \/
             exists kv, kv ∈ bucket /\ String.length (fst kv') < String.length (fst kv)).
  { induction bucket as [|x r IH]; intros acc H; cbn [fold_left] in H; [now left|].
    destruct (IH _ H) as [Hacc|(kv & Hkv & Hlen)].
    - destruct (Nat.ltb_spec (String.length sub_prefix) (String.length (fst x))) as [Hlt|_].
      + apply elem_of_dict_set in Hacc as [Hacc| ->]; [now left|].
        right. exists x. split; [now left|]. cbn [fst]. rewrite length_drop. lia.
      + now left.
    - right. exists kv. split; [now right | exact Hlen]. }
  intros H. destruct (Hgen [] H) as [Hnil|Hex]; [now apply elem_of_nil in Hnil | exact Hex].
Qed.

Lemma shorten_measure sub_prefix bucket (flat : dict PyVal) :
  (forall x, x ∈ bucket -> x ∈ flat) ->
  S (key_measure (shorten sub_prefix bucket)) <= key_measure flat \/
  key_measure (shorten sub_prefix bucket) = 0.
Proof.
  intros Hsub.
  destruct (shorten sub_prefix bucket) as [|e t] eqn:Hs; [now right|]. left.
  rewrite <- Hs.
  assert (Hb : forall kv', kv' ∈ shorten sub_prefix bucket ->
                 S (S (String.length (fst kv'))) <= key_measure flat).
  { intros kv' Hkv'. destruct (shorten_keys _ _ _ Hkv') as (kv & Hkv & Hlen).
    pose proof (key_measure_elem_of flat kv (Hsub kv Hkv)). lia. }
  assert (Hpos : 1 <= key_measure flat).
  { specialize (Hb e). rewrite Hs in Hb. specialize (Hb ltac:(now left)). lia. }
  enough (key_measure (shorten sub_prefix bucket) <= key_measure flat - 1) by lia.
  apply key_measure_bound. intros kv' Hkv'. specialize (Hb kv' Hkv'). lia.
Qed.

(** With fuel above the measure of its keys, the recursion returns a
    mapping. *)
Lemma naive_total sep fuel :
  forall flat, key_measure flat < fuel -> exists d, naive fuel flat sep = Some (PyDict d).
Proof.
  induction fuel as [|fuel IH]; intros flat Hfuel; [lia|].
  cbn [naive].
  assert (Hfold : forall G acc,
             (forall p b, (p, b) ∈ G ->
                          b <> [] /\ forall x, x ∈ b -> x ∈ sorted_items flat) ->
             exists d,
               fold_left
                 (fun acc (g : string * list (string * PyVal)) =>
                    match acc with
                    | None => None
                    | Some d =>
                        let '(sub_prefix, bucket) := g in
                        let value :=
                          if is_leaf sub_prefix bucket
                          then option_map snd (head bucket)
                          else naive fuel (shorten sub_prefix bucket) sep in
                        match value with
                        | Some v => Some (dict_set d sub_prefix v)
                        | None => None
                        end
                    end) G (Some acc) = Some d).
  { induction G as [|[p b] G IHG]; intros acc Hg; cbn [fold_left]; [eauto|].
    destruct (Hg p b ltac:(now left)) as [Hne Hin].
    assert (Hval : exists v,
               (if is_leaf p b then option_map snd (head b)
                else naive fuel (shorten p b) sep) = Some v).
    { destruct (is_leaf p b).
      - destruct b as [|x b]; [now destruct Hne|]. cbn. eauto.
      - destruct (IH (shorten p b)) as [d Hd]; [|eauto].
        assert (Hsub : forall x, x ∈ b -> x ∈ flat)
          by (intros x Hx; apply elem_of_sorted_items; now apply Hin).
        assert (Hpos : 1 <= key_measure flat).
        { destruct b as [|x b]; [now destruct Hne|].
          pose proof (key_measure_elem_of flat x (Hsub x ltac:(now left))). lia. }
        destruct (shorten_measure p b flat Hsub) as [Hm|Hm]; lia. }
    destruct Hval as [v Hv]. cbv zeta. rewrite Hv. apply IHG.
    intros p' b' H'. apply (Hg p' b'). now right. }
  destruct (Hfold (groupby (fun kv => before sep (fst kv)) (sorted_items flat)) [])
    as [d Hd].
  - intros p b H. exact (elem_of_groupby _ _ p b H).
  - exists d. change (Some (PyDict d)) with (option_map PyDict (Some d)).
    f_equal. exact Hd.
Qed.

Lemma naive_unfold fuel flat sep :
  naive (S fuel) flat sep
  = option_map PyDict
      (fold_left (group_step fuel sep)
         (groupby (fun kv => before sep (fst kv)) (sorted_items flat)) (Some [])).
Proof. reflexivity. Qed.

Lemma drop_past (a : string) c t :
  drop (S (String.length a)) (a ++ String c t) = t.
Proof.
  induction a as [|x a IH]; [now destruct t|].
  rewrite append_cons. cbn [String.length drop]. exact IH.
Qed.

Lemma join_cons sep k k' rest :
  Render.join sep (k :: k' :: rest) = (k ++ sep ++ Render.join sep (k' :: rest))%string.
Proof. reflexivity. Qed.

(** One key: the mapping nested along its segments. *)
Lemma naive_single c path :
  forall v fuel,
    path <> [] ->
    Forall (fun k => Flatten.contains c k = false) path ->
    String.length (Render.join (String c EmptyString) path) < fuel ->
    naive fuel [(Render.join (String c EmptyString) path, v)] (String c EmptyString)
    = Some (nest path v).
Proof.
  induction path as [|k rest IH]; intros v fuel Hne Hfree Hfuel; [congruence|].
  destruct fuel as [|fuel]; [lia|]. rewrite naive_unfold.
  inversion Hfree as [|? ? Hk Hrest]; subst.
  change (sorted_items [(Render.join (String c EmptyString) (k :: rest), v)])
    with [(Render.join (String c EmptyString) (k :: rest), v)].
  cbn [groupby fold_left fst]. unfold group_step. cbn [is_leaf head option_map snd].
  destruct rest as [|k' rest].
  - cbn [Render.join]. rewrite (before_free c k Hk), String.eqb_refl.
    reflexivity.
  - rewrite join_cons in *. rewrite append_cons, append_nil_l in *.
    set (t := Render.join (String c EmptyString) (k' :: rest)) in *.
    rewrite (before_sep c k t Hk).
    assert (Hlen : String.length (k ++ String c t) = String.length k + S (String.length t))
      by (rewrite str_length_app; reflexivity).
    assert (Hneq : String.eqb k (k ++ String c t) = false).
    { apply String.eqb_neq. intros Heq. rewrite <- Heq in Hlen. lia. }
    rewrite Hneq. unfold shorten. cbn [fold_left fst snd].
    assert (Hlt : Nat.ltb (String.length k) (String.length (k ++ String c t)) = true)
      by (apply Nat.ltb_lt; lia).
    rewrite Hlt, drop_past. cbn [dict_set].
    rewrite (IH v fuel); [reflexivity | discriminate | exact Hrest | lia].
Qed.

Lemma insert_item_perm {A} (kv : string * A) l : insert_item kv l ≡ₚ kv :: l.
Proof.
  induction l as [|x r IH]; cbn [insert_item]; [reflexivity|].
  destruct (str_ltb (fst x) (fst kv)); [|reflexivity].
  rewrite IH. apply Permutation_swap.
Qed.

Lemma sorted_items_perm {A} (d : dict A) : sorted_items d ≡ₚ d.
Proof.
  induction d as [|kv r IH]; [reflexivity|].
  change (sorted_items (kv :: r)) with (insert_item kv (sorted_items r)).
  now rewrite insert_item_perm, IH.
Qed.

(** Items with pairwise distinct keys make groups of one. *)
Lemma groupby_distinct {A} (key : A -> string) l :
  NoDup (map key l) -> groupby key l = map (fun x => (key x, [x])) l.
Proof.
  induction l as [|x r IH]; intros Hnd; [reflexivity|].
  cbn [map] in Hnd. apply NoDup_cons in Hnd as [Hx Hr].
  cbn [groupby map]. rewrite (IH Hr).
  destruct r as [|y r']; [reflexivity|]. cbn [map].
  destruct (String.eqb_spec (key x) (key y)) as [Heq|_]; [|reflexivity].
  exfalso. apply Hx. rewrite Heq. now left.
Qed.

(** Groups of one, each under its own key, are stored as they are. *)
Lemma fold_leaves fuel sep (l : list (string * PyVal)) :
  forall acc,
    fold_left (group_step fuel sep) (map (fun x => (fst x, [x])) l) (Some acc)
    = Some (dict_update acc l).
Proof.
  induction l as [|[k v] r IH]; intros acc; [reflexivity|].
  cbn [map fold_left]. unfold group_step at 2.
  cbn [is_leaf fst snd head option_map]. rewrite String.eqb_refl.
  rewrite IH. reflexivity.
Qed.

(** X25.  For a separator that is not empty (or on the empty mapping),
    [naive_nested_from_flat_dictionary] returns a mapping: nothing is
    raised, and the recursion ends, since every level takes at least one
    character off every key. *)
Theorem naive_returns_mapping (flat_dict : dict PyVal) (sep : string) :
  flat_dict = [] \/ sep <> EmptyString ->
  exists d, naive_nested_from_flat_dictionary flat_dict sep = Some (Ok (PyDict d)).
Proof.
  intros Hcase.
  destruct (naive_total sep (S (key_measure flat_dict)) flat_dict) as [d Hd]; [lia|].
  exists d. unfold naive_nested_from_flat_dictionary.
  destruct flat_dict as [|kv r]; [now rewrite Hd|].
  destruct sep; [now destruct Hcase|]. now rewrite Hd.
Qed.

(** X26.  A flat mapping with one key whose segments are free of the
    separator character comes back as the mapping nested along the
    segments, with the value at its end. *)
Theorem naive_nests_one_path (c : ascii) (path : list string) (v : PyVal) :
  path <> [] ->
  Forall (fun k => Flatten.contains c k = false) path ->
  naive_nested_from_flat_dictionary
    [(Render.join (String c EmptyString) path, v)] (String c EmptyString)
  = Some (Ok (nest path v)).
Proof.
  intros Hne Hfree. unfold naive_nested_from_flat_dictionary.
  rewrite (naive_single c path v _ Hne Hfree); [reflexivity|].
  cbn [key_measure fold_right fst]. lia.
Qed.

(** X27.  A flat mapping none of whose keys holds the separator character
    comes back with the same entries, ordered by key. *)
Theorem naive_keeps_unseparated_keys (c : ascii) (flat_dict : dict PyVal) :
  NoDup (dict_keys flat_dict) ->
  Forall (fun kv : string * PyVal => Flatten.contains c (fst kv) = false) flat_dict ->
  naive_nested_from_flat_dictionary flat_dict (String c EmptyString)
  = Some (Ok (PyDict (sorted_items flat_dict))).
Proof.
  intros Hnd Hfree. unfold naive_nested_from_flat_dictionary.
  assert (Hgoal : naive (S (key_measure flat_dict)) flat_dict (String c EmptyString)
                  = Some (PyDict (sorted_items flat_dict))).
  { rewrite naive_unfold.
    assert (Hkeys : map (fun kv : string * PyVal => before (String c EmptyString) (fst kv))
                      (sorted_items flat_dict)
                    = map fst (sorted_items flat_dict)).
    { apply map_ext_in. intros kv Hkv. apply before_free.
      apply list_elem_of_In in Hkv. apply (proj1 (elem_of_sorted_items _ _)) in Hkv.
      exact (proj1 (Forall_forall _ _) Hfree kv Hkv). }
    assert (Hnd' : NoDup (map fst (sorted_items flat_dict))).
    { change (NoDup (sorted_items flat_dict).*1). now rewrite sorted_items_perm. }
    rewrite groupby_distinct by now rewrite Hkeys.
    assert (Hmap : map (fun x : string * PyVal =>
                          (before (String c EmptyString) (fst x), [x]))
                     (sorted_items flat_dict)
                   = map (fun x => (fst x, [x])) (sorted_items flat_dict)).
    { apply map_ext_in. intros kv Hkv. f_equal. apply before_free.
      apply list_elem_of_In in Hkv. apply (proj1 (elem_of_sorted_items _ _)) in Hkv.
      exact (proj1 (Forall_forall _ _) Hfree kv Hkv). }
    rewrite Hmap, fold_leaves. cbn [option_map].
    now rewrite (dict_update_fresh (sorted_items flat_dict) []). }
  destruct flat_dict; now rewrite Hgoal.
Qed.

Lemma naive_returns_mapping_witness :
  exists d,
    naive_nested_from_flat_dictionary
      [("a/b", PyInt 1); ("a", PyInt 2); ("a!", PyInt 3)] "/"
    = Some (Ok (PyDict d)).
Proof.
  apply (naive_returns_mapping [("a/b", PyInt 1); ("a", PyInt 2); ("a!", PyInt 3)] "/").
  right. discriminate.
Defined.

Lemma naive_nests_one_path_witness :
  naive_nested_from_flat_dictionary [("a/b/c", PyInt 1)] "/"
  = Some (Ok (PyDict [("a", PyDict [("b", PyDict [("c", PyInt 1)])])])).
Proof.
  apply (naive_nests_one_path "/" ["a"; "b"; "c"] (PyInt 1)).
  - discriminate.
  - repeat constructor.
Defined.

Lemma naive_keeps_unseparated_keys_witness :
  naive_nested_from_flat_dictionary [("b", PyInt 1); ("a", PyInt 2)] "/"
  = Some (Ok (PyDict [("a", PyInt 2); ("b", PyInt 1)])).
Proof.
  apply (naive_keeps_unseparated_keys "/" [("b", PyInt 1); ("a", PyInt 2)]).
  - apply (bool_decide_unpack _). vm_compute. exact I.
  - repeat constructor.
Defined.

End NaiveLaws.
